(** * BookPublisherAI: the versioned content store and the review ledger

    A shallow embedding of [storage/chroma_manager.py]
    ([ChromaContentManager]) and [interface/human_loop.py]
    ([HumanLoopInterface]), and the properties of them that the
    specification states; then the listings, the report and the batch
    session of the two classes, the text helpers of
    [scrapping/scrape.py] and the retries and batches of
    [ai_agents/writer_agent.py], with the properties that the code
    itself shows.

    Conventions of the embedding:
    - a Python [str] is a [string]; each [ascii] stands for one code point
      below 256, and the character classes ([isspace], [lower]) are
      Python's on that range;
    - a Python [int] is a [Z]; a Python [float] is a binary64 [float];
    - a call that may raise returns an [outcome]; a [try/except] is a
      [match] on it;
    - what the code reads from its environment (the clock, [uuid4], the
      console, the similarity backend, the language model) is an
      explicit argument;
    - [print] and the JSON files written by [_save_data] are not part of
      the state: no operation reads them back after [__init__]. *)

From Stdlib Require Import ZArith List String Ascii Permutation.
From Stdlib Require Import PrimFloat.
From stdpp Require Import gmap strings list sorting pretty.

Local Open Scope string_scope.
Local Open Scope list_scope.
Local Open Scope Z_scope.

(** ** Python values and built-ins *)

Module Py.

Inductive exn :=
| TypeError
| ValueError
| IndexError
| EOFError
| DuplicateIDError
| BackendError.

Inductive outcome (A : Type) :=
| Ret (a : A)
| Raise (e : exn).
Arguments Ret {A} a.
Arguments Raise {A} e.

Definition bind {A B} (x : outcome A) (f : A -> outcome B) : outcome B :=
  match x with
  | Ret a => f a
  | Raise e => Raise e
  end.

(** [str.isspace] on one code point below 256. *)
Definition isspace (c : ascii) : bool :=
  let n := N_of_ascii c in
  ((9 <=? n) && (n <=? 13) || (28 <=? n) && (n <=? 32)
   || (n =? 133) || (n =? 160))%N.

Fixpoint lstrip (s : string) : string :=
  match s with
  | EmptyString => EmptyString
  | String c r => if isspace c then lstrip r else s
  end.

Fixpoint rstrip (s : string) : string :=
  match s with
  | EmptyString => EmptyString
  | String c r =>
      match rstrip r with
      | EmptyString => if isspace c then EmptyString else String c EmptyString
      | r' => String c r'
      end
  end.

(** [s.strip()] *)
Definition strip (s : string) : string := rstrip (lstrip s).

Definition lower_char (c : ascii) : ascii :=
  let n := N_of_ascii c in
  if ((65 <=? n) && (n <=? 90)
      || (192 <=? n) && (n <=? 222) && negb (n =? 215))%N
  then ascii_of_N (n + 32) else c.

(** [s.lower()] *)
Fixpoint lower (s : string) : string :=
  match s with
  | EmptyString => EmptyString
  | String c r => String (lower_char c) (lower r)
  end.

Fixpoint split_go (s : string) (word : option string) : list string :=
  match s with
  | EmptyString => match word with Some w => [w] | None => [] end
  | String c r =>
      if isspace c then
        match word with
        | Some w => w :: split_go r None
        | None => split_go r None
        end
      else
        split_go r (Some (match word with
                          | Some w => w +:+ String c EmptyString
                          | None => String c EmptyString
                          end))
  end.

(** [s.split()]: the maximal runs of non-whitespace characters. *)
Definition split (s : string) : list string := split_go s None.

(** [len(s)] *)
Definition len (s : string) : Z := Z.of_nat (String.length s).

Definition digit_val (c : ascii) : option Z :=
  let n := N_of_ascii c in
  if ((48 <=? n) && (n <=? 57))%N then Some (Z.of_N n - 48) else None.

(** Decimal digits, single underscores allowed between two digits. *)
Fixpoint parse_digits (s : string) (acc : Z) (after_digit : bool) : option Z :=
  match s with
  | EmptyString => if after_digit then Some acc else None
  | String c r =>
      if Ascii.eqb c "_" then
        if after_digit then parse_digits r acc false else None
      else
        match digit_val c with
        | Some d => parse_digits r (10 * acc + d) true
        | None => None
        end
  end.

(** [int(s)] for a [str]: [ValueError] when [s] is not a decimal literal. *)
Definition int (s : string) : outcome Z :=
  let parsed :=
    match strip s with
    | String "-" r => Z.opp <$> parse_digits r 0 false
    | String "+" r => parse_digits r 0 false
    | r => parse_digits r 0 false
    end in
  match parsed with
  | Some n => Ret n
  | None => Raise ValueError
  end.

(** [str(n)] for an [int], as an f-string formats it. *)
Definition str_of_int (n : Z) : string := pretty n.

(** [a < b] on [str]: lexicographic on code points. *)
Definition str_lt (a b : string) : bool := String.ltb a b.

(** [list.sort] and [sorted] are stable: among the stable sorts the result
    is determined by the keys, so insertion from the right stands for
    Python's merge sort.  [before ka kb] says that an element with key
    [ka] must come before one with key [kb]. *)
Section StableSort.
Context {A K : Type} (key : A -> K) (before : K -> K -> bool).

Fixpoint insert_sorted (x : A) (l : list A) : list A :=
  match l with
  | [] => [x]
  | y :: l' =>
      if before (key y) (key x) then y :: insert_sorted x l'
      else x :: l
  end.

Definition stable_sort (l : list A) : list A :=
  foldr insert_sorted [] l.
End StableSort.

End Py.

Import Py.

(** [x ← c; k] sequences two calls: an exception of [c] propagates. *)
#[global] Instance outcome_ret : MRet outcome := @Ret.
#[global] Instance outcome_bind : MBind outcome := fun A B f x => Py.bind x f.

(** ** hashlib

    [hashlib.sha256(s.encode()).hexdigest()]: SHA-256 (FIPS 180-4) of the
    UTF-8 encoding of [s], as 64 lower-case hexadecimal digits. *)

Module Hashlib.

Definition mask32 : Z := 4294967295.

Definition add32 (a b : Z) : Z := Z.land (a + b) mask32.

Definition rotr (n x : Z) : Z :=
  Z.land (Z.lor (Z.shiftr x n) (Z.shiftl x (32 - n))) mask32.

Definition Ch (x y z : Z) : Z :=
  Z.lxor (Z.land x y) (Z.land (Z.lxor x mask32) z).

Definition Maj (x y z : Z) : Z :=
  Z.lxor (Z.lxor (Z.land x y) (Z.land x z)) (Z.land y z).

Definition Sigma0 (x : Z) : Z :=
  Z.lxor (Z.lxor (rotr 2 x) (rotr 13 x)) (rotr 22 x).

Definition Sigma1 (x : Z) : Z :=
  Z.lxor (Z.lxor (rotr 6 x) (rotr 11 x)) (rotr 25 x).

Definition sigma0 (x : Z) : Z :=
  Z.lxor (Z.lxor (rotr 7 x) (rotr 18 x)) (Z.shiftr x 3).

Definition sigma1 (x : Z) : Z :=
  Z.lxor (Z.lxor (rotr 17 x) (rotr 19 x)) (Z.shiftr x 10).

Definition K : list Z :=
    [1116352408; 1899447441; 3049323471; 3921009573; 961987163; 1508970993;
     2453635748; 2870763221; 3624381080; 310598401; 607225278; 1426881987;
     1925078388; 2162078206; 2614888103; 3248222580; 3835390401; 4022224774;
     264347078; 604807628; 770255983; 1249150122; 1555081692; 1996064986;
     2554220882; 2821834349; 2952996808; 3210313671; 3336571891; 3584528711;
     113926993; 338241895; 666307205; 773529912; 1294757372; 1396182291;
     1695183700; 1986661051; 2177026350; 2456956037; 2730485921; 2820302411;
     3259730800; 3345764771; 3516065817; 3600352804; 4094571909; 275423344;
     430227734; 506948616; 659060556; 883997877; 958139571; 1322822218;
     1537002063; 1747873779; 1955562222; 2024104815; 2227730452; 2361852424;
     2428436474; 2756734187; 3204031479; 3329325298].

Definition H0 : list Z :=
    [1779033703; 3144134277; 1013904242; 2773480762;
     1359893119; 2600822924; 528734635; 1541459225].

(** [str.encode()]: UTF-8, one or two bytes for a code point below 256. *)
Fixpoint encode (s : string) : list Z :=
  match s with
  | EmptyString => []
  | String c r =>
      let n := Z.of_N (N_of_ascii c) in
      if n <? 128 then n :: encode r
      else Z.lor 192 (Z.shiftr n 6) :: Z.lor 128 (Z.land n 63) :: encode r
  end.

(** The message, a 1 bit, zeros up to 56 modulo 64 bytes, and the length
    in bits on 8 bytes. *)
Definition pad (msg : list Z) : list Z :=
  let n := Z.of_nat (length msg) in
  let zeros := Z.to_nat ((55 - n) `mod` 64) in
  let bits := 8 * n in
  msg ++ [128] ++ replicate zeros 0
      ++ map (fun i => Z.land (Z.shiftr bits (8 * (7 - Z.of_nat i))) 255)
           (seq 0 8).

Fixpoint words (bytes : list Z) : list Z :=
  match bytes with
  | a :: b :: c :: d :: rest =>
      Z.lor (Z.shiftl a 24) (Z.lor (Z.shiftl b 16) (Z.lor (Z.shiftl c 8) d))
        :: words rest
  | _ => []
  end.

Definition word_at (w : list Z) (i : nat) : Z := nth i w 0.

(** The message schedule: [n] more words after the ones of [w]. *)
Fixpoint schedule (n : nat) (w : list Z) : list Z :=
  match n with
  | O => w
  | S n' =>
      let t := length w in
      schedule n'
        (w ++ [add32 (add32 (sigma1 (word_at w (t - 2))) (word_at w (t - 7)))
                     (add32 (sigma0 (word_at w (t - 15))) (word_at w (t - 16)))])
  end.

Definition round (s : list Z) (kw : Z * Z) : list Z :=
  match s with
  | [a; b; c; d; e; f; g; h] =>
      let t1 := add32 (add32 (add32 h (Sigma1 e)) (Ch e f g))
                      (add32 kw.1 kw.2) in
      let t2 := add32 (Sigma0 a) (Maj a b c) in
      [add32 t1 t2; a; b; c; add32 d t1; e; f; g]
  | _ => s
  end.

Definition compress (h : list Z) (block : list Z) : list Z :=
  let w := schedule 48 block in
  zip_with add32 h (fold_left round (zip K w) h).

Fixpoint blocks (n : nat) (h : list Z) (w : list Z) : list Z :=
  match n with
  | O => h
  | S n' => blocks n' (compress h (take 16 w)) (drop 16 w)
  end.

Definition hex_digit (n : Z) : ascii :=
  ascii_of_N (Z.to_N (if n <? 10 then 48 + n else 87 + n)).

Definition hex_word (w : Z) : string :=
  fold_right (fun i acc =>
                String (hex_digit (Z.land (Z.shiftr w (4 * (7 - Z.of_nat i))) 15)) acc)
    EmptyString (seq 0 8).

Definition sha256_hexdigest (s : string) : string :=
  let w := words (pad (encode s)) in
  fold_right (fun x acc => hex_word x +:+ acc) EmptyString
    (blocks (length w / 16)%nat H0 w).

End Hashlib.

(** ** The vector-store collection

    ChromaDB is an external service.  Its collections are modelled by what
    the manager relies on: a collection is a sequence of records with
    pairwise distinct ids; [add] appends a record under a new id; [get]
    with a [where] mapping returns, in insertion order, the records whose
    metadata carry every listed key with an equal value; [delete] removes
    the records of the listed ids.  Releases differ on [add] under an id
    that is already present (an error, or a logged no-op): the policy is a
    parameter, and the collection is left unchanged either way. *)

Module Chroma.

(** Metadata values: the strings and integers the manager writes. *)
Inductive mval :=
| MStr (s : string)
| MInt (n : Z).

#[global] Instance mval_eq_dec : EqDecision mval.
Proof. solve_decision. Defined.

Abbreviation metadata := (gmap string mval).

Record record (D : Type) := mk_record {
  rec_id : string;
  rec_document : D;
  rec_metadata : metadata
}.
Arguments mk_record {D}.
Arguments rec_id {D}.
Arguments rec_document {D}.
Arguments rec_metadata {D}.

Abbreviation collection D := (list (record D)).

Inductive dup_policy := RaiseOnExisting | SkipExisting.

Definition ids {D} (c : collection D) : list string := map rec_id c.

Definition has_id {D} (c : collection D) (i : string) : bool :=
  existsb (String.eqb i) (ids c).

Definition add {D} (policy : dup_policy) (c : collection D) (r : record D)
  : outcome (collection D) :=
  if has_id c (rec_id r) then
    match policy with
    | RaiseOnExisting => Raise DuplicateIDError
    | SkipExisting => Ret c
    end
  else Ret (c ++ [r]).

Definition matches (where_ : list (string * mval)) (md : metadata) : bool :=
  forallb (fun kv => bool_decide (md !! kv.1 = Some kv.2)) where_.

Definition get {D} (c : collection D) (where_ : list (string * mval))
  : collection D :=
  filter (fun r => matches where_ (rec_metadata r) = true) c.

Definition delete {D} (c : collection D) (targets : list string)
  : collection D :=
  filter (fun r => existsb (String.eqb (rec_id r)) targets = false) c.

Definition is_int (v : mval) : bool :=
  match v with MInt _ => true | MStr _ => false end.

Definition is_str (v : mval) : bool :=
  match v with MStr _ => true | MInt _ => false end.

(** [a < b] on metadata values of one type. *)
Definition mval_lt (a b : mval) : bool :=
  match a, b with
  | MInt x, MInt y => x <? y
  | MStr x, MStr y => str_lt x y
  | _, _ => false
  end.

(** [sorted(l, key=..., reverse=True)]: comparing an [int] key with a
    [str] key raises [TypeError], and a sort of keys of both types has to
    compare two such keys; [reverse=True] keeps the order of equal keys. *)
Definition sorted_desc {A} (key : A -> mval) (l : list A) : outcome (list A) :=
  if forallb (fun x => is_int (key x)) l || forallb (fun x => is_str (key x)) l
  then Ret (stable_sort key (fun ka kb => mval_lt kb ka) l)
  else Raise TypeError.

End Chroma.

Import Chroma.

(** ** storage/chroma_manager.py: [ChromaContentManager] *)

Module ChromaContentManager.

(** The JSON document of a version-tracking record, kept as the mapping
    that [json.dumps] serialises. *)
Record version_data := mk_version_data {
  vd_chapter_id : string;
  vd_version : Z;
  vd_doc_id : string;
  vd_content_hash : string;
  vd_created_at : string
}.

(** The three collections of [__init__]. *)
Record manager := mk_manager {
  content_collection : collection string;
  versions_collection : collection version_data;
  metadata_collection : collection string
}.

Definition empty : manager := mk_manager [] [] [].

(** What one call of [store_content] reads from its environment:
    [uuid.uuid4().hex[:8]] and the two readings of
    [datetime.now().isoformat()]. *)
Record store_env := mk_store_env {
  uuid8 : string;
  now_stored : string;
  now_tracked : string
}.

(** The answer of [collection.query] for one query text: one inner list
    per query text, nearest first. *)
Record query_result := mk_query_result {
  qr_documents : list (list string);
  qr_metadatas : list (list metadata);
  qr_distances : list (list float)
}.

(** One entry of the list [search_similar_content] returns. *)
Record similar := mk_similar {
  sim_content : string;
  sim_metadata : metadata;
  similarity_score : float;
  rank : Z
}.

Inductive error_text :=
| ContentNotFound          (* "Content not found" *)
| StrOfException (e : exn) (* str(e) *).

(** The dictionary [retrieve_content] returns: [found] is [True] with
    [content] and [metadata], or [False] with [error]. *)
Inductive retrieved :=
| Found (content : string) (md : metadata)
| NotFound (error : error_text).

Section Manager.
(** The release's behaviour of [add] under a present id. *)
Variable on_existing : dup_policy.
(** [content_collection.query(query_texts=[q], n_results=n, ...)] *)
Variable query : collection string -> string -> Z -> outcome query_result.

Definition _generate_content_hash (content : string) : string :=
  Hashlib.sha256_hexdigest content.

Definition doc_id_of (chapter_id : string) (version : Z) (u : string) : string :=
  chapter_id +:+ "_v" +:+ str_of_int version +:+ "_" +:+ u.

Definition version_id_of (chapter_id : string) (version : Z) : string :=
  "version_" +:+ chapter_id +:+ "_" +:+ str_of_int version.

(** [store_metadata] before the caller's [metadata] is merged in. *)
Definition base_metadata (content chapter_id : string) (version : Z)
    (now : string) : metadata :=
  <["chapter_id" := MStr chapter_id]>
  (<["version" := MInt version]>
  (<["content_hash" := MStr (_generate_content_hash content)]>
  (<["timestamp" := MStr now]>
  (<["word_count" := MInt (Z.of_nat (length (split content)))]>
  (<["char_count" := MInt (len content)]> ∅))))).

(** [if metadata: store_metadata.update(metadata)] *)
Definition store_metadata (content chapter_id : string) (version : Z)
    (md : option metadata) (now : string) : metadata :=
  let base := base_metadata content chapter_id version now in
  match md with
  | Some extra => if bool_decide (extra = ∅) then base else extra ∪ base
  | None => base
  end.

Definition _update_version_tracking (m : manager)
    (chapter_id : string) (version : Z) (doc_id content_hash now : string)
    : manager :=
  let version_id := version_id_of chapter_id version in
  let data := mk_version_data chapter_id version doc_id content_hash now in
  let md : metadata :=
    <["type" := MStr "version_info"]>
    (<["chapter_id" := MStr chapter_id]> ∅) in
  match add on_existing (versions_collection m)
            (mk_record version_id data md) with
  | Ret vc => mk_manager (content_collection m) vc (metadata_collection m)
  | Raise _ => m (* except Exception: print(...) *)
  end.

Definition store_content (m : manager) (content chapter_id : string)
    (version : Z) (md : option metadata) (env : store_env)
    : outcome (string * manager) :=
  let doc_id := doc_id_of chapter_id version (uuid8 env) in
  let content_hash := _generate_content_hash content in
  let stored := store_metadata content chapter_id version md (now_stored env) in
  cc ← add on_existing (content_collection m) (mk_record doc_id content stored);
  let m1 := mk_manager cc (versions_collection m) (metadata_collection m) in
  Ret (doc_id,
       _update_version_tracking m1 chapter_id version doc_id content_hash
         (now_tracked env)).

(** [if version:] holds for an [int] other than 0. *)
Definition truthy (version : option Z) : option Z :=
  match version with
  | Some v => if v =? 0 then None else Some v
  | None => None
  end.

(** [x[1].get('version', 0)] *)
Definition version_key (r : record string) : mval :=
  default (MInt 0) (rec_metadata r !! "version").

Definition retrieve_content (m : manager) (chapter_id : string)
    (version : option Z) : retrieved :=
  let results : outcome (collection string) :=
    match truthy version with
    | Some v =>
        Ret (get (content_collection m)
               [("chapter_id", MStr chapter_id); ("version", MInt v)])
    | None =>
        let all := get (content_collection m)
                     [("chapter_id", MStr chapter_id)] in
        match all with
        | [] => Ret all
        | _ :: _ =>
            sorted_results ← sorted_desc version_key all;
            match sorted_results with
            | first :: _ => Ret [first]
            | [] => Raise IndexError
            end
        end
    end in
  match results with
  | Ret (r :: _) => Found (rec_document r) (rec_metadata r)
  | Ret [] => NotFound ContentNotFound
  | Raise e => NotFound (StrOfException e)
  end.

(** [zip] of three lists stops at the shortest. *)
Fixpoint zip3 {A B C} (a : list A) (b : list B) (c : list C)
  : list (A * B * C) :=
  match a, b, c with
  | x :: a', y :: b', z :: c' => (x, y, z) :: zip3 a' b' c'
  | _, _, _ => []
  end.

Fixpoint ranked (i : Z) (hits : list (string * metadata * float))
  : list similar :=
  match hits with
  | [] => []
  | (doc, md, distance) :: rest =>
      mk_similar doc md (1 - distance)%float (i + 1) :: ranked (i + 1) rest
  end.

(** [results[k][0]] *)
Definition first_query {A} (l : list (list A)) : outcome (list A) :=
  match l with
  | x :: _ => Ret x
  | [] => Raise IndexError
  end.

Definition search_similar_content (m : manager) (q : string) (n_results : Z)
  : list similar :=
  let attempt :=
    results ← query (content_collection m) q n_results;
    docs ← first_query (qr_documents results);
    mds ← first_query (qr_metadatas results);
    dists ← first_query (qr_distances results);
    Ret (ranked 0 (zip3 docs mds dists)) in
  match attempt with
  | Ret l => l
  | Raise _ => [] (* except Exception: print(...); return [] *)
  end.

Definition delete_content (m : manager) (chapter_id : string)
    (version : option Z) : bool * manager :=
  let where_clause :=
    match truthy version with
    | Some v => [("chapter_id", MStr chapter_id); ("version", MInt v)]
    | None => [("chapter_id", MStr chapter_id)]
    end in
  let results := get (content_collection m) where_clause in
  match ids results with
  | [] => (false, m)
  | targets =>
      (true, mk_manager (delete (content_collection m) targets)
               (versions_collection m) (metadata_collection m))
  end.

End Manager.

(** Reading a stored snapshot: its [chapter_id] and [version] metadata. *)
Definition chapter_is (chapter_id : string) (r : record string) : Prop :=
  rec_metadata r !! "chapter_id" = Some (MStr chapter_id).

Definition version_is (version : Z) (r : record string) : Prop :=
  rec_metadata r !! "version" = Some (MInt version).

(** The caller's [metadata] as a mapping ([None] adds nothing). *)
Definition extra (md : option metadata) : metadata := default ∅ md.

(** The states the manager reaches from empty collections: each step is
    a [store_content] that returned or a [delete_content]. *)
Inductive step (on_existing : dup_policy) : manager -> manager -> Prop :=
| step_store m content chapter_id version md env doc_id m' :
    store_content on_existing m content chapter_id version md env
      = Ret (doc_id, m') ->
    step on_existing m m'
| step_delete m chapter_id version :
    step on_existing m (delete_content m chapter_id version).2.

Definition reachable (on_existing : dup_policy) (m : manager) : Prop :=
  rtc (step on_existing) empty m.

(** The version number of a snapshot whose ["version"] is an [int]. *)
Definition version_number (r : record string) : Z :=
  match version_key r with
  | MInt v => v
  | MStr _ => 0
  end.

(** Some snapshot is stored for the chapter, or for the chapter under
    that version. *)
Definition has_chapter (m : manager) (chapter_id : string) : Prop :=
  ∃ r, r ∈ content_collection m ∧ chapter_is chapter_id r.


(** Every snapshot of the chapter carries an [int] as its version. *)
Definition int_versions (m : manager) (chapter_id : string) : Prop :=
  ∀ r, r ∈ content_collection m -> chapter_is chapter_id r ->
       ∃ v, version_is v r.


(** A tracking record sits under the id made of its chapter and version. *)
Definition tracked_by_id (r : record version_data) : Prop :=
  rec_id r
  = version_id_of (vd_chapter_id (rec_document r)) (vd_version (rec_document r)).

(** The invariant of the reachable states. *)
Definition store_inv (m : manager) : Prop :=
  NoDup (ids (content_collection m))
  ∧ NoDup (ids (versions_collection m))
  ∧ Forall tracked_by_id (versions_collection m).

End ChromaContentManager.

(** ** interface/human_loop.py: [HumanLoopInterface] *)

Module ReviewRequest.
Record t := mk {
  request_id : string;
  content : string;
  original_content : string;
  ai_feedback : gmap string string;
  review_type : string;
  priority : Z;
  created_at : string;
  status : string
}.

(** [request.status = s] *)
Definition with_status (r : t) (s : string) : t :=
  mk (request_id r) (content r) (original_content r) (ai_feedback r)
     (review_type r) (priority r) (created_at r) s.
End ReviewRequest.

Module HumanFeedback.
Record t := mk {
  request_id : string;
  reviewer_id : string;
  action : string;
  feedback : string;
  suggested_changes : string;
  rating : Z;
  timestamp : string
}.
End HumanFeedback.

Module HumanLoopInterface.

(** A registered callback is run on the feedback; whatever it raises is
    caught and printed. *)
Definition callback := HumanFeedback.t -> outcome unit.

Record interface := mk_interface {
  pending_reviews : list ReviewRequest.t;
  completed_reviews : list HumanFeedback.t;
  feedback_callbacks : gmap string callback
}.

Definition empty : interface := mk_interface [] [] ∅.

(** [stamp] is [datetime.now().strftime('%Y%m%d_%H%M%S')] and [now] is
    [datetime.now().isoformat()]. *)
Definition submit_for_review (st : interface)
    (content original_content : string) (ai_feedback : gmap string string)
    (review_type : string) (priority : Z) (stamp now : string)
    : string * interface :=
  let request_id :=
    review_type +:+ "_" +:+ stamp +:+ "_"
      +:+ str_of_int (Z.of_nat (length (pending_reviews st))) in
  let review_request :=
    ReviewRequest.mk request_id content original_content ai_feedback
      review_type priority now "pending" in
  (request_id,
   mk_interface (pending_reviews st ++ [review_request])
     (completed_reviews st) (feedback_callbacks st)).

(** [review_type and review.review_type != review_type] *)
Definition other_type (review_type : option string) (review : ReviewRequest.t)
  : bool :=
  match review_type with
  | None => false
  | Some "" => false
  | Some rt => negb (String.eqb (ReviewRequest.review_type review) rt)
  end.

(** The loop of [get_pending_reviews]. *)
Fixpoint filtered_reviews (review_type : option string) (priority_min : Z)
    (reviews : list ReviewRequest.t) : list ReviewRequest.t :=
  match reviews with
  | [] => []
  | review :: rest =>
      if negb (String.eqb (ReviewRequest.status review) "pending") then
        filtered_reviews review_type priority_min rest
      else if other_type review_type review then
        filtered_reviews review_type priority_min rest
      else if ReviewRequest.priority review <? priority_min then
        filtered_reviews review_type priority_min rest
      else review :: filtered_reviews review_type priority_min rest
  end.

(** [lambda x: (-x.priority, x.created_at)] *)
Definition sort_key (x : ReviewRequest.t) : Z * string :=
  (- ReviewRequest.priority x, ReviewRequest.created_at x).

(** [a < b] on tuples [(int, str)]: the first components decide unless
    they are equal. *)
Definition key_lt (a b : Z * string) : bool :=
  if a.1 =? b.1 then str_lt a.2 b.2 else a.1 <? b.1.

(** A request is still pending and passes the two filters. *)
Definition passes (review_type : option string) (priority_min : Z)
    (review : ReviewRequest.t) : Prop :=
  ReviewRequest.status review = "pending"
  ∧ other_type review_type review = false
  ∧ priority_min <= ReviewRequest.priority review.

(** The requests were stamped by a clock that does not run backwards:
    no request has a smaller [created_at] than one submitted before it. *)
Definition in_clock_order (reviews : list ReviewRequest.t) : Prop :=
  StronglySorted
    (fun x y =>
       str_lt (ReviewRequest.created_at y) (ReviewRequest.created_at x) = false)
    reviews.

Definition get_pending_reviews (st : interface)
    (review_type : option string) (priority_min : Z) : list ReviewRequest.t :=
  stable_sort sort_key key_lt
    (filtered_reviews review_type priority_min (pending_reviews st)).

Definition _find_request_by_id (st : interface) (request_id : string)
  : option ReviewRequest.t :=
  find (fun request => String.eqb (ReviewRequest.request_id request) request_id)
    (pending_reviews st).

(** Only prints; the result says whether the request was found. *)
Definition display_review_interface (st : interface) (request_id : string)
  : bool :=
  match _find_request_by_id st request_id with
  | Some _ => true
  | None => false
  end.

(** [input(...)]: the next console line, [EOFError] at the end of input. *)
Definition input (console : list string) : outcome (string * list string) :=
  match console with
  | line :: rest => Ret (line, rest)
  | [] => Raise EOFError
  end.

Definition valid_action (a : string) : bool :=
  String.eqb a "approve" || String.eqb a "revise" || String.eqb a "reject".

(** [while True: action = input(...).strip().lower(); ...] *)
Fixpoint read_action (console : list string) : outcome (string * list string) :=
  match console with
  | [] => Raise EOFError
  | line :: rest =>
      let action := lower (strip line) in
      if valid_action action then Ret (action, rest) else read_action rest
  end.

(** [while True: try: rating = int(input(...).strip()) ... except ValueError] *)
Fixpoint read_rating (console : list string) : outcome (Z * list string) :=
  match console with
  | [] => Raise EOFError
  | line :: rest =>
      match int (strip line) with
      | Ret rating =>
          if (1 <=? rating) && (rating <=? 10) then Ret (rating, rest)
          else read_rating rest
      | Raise _ => read_rating rest
      end
  end.

(** [request.status = 'completed'] on the object [_find_request_by_id]
    returned: the first request of that id in [pending_reviews]. *)
Fixpoint complete_first (request_id : string) (reviews : list ReviewRequest.t)
  : list ReviewRequest.t :=
  match reviews with
  | [] => []
  | request :: rest =>
      if String.eqb (ReviewRequest.request_id request) request_id
      then ReviewRequest.with_status request "completed" :: rest
      else request :: complete_first request_id rest
  end.

(** [console] holds the lines the reviewer types; [now] is
    [datetime.now().isoformat()].  The result carries the returned value,
    the interface afterwards and the console lines left unread. *)
Definition collect_human_feedback (st : interface)
    (request_id reviewer_id : string) (console : list string) (now : string)
    : outcome (option HumanFeedback.t * interface * list string) :=
  match _find_request_by_id st request_id with
  | None => Ret (None, st, console)
  | Some _ =>
      if negb (display_review_interface st request_id)
      then Ret (None, st, console)
      else
        '(action, console) ← read_action console;
        '(feedback, console) ← input console;
        '(suggested_changes, console) ← input console;
        '(rating, console) ← read_rating console;
        let human_feedback :=
          HumanFeedback.mk request_id reviewer_id action (strip feedback)
            (strip suggested_changes) rating now in
        let st' :=
          mk_interface (complete_first request_id (pending_reviews st))
            (completed_reviews st ++ [human_feedback])
            (feedback_callbacks st) in
        (* the callback's own result is discarded *)
        let _ := (fun cb : callback => cb human_feedback)
                   <$> feedback_callbacks st !! request_id in
        Ret (Some human_feedback, st', console)
  end.

Definition register_feedback_callback (st : interface) (request_id : string)
    (cb : callback) : interface :=
  mk_interface (pending_reviews st) (completed_reviews st)
    (<[request_id := cb]> (feedback_callbacks st)).

(** The first completed review of the request; [get_review_summary]
    returns its fields as a dictionary. *)
Definition stored_feedback (completed : list HumanFeedback.t)
    (request_id : string) : option HumanFeedback.t :=
  find (fun fb => String.eqb (HumanFeedback.request_id fb) request_id) completed.

Definition get_review_summary (st : interface) (request_id : string)
  : option HumanFeedback.t :=
  stored_feedback (completed_reviews st) request_id.

(** *** [wait_for_feedback]

    The coroutine reads the clock and, at each turn of its loop, the
    list [completed_reviews] as the other tasks have left it.  A clock
    reading is the naive local time in microseconds.  The first turn
    sees the interface as it is at the call; each later turn comes after
    one [asyncio.sleep(10)] and sees what the [poll] records. *)
Record poll := mk_poll {
  completed_then : list HumanFeedback.t;
  clock_then : Z
}.

Inductive waited :=
| Feedback (fb : HumanFeedback.t) (* return feedback *)
| TimedOut                        (* return None *)
| Sleeping                        (* still in asyncio.sleep(10) *).

(** [(datetime.now() - start_time).seconds]: the seconds field of the
    normalised [timedelta], between 0 and 86399. *)
Definition elapsed_seconds (start now : Z) : Z :=
  ((now - start) `div` 1000000) `mod` 86400.

Fixpoint wait_loop (request_id : string) (timeout start : Z)
    (turns : list poll) : waited :=
  match turns with
  | [] => Sleeping
  | turn :: later =>
      match stored_feedback (completed_then turn) request_id with
      | Some fb => Feedback fb
      | None =>
          if elapsed_seconds start (clock_then turn) >? timeout
          then TimedOut
          else wait_loop request_id timeout start later
      end
  end.

Definition wait_for_feedback (st : interface) (request_id : string)
    (timeout : Z) (start now : Z) (later : list poll) : waited :=
  wait_loop request_id timeout start
    (mk_poll (completed_reviews st) now :: later).

(** The states of a session: requests are submitted under a clock that
    has not gone back since the earlier submissions, and reviewers give
    feedback. *)
Inductive session_step : interface -> interface -> Prop :=
| step_submit st content original_content ai_feedback review_type priority
    stamp now :
    Forall (fun r => str_lt now (ReviewRequest.created_at r) = false)
      (pending_reviews st) ->
    session_step st
      (submit_for_review st content original_content ai_feedback review_type
         priority stamp now).2
| step_collect st request_id reviewer_id console now res st' rest :
    collect_human_feedback st request_id reviewer_id console now
      = Ret (res, st', rest) ->
    session_step st st'.

End HumanLoopInterface.

(** ** Scenarios of the examples *)

Module Scenarios.
Import ChromaContentManager.

Definition first_draft : string := "Elena stepped through the ancient gates.".
Definition second_draft : string := "Elena crossed the silent courtyard.".

Definition env1 : store_env :=
  mk_store_env "3f2a9c1e" "2024-05-01T10:00:00.000100"
    "2024-05-01T10:00:00.000200".
Definition env2 : store_env :=
  mk_store_env "b07d44a2" "2024-05-01T10:05:00.000100"
    "2024-05-01T10:05:00.000200".

(** The manager after a call: a call that raised leaves it as it was. *)
Definition after (call : outcome (string * manager)) (m : manager) : manager :=
  match call with
  | Ret (_, m') => m'
  | Raise _ => m
  end.

(** [store_content(first_draft, "chapter_1")] and then
    [store_content(second_draft, "chapter_1")], both with the default
    [version=1]. *)
Definition stored_once : manager :=
  after (store_content RaiseOnExisting empty first_draft "chapter_1" 1 None env1)
    empty.
Definition stored_twice : manager :=
  after (store_content RaiseOnExisting stored_once second_draft "chapter_1" 1
           None env2) stored_once.

(** The same text stored a second time under [version=2]. *)
Definition stored_again : manager :=
  after (store_content RaiseOnExisting stored_once first_draft "chapter_1" 2
           None env2) stored_once.

(** A backend answer for one query text: two hits at squared-L2
    distances 0.25 and 2. *)
Definition two_hits : query_result :=
  mk_query_result [["near"; "far"]] [[∅; ∅]] [[0.25%float; 2%float]].
Definition answering (r : query_result)
  : collection string -> string -> Z -> outcome query_result :=
  fun _ _ _ => Ret r.
End Scenarios.

Module ReviewScenarios.
Import HumanLoopInterface.

Definition submit (st : interface) (priority : Z) (stamp now : string)
  : interface :=
  (submit_for_review st "draft" "source" ∅ "reviewer" priority stamp now).2.

(** Requests of priorities 2, 5, 5 and 1, submitted one second apart. *)
Definition four_pending : interface :=
  submit
    (submit
       (submit
          (submit empty 2 "20240501_100000" "2024-05-01T10:00:00.120000")
          5 "20240501_100001" "2024-05-01T10:00:01.120000")
       5 "20240501_100002" "2024-05-01T10:00:02.120000")
    1 "20240501_100003" "2024-05-01T10:00:03.120000".

Definition second_request : string := "reviewer_20240501_100001_1".

(** The interface after a call of [collect_human_feedback]. *)
Definition after
    (call : outcome (option HumanFeedback.t * interface * list string))
    (st : interface) : interface :=
  match call with
  | Ret (_, st', _) => st'
  | Raise _ => st
  end.

(** alice approves the second request. *)
Definition reviewed : interface :=
  after (collect_human_feedback four_pending second_request "alice"
           ["approve"; "reads well"; ""; "8"] "2024-05-01T10:00:09.500000")
    four_pending.

Definition alice_feedback : HumanFeedback.t :=
  HumanFeedback.mk second_request "alice" "approve" "reads well" "" 8
    "2024-05-01T10:00:09.500000".

(** Clock readings in microseconds: the call, the first check 40
    microseconds later, the second check after the sleep of 10 s. *)
Definition t_call : Z := 1714557604000000.
Definition t_first : Z := t_call + 40.
End ReviewScenarios.

(** ** storage/chroma_manager.py: the listings of [ChromaContentManager] *)

Module ContentReports.
Import ChromaContentManager.

(** [s[:n]] *)
Fixpoint take_str (n : nat) (s : string) : string :=
  match n, s with
  | S n', String c r => String c (take_str n' r)
  | _, _ => EmptyString
  end.

(** One dictionary of the list [get_chapter_versions] returns; a value is
    [None] when the metadata lack the key. *)
Record version_entry := mk_version_entry {
  ve_version : option mval;
  ve_timestamp : option mval;
  ve_word_count : option mval;
  content_preview : string
}.

(** [doc[:200] + "..." if len(doc) > 200 else doc] *)
Definition preview_of (doc : string) : string :=
  if len doc >? 200 then take_str 200 doc +:+ "..." else doc.

Definition entry_of (r : record string) : version_entry :=
  mk_version_entry (rec_metadata r !! "version") (rec_metadata r !! "timestamp")
    (rec_metadata r !! "word_count") (preview_of (rec_document r)).

Definition is_int_key (k : option mval) : bool :=
  match k with Some (MInt _) => true | _ => false end.

Definition is_str_key (k : option mval) : bool :=
  match k with Some (MStr _) => true | _ => false end.

(** [a < b] on the values of ["version"]. *)
Definition key_lt (a b : option mval) : bool :=
  match a, b with
  | Some x, Some y => mval_lt x y
  | _, _ => false
  end.

(** [versions.sort(key=lambda x: x.get('version', 0))]: every entry has
    the key, so the default is never used; a list of two or more entries
    is compared, and comparing [None], or an [int] with a [str], raises
    [TypeError]. *)
Definition sort_entries (l : list version_entry) : outcome (list version_entry) :=
  if (length l <=? 1)%nat
     || forallb (fun e => is_int_key (ve_version e)) l
     || forallb (fun e => is_str_key (ve_version e)) l
  then Ret (stable_sort ve_version key_lt l)
  else Raise TypeError.

Definition get_chapter_versions (m : manager) (chapter_id : string)
  : list version_entry :=
  let results := get (content_collection m) [("chapter_id", MStr chapter_id)] in
  match sort_entries (map entry_of results) with
  | Ret versions => versions
  | Raise _ => [] (* except Exception: print(...); return [] *)
  end.

#[global] Instance mval_countable : Countable mval.
Proof.
  refine (inj_countable'
            (fun v => match v with MStr s => inl s | MInt n => inr n end)
            (fun x => match x with inl s => MStr s | inr n => MInt n end) _).
  by intros [].
Defined.

(** The float [a / b] of two [int]s, kept as the quotient it is. *)
Record truediv := mk_truediv {
  dividend : Z;
  divisor : Z
}.

(** The dictionary [get_content_stats] returns. *)
Inductive stats :=
| NoDocuments (* {"total_documents": 0} *)
| Stats (total_documents unique_chapters total_versions total_words : Z)
    (average_words_per_doc : truediv)
| StatsError (e : exn) (* {"error": str(e)} *).

(** The loop of [get_content_stats]: [total_words += ...] raises
    [TypeError] on a [str]. *)
Fixpoint count_metadatas (mds : list metadata) (chapters : gset (option mval))
    (versions total_words : Z) : outcome (gset (option mval) * Z * Z) :=
  match mds with
  | [] => Ret (chapters, versions, total_words)
  | md :: rest =>
      let chapters := chapters ∪ {[ md !! "chapter_id" ]} in
      let versions := versions + 1 in
      match default (MInt 0) (md !! "word_count") with
      | MInt w => count_metadatas rest chapters versions (total_words + w)
      | MStr _ => Raise TypeError
      end
  end.

Definition get_content_stats (m : manager) : stats :=
  let metadatas := map rec_metadata (content_collection m) in
  match metadatas with
  | [] => NoDocuments
  | _ :: _ =>
      match count_metadatas metadatas ∅ 0 0 with
      | Ret (chapters, versions, total_words) =>
          Stats (Z.of_nat (length metadatas)) (Z.of_nat (size chapters))
            versions total_words
            (mk_truediv total_words (Z.of_nat (length metadatas)))
      | Raise e => StatsError e
      end
  end.

(** A snapshot that [delete_content(chapter_id, version)] selects: of the
    chapter, and of the version when [version] is truthy. *)
Definition targeted (chapter_id : string) (version : option Z)
    (r : record string) : Prop :=
  chapter_is chapter_id r
  ∧ match truthy version with
    | Some v => version_is v r
    | None => True
    end.

(** The [where] mapping of [retrieve_content] and [delete_content]. *)
Definition where_clause (chapter_id : string) (version : option Z)
  : list (string * mval) :=
  match truthy version with
  | Some v => [("chapter_id", MStr chapter_id); ("version", MInt v)]
  | None => [("chapter_id", MStr chapter_id)]
  end.

(** The word count a snapshot carries, 0 without one. *)
Definition word_count_of (r : record string) : Z :=
  match rec_metadata r !! "word_count" with
  | Some (MInt w) => w
  | _ => 0
  end.

(** The ["word_count"] of the snapshot is an [int], or missing. *)
Definition countable_words (r : record string) : Prop :=
  match rec_metadata r !! "word_count" with
  | Some (MStr _) => False
  | _ => True
  end.

#[global] Instance countable_words_dec r : Decision (countable_words r).
Proof.
  unfold countable_words.
  destruct (rec_metadata r !! "word_count") as [[|]|]; apply _.
Defined.

Definition sum_Z (l : list Z) : Z := foldr Z.add 0 l.

End ContentReports.

Module ReportScenarios.
Import ChromaContentManager Scenarios ContentReports.

(** ["chapter_1"] after [delete_content("chapter_1")] on the store of one
    snapshot, and after storing version 1 again. *)
Definition deleted_all : manager := (delete_content stored_once "chapter_1" None).2.

Definition env3 : store_env :=
  mk_store_env "5c19e0d4" "2024-05-01T10:09:00.000100"
    "2024-05-01T10:09:00.000200".

Definition stored_anew : manager :=
  after (store_content RaiseOnExisting deleted_all second_draft "chapter_1" 1
           None env3) deleted_all.

(** A caller's metadata that set ["version"] to a [str]. *)
Definition draft_metadata : metadata := {[ "version" := MStr "draft" ]}.

Definition stored_mixed : manager :=
  after (store_content RaiseOnExisting stored_once second_draft "chapter_1" 2
           (Some draft_metadata) env2) stored_once.
End ReportScenarios.

(** ** interface/human_loop.py: the report and the batch session *)

Module ReviewReports.
Import HumanLoopInterface.

(** The floats of the report, kept as the expressions that compute them:
    [a / b] on two [int]s, [x * 100] and [round(x, n)]. *)
Inductive float_expr :=
| Quotient (a b : Z)
| Times100 (x : float_expr)
| Round (x : float_expr) (ndigits : Z).

(** [counts[k] = counts.get(k, 0) + 1] for every key of the list. *)
Definition tally (init : gmap string Z) (keys : list string) : gmap string Z :=
  foldl (fun counts k => <[k := default 0 (counts !! k) + 1]> counts) init keys.

Record report := mk_report {
  total_completed_reviews : Z;
  average_rating : float_expr;
  action_breakdown : gmap string Z;
  review_type_breakdown : gmap string Z;
  approval_rate : float_expr;
  pending_count : Z (* "pending_reviews" *)
}.

Definition has_status (s : string) (r : ReviewRequest.t) : Prop :=
  ReviewRequest.status r = s.

#[global] Instance has_status_dec s r : Decision (has_status s r).
Proof. unfold has_status. apply _. Defined.

(** [None] stands for [{"message": "No completed reviews found"}].
    [action_counts["approve"]] is there from the start, so the lookup for
    the approval rate cannot fail. *)
Definition generate_review_report (st : interface) : option report :=
  let total_reviews := Z.of_nat (length (completed_reviews st)) in
  if total_reviews =? 0 then None
  else
    let avg_rating :=
      Quotient (foldr Z.add 0 (map HumanFeedback.rating (completed_reviews st)))
        total_reviews in
    let action_counts :=
      tally (<["approve" := 0]> (<["revise" := 0]> (<["reject" := 0]> ∅)))
        (map HumanFeedback.action (completed_reviews st)) in
    let type_counts :=
      tally ∅
        (map ReviewRequest.review_type
           (pending_reviews st
              ++ filter (has_status "completed") (pending_reviews st))) in
    Some (mk_report total_reviews (Round avg_rating 2) action_counts type_counts
            (Round (Times100 (Quotient (default 0 (action_counts !! "approve"))
                                total_reviews)) 1)
            (Z.of_nat (length (filter (has_status "pending") (pending_reviews st))))).

(** How a batch session ends: the exception that ended it, if any, the
    interface and the console lines left. *)
Definition batch_end : Type := option exn * interface * list string.

(** The loop of [batch_review_interface] over the list [pending] computed
    at its start; [now_at i] is the clock reading of turn [i]. *)
Fixpoint batch_loop (st : interface) (pending : list ReviewRequest.t)
    (console : list string) (now_at : nat -> string) (i : nat) : batch_end :=
  match pending with
  | [] => (None, st, console)
  | request :: rest =>
      match input console with
      | Raise e => (Some e, st, console)
      | Ret (line, console) =>
          let choice := lower (strip line) in
          if String.eqb choice "q" then (None, st, console)
          else if String.eqb choice "s" then
            batch_loop st rest console now_at (S i)
          else if String.eqb choice "r" then
            match input console with
            | Raise e => (Some e, st, console)
            | Ret (line, console) =>
                let reviewer_id := strip line in
                if String.eqb reviewer_id "" then
                  batch_loop st rest console now_at (S i)
                else
                  match collect_human_feedback st
                          (ReviewRequest.request_id request) reviewer_id
                          console (now_at i) with
                  | Ret (_, st', console) =>
                      batch_loop st' rest console now_at (S i)
                  | Raise e => (Some e, st, [])
                  end
            end
          else batch_loop st rest console now_at (S i)
      end
  end.

Definition batch_review_interface (st : interface) (review_type : option string)
    (console : list string) (now_at : nat -> string) : batch_end :=
  match get_pending_reviews st review_type 1 with
  | [] => (None, st, console)
  | pending => batch_loop st pending console now_at 0
  end.

(** The steps of a session under any clock. *)
Inductive review_step : interface -> interface -> Prop :=
| review_submit st content original_content ai_feedback review_type priority
    stamp now :
    review_step st
      (submit_for_review st content original_content ai_feedback review_type
         priority stamp now).2
| review_collect st request_id reviewer_id console now res st' rest :
    collect_human_feedback st request_id reviewer_id console now
      = Ret (res, st', rest) ->
    review_step st st'.

(** The ids of the requests, in order of submission. *)
Definition request_ids (st : interface) : list string :=
  map ReviewRequest.request_id (pending_reviews st).

(** The i-th request carries the id that ends in its index. *)
Definition indexed_ids (st : interface) : Prop :=
  ∀ (i : nat) r, pending_reviews st !! i = Some r ->
    ∃ stem, ReviewRequest.request_id r
            = stem +:+ "_" +:+ str_of_int (Z.of_nat i).

(** What is typed passes the checks of [collect_human_feedback]. *)
Definition valid_feedback (fb : HumanFeedback.t) : Prop :=
  valid_action (HumanFeedback.action fb) = true
  ∧ 1 <= HumanFeedback.rating fb <= 10.

(** A request is ['completed'] exactly when a feedback is stored for it,
    and ['pending'] otherwise; every feedback answers a request. *)
Definition settled (st : interface) : Prop :=
  (∀ r, r ∈ pending_reviews st ->
     (ReviewRequest.status r = "completed"
      ∧ is_Some (stored_feedback (completed_reviews st) (ReviewRequest.request_id r)))
     ∨ (ReviewRequest.status r = "pending"
        ∧ stored_feedback (completed_reviews st) (ReviewRequest.request_id r) = None))
  ∧ ∀ fb, fb ∈ completed_reviews st ->
      HumanFeedback.request_id fb ∈ request_ids st.

(** What holds of every session that starts with no request. *)
Definition ledger_inv (st : interface) : Prop :=
  indexed_ids st ∧ settled st ∧ Forall valid_feedback (completed_reviews st).

(** How often a key occurs in a list. *)
Definition occurrences (k : string) (keys : list string) : Z :=
  Z.of_nat (length (filter (fun x => x = k) keys)).

(** What a batch session over [pending] may leave behind. *)
Definition batch_bounded (st : interface) (pending : list ReviewRequest.t)
    (console : list string) (res : batch_end) : Prop :=
  ∃ new,
    completed_reviews res.1.2 = completed_reviews st ++ new
    ∧ map HumanFeedback.request_id new
        `sublist_of` map ReviewRequest.request_id pending
    ∧ Forall valid_feedback new
    ∧ request_ids res.1.2 = request_ids st
    ∧ feedback_callbacks res.1.2 = feedback_callbacks st
    ∧ (∃ used, console = used ++ res.2)
    ∧ (res.1.1 = None ∨ (res.1.1 = Some EOFError ∧ res.2 = [])).

Fixpoint has_char (c : ascii) (s : string) : bool :=
  match s with
  | EmptyString => false
  | String d r => Ascii.eqb c d || has_char c r
  end.

End ReviewReports.

Module BatchScenarios.
Import HumanLoopInterface ReviewScenarios ReviewReports.

(** The reviewer skips the first request shown, reviews the second and
    quits. *)
Definition typed : list string :=
  ["s"; "r"; "carol"; "revise"; "tighten the opening"; "less exposition"; "6"; "q"].

Definition clock (i : nat) : string := "2024-05-01T11:00:0" +:+ str_of_int (Z.of_nat i).
End BatchScenarios.

(** ** scrapping/scrape.py: the text helpers of [WikisourceScaper] *)

Module WikisourceScaper.

Definition newline : ascii := "010".

(** [s.split(sep)] for a separator of one character. *)
Fixpoint split_on (sep : ascii) (s : string) : list string :=
  match s with
  | EmptyString => [EmptyString]
  | String c r =>
      if Ascii.eqb c sep then EmptyString :: split_on sep r
      else
        match split_on sep r with
        | w :: ws => String c w :: ws
        | [] => [String c EmptyString]
        end
  end.

(** [sep.join(l)] *)
Fixpoint join (sep : string) (l : list string) : string :=
  match l with
  | [] => EmptyString
  | [x] => x
  | x :: rest => x +:+ sep +:+ join sep rest
  end.

(** [line and not line.startswith('[') and len(line) > 2] *)
Definition keeps (line : string) : bool :=
  negb (String.eqb line "")
  && negb (match line with String "[" _ => true | _ => false end)
  && (len line >? 2).

(** The loop of [_clean_content]. *)
Fixpoint cleaned_lines (lines : list string) : list string :=
  match lines with
  | [] => []
  | line :: rest =>
      let line := strip line in
      if keeps line then line :: cleaned_lines rest else cleaned_lines rest
  end.

Fixpoint newlines (n : nat) : string :=
  match n with
  | O => EmptyString
  | S k => String newline (newlines k)
  end.

(** [re.sub(r'\n{3,}', '\n\n', s)]: [run] counts the newlines of the
    run being read; a run of three or more is written as two. *)
Fixpoint collapse_newlines (run : nat) (s : string) : string :=
  match s with
  | EmptyString => newlines (Nat.min run 2)
  | String c r =>
      if Ascii.eqb c newline then collapse_newlines (S run) r
      else newlines (Nat.min run 2) +:+ String c (collapse_newlines 0 r)
  end.

(** ['\n\n'] *)
Definition blank_line : string := String newline (String newline EmptyString).

Definition _clean_content (content : string) : string :=
  if String.eqb content "" then ""
  else
    let lines := split_on newline content in
    let cleaned_content := join blank_line (cleaned_lines lines) in
    strip (collapse_newlines 0 cleaned_content).

(** A character of the class of the first pattern: one of
    < > : / \ | ? * or the double quote. *)
Definition invalid_char (c : ascii) : bool :=
  existsb (Ascii.eqb c)
    ["<"; ">"; ":"; "034"; "/"; "\"; "|"; "?"; "*"]%char.

(** The first [re.sub]: every such character becomes an underscore. *)
Fixpoint replace_invalid (s : string) : string :=
  match s with
  | EmptyString => EmptyString
  | String c r => String (if invalid_char c then "_"%char else c) (replace_invalid r)
  end.

(** [re.sub(r'\s+', '_', s)]: [in_run] says that the character before
    was whitespace, so that a run gives one underscore. *)
Fixpoint replace_spaces (in_run : bool) (s : string) : string :=
  match s with
  | EmptyString => EmptyString
  | String c r =>
      if isspace c then
        if in_run then replace_spaces true r
        else String "_" (replace_spaces true r)
      else String c (replace_spaces false r)
  end.

Definition _sanitize_filename (filename : string) : string :=
  let sanitized := replace_invalid filename in
  let sanitized := replace_spaces false sanitized in
  ContentReports.take_str 100 sanitized.

(** Every character of the string passes the test. *)
Fixpoint all_chars (p : ascii -> bool) (s : string) : bool :=
  match s with
  | EmptyString => true
  | String c r => p c && all_chars p r
  end.

(** A character that may stay in a file name. *)
Definition safe_char (c : ascii) : bool := negb (invalid_char c) && negb (isspace c).

Definition not_newline (c : ascii) : bool := negb (Ascii.eqb c newline).

(** A line as [_clean_content] keeps it: stripped, kept by the test,
    and without a newline. *)
Definition kept_line (line : string) : Prop :=
  strip line = line ∧ keeps line = true ∧ all_chars not_newline line = true.

End WikisourceScaper.

Module ScrapeScenarios.
Import WikisourceScaper.

Definition nl : string := String newline EmptyString.

(** A heading with an edit link, an indented paragraph, blank lines, a
    page number and a second paragraph. *)
Definition page_text : string :=
  "[edit]" +:+ nl +:+ "   The sun rose over the lagoon.  " +:+ nl +:+ nl +:+ nl
  +:+ nl +:+ "12" +:+ nl +:+ "Dick sat up." +:+ nl.

Definition chapter_title : string := "Book 1: What is " +:+ String "034" "Home" +:+ String "034" "?  /draft".
End ScrapeScenarios.

(** ** ai_agents/writer_agent.py: [WritingTask] and [AIWriterAgent] *)

Module WritingTask.

Record t := mk {
  source_content : string;
  title : string;
  target_style : string;
  target_length : string;
  preserve_meaning : bool;
  creativity_level : float;
  task_id : string
}.

(** A keyword argument, of one of the types the fields are annotated
    with. *)
Inductive arg :=
| StrArg (s : string)
| FloatArg (x : float)
| BoolArg (b : bool).

(** The parameters of the [__init__] that [@dataclass] generates, in the
    order of the fields; the first two have no default. *)
Definition parameters : list string :=
  ["source_content"; "title"; "target_style"; "target_length";
   "preserve_meaning"; "creativity_level"; "task_id"].

Definition str_arg (name : string) (kwargs : list (string * arg))
  : option string :=
  match list_find (fun kv => kv.1 = name) kwargs with
  | Some (_, (_, StrArg s)) => Some s
  | _ => None
  end.

Definition float_arg (name : string) (kwargs : list (string * arg))
  : option float :=
  match list_find (fun kv => kv.1 = name) kwargs with
  | Some (_, (_, FloatArg x)) => Some x
  | _ => None
  end.

Definition bool_arg (name : string) (kwargs : list (string * arg))
  : option bool :=
  match list_find (fun kv => kv.1 = name) kwargs with
  | Some (_, (_, BoolArg b)) => Some b
  | _ => None
  end.

(** [WritingTask] called with keyword arguments only: the call binds
    the keywords to the parameters and raises [TypeError] for a keyword that names no
    parameter, for one given twice and for a missing [source_content] or
    [title]; then [__post_init__] fills in the task id from [stamp], the
    clock reading [datetime.now().strftime('%Y%m%d_%H%M%S')]. *)
Definition init (kwargs : list (string * arg)) (stamp : string) : outcome t :=
  if negb (forallb (fun kv => bool_decide (kv.1 ∈ parameters)) kwargs)
  then Raise TypeError
  else if negb (bool_decide (NoDup (map fst kwargs)))
  then Raise TypeError
  else
    match str_arg "source_content" kwargs, str_arg "title" kwargs with
    | Some content, Some name =>
        Ret (mk content name
               (default "literary" (str_arg "target_style" kwargs))
               (default "similar" (str_arg "target_length" kwargs))
               (default true (bool_arg "preserve_meaning" kwargs))
               (default 0x1.6666666666666p-1%float
                  (float_arg "creativity_level" kwargs))
               (default ("task_" +:+ stamp) (str_arg "task_id" kwargs)))
    | _, _ => Raise TypeError
    end.

End WritingTask.

Module AIWriterAgent.
Import ContentReports.

(** What [generate_content] returns: an object with a [text]. *)
Record response := mk_response { text : string }.

(** The model: what its n-th call answers to a prompt.  It returns a
    response, or a false value ([None]), or raises an [Exception]. *)
Definition generator := nat -> string -> outcome (option response).

(** [tw / ow if ow > 0 else 0] *)
Inductive ratio :=
| Ratio (q : truediv)
| NoRatio.

Inductive error_text :=
| FailedAfterRetries (* "Failed to generate content after retries" *)
| StrOfException (e : exn).

Inductive result :=
| Transformed (task_id original_title transformed_content : string)
    (original_word_count transformed_word_count : Z) (length_ratio : ratio)
    (style target_length : string) (creativity_level : float)
    (preserve_meaning : bool) (generated_at model_used : string)
| Failed (task_id : string) (error : error_text) (generated_at : string).

Definition result_task_id (r : result) : string :=
  match r with
  | Transformed task_id _ _ _ _ _ _ _ _ _ _ _ => task_id
  | Failed task_id _ _ => task_id
  end.

Definition is_transformed (r : result) : bool :=
  match r with
  | Transformed _ _ _ _ _ _ _ _ _ _ _ _ => true
  | Failed _ _ _ => false
  end.

Record agent := mk_agent {
  model_name : string;
  writing_history : list result
}.

(** The effects of a call besides its result: the number of calls made
    to the model so far, and the seconds slept, latest call last. *)
Record effects := mk_effects {
  calls : nat;
  slept : list Z
}.

Definition style_instructions : list (string * string) :=
  [("literary", "elegant, sophisticated prose with rich descriptions and varied sentence structure");
   ("modern", "contemporary, accessible language with clear, direct communication");
   ("classical", "formal, traditional prose reminiscent of classic literature");
   ("journalistic", "clear, factual reporting style with engaging narrative flow");
   ("creative", "imaginative, experimental prose with unique voice and perspective")].

Definition length_instructions : list (string * string) :=
  [("shorter", "condense the content while maintaining all key points and narrative elements");
   ("similar", "maintain approximately the same length as the original");
   ("longer", "expand the content with additional detail, context, and descriptive elements")].

(** The keys are 0.0, 0.3, 0.5, 0.7 and 1.0. *)
Definition creativity_guidance : list (float * string) :=
  [(0%float, "Stay very close to the original structure and phrasing");
   (0x1.3333333333333p-2%float, "Make moderate changes while preserving the original tone");
   (0.5%float, "Balance creativity with faithfulness to the source");
   (0x1.6666666666666p-1%float, "Be creative with language and structure while preserving meaning");
   (1%float, "Transform creatively while maintaining the core narrative and facts")].

(** [d.get(k, k)] *)
Definition get_or_key (d : list (string * string)) (k : string) : string :=
  match list_find (fun kv => kv.1 = k) d with
  | Some (_, (_, v)) => v
  | None => k
  end.

(** [min(d.keys(), key=lambda x: abs(x - level))]: the first entry whose
    key is nearest; a later one replaces it only when strictly nearer. *)
Definition closest (level : float) (d : list (float * string))
    (first : float * string) : float * string :=
  foldl (fun best kv =>
           if PrimFloat.ltb (PrimFloat.abs (PrimFloat.sub kv.1 level))
                (PrimFloat.abs (PrimFloat.sub best.1 level))
           then kv else best)
    first d.

Definition _build_writing_prompt (task : WritingTask.t) : string :=
  let creativity :=
    closest (WritingTask.creativity_level task) (tail creativity_guidance)
      (0%float, "Stay very close to the original structure and phrasing") in
  String.concat (String "010" EmptyString)
    [ "";
      "You are an expert literary editor and writer tasked with transforming the following content. Your goal is to create a fresh, engaging version while preserving the core meaning and narrative.";
      "";
      "**TRANSFORMATION REQUIREMENTS:**";
      "- Style: " +:+ get_or_key style_instructions (WritingTask.target_style task);
      "- Length: " +:+ get_or_key length_instructions (WritingTask.target_length task);
      "- Creativity Level: " +:+ creativity.2;
      "- Preserve Meaning: "
        +:+ (if WritingTask.preserve_meaning task
             then "Absolutely maintain all factual content and narrative elements"
             else "Focus on creative expression over strict accuracy");
      "";
      "**GUIDELINES:**";
      "1. Maintain the narrative flow and character development";
      "2. Preserve all important plot points and factual information";
      "3. Use varied sentence structures and rich vocabulary";
      "4. Ensure the transformed content feels natural and engaging";
      "5. Keep the same general tone and mood as the original";
      "6. If dialogue exists, preserve character voices while improving flow";
      "7. Enhance descriptions and settings without changing the essence";
      "";
      "**ORIGINAL CONTENT TO TRANSFORM:**";
      "Title: " +:+ WritingTask.title task;
      "";
      WritingTask.source_content task;
      "";
      "**INSTRUCTIONS:**";
      "Transform this content according to the requirements above. Return only the transformed content without any meta-commentary or explanations. The output should be publication-ready prose.";
      "" ].

(** The loop of [_generate_with_retry]: [attempt] is the loop variable
    and [todo] the number of turns left.  The model is called once a
    turn; only an exception is followed by a sleep, of [2 ** attempt]
    seconds, and the exception of the last turn is raised again. *)
Fixpoint retry_loop (generate : generator) (prompt : string) (max_retries : Z)
    (attempt todo : nat) (eff : effects)
    : outcome (option response) * effects :=
  match todo with
  | O => (Ret None, eff)
  | S todo' =>
      let called := mk_effects (S (calls eff)) (slept eff) in
      match generate (calls eff) prompt with
      | Ret (Some r) =>
          if negb (String.eqb (text r) "") then (Ret (Some r), called)
          else retry_loop generate prompt max_retries (S attempt) todo' called
      | Ret None =>
          retry_loop generate prompt max_retries (S attempt) todo' called
      | Raise e =>
          if Z.of_nat attempt <? max_retries - 1 then
            retry_loop generate prompt max_retries (S attempt) todo'
              (mk_effects (S (calls eff)) (slept eff ++ [2 ^ Z.of_nat attempt]))
          else (Raise e, called)
      end
  end.

Definition _generate_with_retry (generate : generator) (prompt : string)
    (max_retries : Z) (eff : effects) : outcome (option response) * effects :=
  retry_loop generate prompt max_retries 0 (Z.to_nat max_retries) eff.

(** [now] is [datetime.now().isoformat()] at the end of the call. *)
Definition transform_content (generate : generator) (a : agent)
    (task : WritingTask.t) (now : string) (eff : effects)
    : result * agent * effects :=
  let prompt := _build_writing_prompt task in
  match _generate_with_retry generate prompt 3 eff with
  | (Ret (Some r), eff) =>
      let transformed_content := strip (text r) in
      let original_words :=
        Z.of_nat (length (split (WritingTask.source_content task))) in
      let transformed_words := Z.of_nat (length (split transformed_content)) in
      let res :=
        Transformed (WritingTask.task_id task) (WritingTask.title task)
          transformed_content original_words transformed_words
          (if original_words >? 0
           then Ratio (mk_truediv transformed_words original_words)
           else NoRatio)
          (WritingTask.target_style task) (WritingTask.target_length task)
          (WritingTask.creativity_level task)
          (WritingTask.preserve_meaning task) now (model_name a) in
      (res, mk_agent (model_name a) (writing_history a ++ [res]), eff)
  | (Ret None, eff) =>
      (Failed (WritingTask.task_id task) FailedAfterRetries now, a, eff)
  | (Raise e, eff) =>
      (Failed (WritingTask.task_id task) (StrOfException e) now, a, eff)
  end.

(** The loop of [_batch_process]; [now_at i] is the clock reading at the
    end of the i-th task and [last] tells the last turn. *)
Fixpoint batch_process (generate : generator) (a : agent)
    (tasks : list WritingTask.t) (now_at : nat -> string) (i : nat)
    (eff : effects) : list result * agent * effects :=
  match tasks with
  | [] => ([], a, eff)
  | task :: rest =>
      let '(res, a, eff) := transform_content generate a task (now_at i) eff in
      let eff :=
        match rest with
        | [] => eff
        | _ :: _ => mk_effects (calls eff) (slept eff ++ [1])
        end in
      let '(results, a, eff) := batch_process generate a rest now_at (S i) eff in
      (res :: results, a, eff)
  end.

(** [asyncio.run(_batch_process())], called where no event loop runs. *)
Definition batch_transform (generate : generator) (a : agent)
    (tasks : list WritingTask.t) (now_at : nat -> string) (eff : effects)
    : list result * agent * effects :=
  batch_process generate a tasks now_at 0 eff.

(** The dictionaries of [variation_configs], as the keyword arguments
    that the call of [WritingTask] unpacks. *)
Definition variation_configs : list (list (string * WritingTask.arg)) :=
  [ [("style", WritingTask.StrArg "literary");
     ("creativity_level", WritingTask.FloatArg 0.5%float);
     ("target_length", WritingTask.StrArg "similar")];
    [("style", WritingTask.StrArg "modern");
     ("creativity_level", WritingTask.FloatArg 0x1.6666666666666p-1%float);
     ("target_length", WritingTask.StrArg "shorter")];
    [("style", WritingTask.StrArg "classical");
     ("creativity_level", WritingTask.FloatArg 0x1.999999999999ap-2%float);
     ("target_length", WritingTask.StrArg "longer")];
    [("style", WritingTask.StrArg "creative");
     ("creativity_level", WritingTask.FloatArg 0x1.999999999999ap-1%float);
     ("target_length", WritingTask.StrArg "similar")];
    [("style", WritingTask.StrArg "journalistic");
     ("creativity_level", WritingTask.FloatArg 0x1.3333333333333p-2%float);
     ("target_length", WritingTask.StrArg "shorter")] ].

(** The loop that builds the tasks; [stamp_at i] is the clock reading of
    the i-th [__post_init__]. *)
Fixpoint variation_tasks (source_content title : string)
    (configs : list (list (string * WritingTask.arg))) (stamp_at : nat -> string)
    (i : nat) : outcome (list WritingTask.t) :=
  match configs with
  | [] => Ret []
  | config :: rest =>
      task ← WritingTask.init
               (("source_content", WritingTask.StrArg source_content)
                  :: ("title",
                      WritingTask.StrArg
                        (title +:+ " - Variation "
                           +:+ str_of_int (Z.of_nat i + 1)))
                  :: config)
               (stamp_at i);
      tasks ← variation_tasks source_content title rest stamp_at (S i);
      Ret (task :: tasks)
  end.

Definition create_writing_variations (generate : generator) (a : agent)
    (source_content title : string) (count : Z) (stamp_at now_at : nat -> string)
    (eff : effects) : outcome (list result * agent * effects) :=
  tasks ← variation_tasks source_content title
             (take (Z.to_nat (Z.min count (Z.of_nat (length variation_configs))))
                variation_configs)
             stamp_at 0;
  Ret (batch_transform generate a tasks now_at eff).

(** The sum of a list of integers. *)
Definition total (l : list Z) : Z := foldr Z.add 0 l.

(** What the retries starting at turn [attempt], with [todo] turns to
    go, may do: [out] is the result with the effects afterwards. *)
Definition retry_bounded (generate : generator) (prompt : string)
    (max_retries : Z) (attempt todo : nat) (eff : effects)
    (out : outcome (option response) * effects) : Prop :=
  (∃ new,
     slept out.2 = slept eff ++ new
     ∧ 0 <= total new
     ∧ total new + 2 ^ Z.of_nat attempt
       <= 2 ^ Z.max (Z.of_nat attempt) (max_retries - 1))
  ∧ (calls eff <= calls out.2 <= calls eff + todo)%nat
  ∧ match out.1 with
    | Ret (Some r) =>
        text r ≠ ""
        ∧ ∃ k, calls out.2 = S k ∧ generate k prompt = Ret (Some r)
    | Ret None =>
        calls out.2 = (calls eff + todo)%nat
        ∧ (todo = 0%nat
           ∨ ∃ k, calls out.2 = S k ∧ ∀ e, generate k prompt ≠ Raise e)
    | Raise e =>
        (0 < todo)%nat
        ∧ calls out.2 = (calls eff + todo)%nat
        ∧ ∃ k, calls out.2 = S k ∧ generate k prompt = Raise e
    end.

(** What a call of [transform_content] or [batch_transform] on [tasks]
    leaves behind: [out] is the results with the agent and the effects
    afterwards. *)
Definition batch_recorded (a : agent) (tasks : list WritingTask.t) (eff : effects)
    (out : list result * agent * effects) : Prop :=
  map result_task_id out.1.1 = map WritingTask.task_id tasks
  ∧ writing_history out.1.2
    = writing_history a ++ filter (fun r => is_transformed r = true) out.1.1
  ∧ model_name out.1.2 = model_name a
  ∧ (calls eff <= calls out.2 <= calls eff + 3 * length tasks)%nat
  ∧ (∃ new, slept out.2 = slept eff ++ new
            ∧ 0 <= total new <= 4 * Z.of_nat (length tasks))
  ∧ Forall (fun r =>
              match r with
              | Transformed _ _ content _ words _ _ _ _ _ _ _ =>
                  strip content = content
                  ∧ words = Z.of_nat (length (split content))
              | Failed _ _ _ => True
              end) out.1.1.

End AIWriterAgent.

Module WriterScenarios.
Import AIWriterAgent.

Definition margaret : WritingTask.t :=
  WritingTask.mk "The morning sun cast long shadows." "Margaret's Morning Journey"
    "literary" "longer" true 0x1.3333333333333p-1%float "task_20240501_100000".

(** A model that fails twice and then answers. *)
Definition flaky : generator :=
  fun n _ =>
    match n with
    | 0%nat => Raise BackendError
    | 1%nat => Raise BackendError
    | _ => Ret (Some (mk_response "  Long shadows fell as the sun rose.  "))
    end.

(** A model that raises at every call. *)
Definition down : generator := fun _ _ => Raise BackendError.

Definition writer : agent := mk_agent "gemini-pro" [].
Definition rested : effects := mk_effects 0 [].
End WriterScenarios.

(** * Properties *)

(** ** The stable sort *)

Module SortFacts.
Section Facts.
Context {A K : Type} (key : A -> K) (before : K -> K -> bool).

Local Abbreviation ins := (insert_sorted key before).
Local Abbreviation srt := (stable_sort key before).

(** Insertion passes the elements that must stay in front and stops at
    the first one that need not. *)
Lemma insert_sorted_split (x : A) (l : list A) :
  ∃ l1 l2,
    l = l1 ++ l2 ∧ ins x l = l1 ++ x :: l2
    ∧ Forall (fun y => before (key y) (key x) = true) l1
    ∧ match l2 with
      | [] => True
      | y :: _ => before (key y) (key x) = false
      end.
Proof.
  induction l as [|y l IH]; simpl.
  - exists [], []. by repeat split.
  - destruct (before (key y) (key x)) eqn:Hb.
    + destruct IH as (l1 & l2 & -> & -> & Hall & Hhd).
      exists (y :: l1), l2. repeat split; auto.
    + exists [], (y :: l). by repeat split.
Qed.

Lemma insert_sorted_perm (x : A) (l : list A) : ins x l ≡ₚ x :: l.
Proof.
  destruct (insert_sorted_split x l) as (l1 & l2 & -> & -> & _).
  by rewrite Permutation_middle.
Qed.

Lemma stable_sort_perm (l : list A) : srt l ≡ₚ l.
Proof.
  induction l as [|x l IH]; simpl; [done|].
  by rewrite insert_sorted_perm, IH.
Qed.

Lemma stable_sort_elem (x : A) (l : list A) : x ∈ srt l ↔ x ∈ l.
Proof. by rewrite stable_sort_perm. Qed.

(** The result is ordered by every transitive relation that agrees
    with the comparison on the elements of the list. *)
Lemma stable_sort_sorted (R : relation A) (l : list A) :
  Transitive R ->
  (∀ x y, x ∈ l -> y ∈ l -> before (key y) (key x) = true -> R y x) ->
  (∀ x y, x ∈ l -> y ∈ l -> before (key y) (key x) = false -> R x y) ->
  StronglySorted R (srt l).
Proof.
  intros HR. induction l as [|x l IH]; intros Hlt Hge; simpl.
  { constructor. }
  assert (StronglySorted R (srt l)) as Hs.
  { apply IH; intros ? ? ? ?; [apply Hlt|apply Hge]; by constructor. }
  destruct (insert_sorted_split x (srt l)) as (l1 & l2 & E & -> & Hall & Hhd).
  assert (∀ y, y ∈ l1 ++ l2 -> y ∈ x :: l) as Hin.
  { intros y. rewrite <-E, stable_sort_elem. by right. }
  rewrite E in Hs. apply StronglySorted_app in Hs as (H12 & Hs1 & Hs2).
  rewrite Forall_forall in Hall.
  apply StronglySorted_app_2; [|done|].
  - intros y z Hy [->|Hz]%elem_of_cons; [|by apply H12].
    apply Hlt; [by left | | by apply Hall].
    apply Hin, elem_of_app. by left.
  - apply StronglySorted_cons. split; [|done].
    destruct l2 as [|y l2]; [constructor|].
    assert (R x y) as Hxy.
    { apply Hge; [by left | | done]. apply Hin, elem_of_app. right. by left. }
    constructor; [done|].
    apply StronglySorted_cons in Hs2 as [Hy _].
    eapply Forall_impl; [exact Hy|]. intros z Hz. by trans y.
Qed.

End Facts.
End SortFacts.

(** ** Strings *)

Module StringFacts.
Lemma length_append (a b : string) :
  String.length (a +:+ b) = (String.length a + String.length b)%nat.
Proof. induction a as [|x a IH]; simpl; [done|]. by rewrite IH. Qed.

End StringFacts.

(** ** hashlib *)

Module HashlibFacts.
(** The digests of the empty string, of "abc" and of a message of two
    blocks, as [hashlib] prints them. *)
Example sha256_empty :
  Hashlib.sha256_hexdigest ""
  = "e3b0c44298fc1c149afbf4c8996fb92427ae41e4649b934ca495991b7852b855".
Proof. by vm_compute. Qed.

Example sha256_abc :
  Hashlib.sha256_hexdigest "abc"
  = "ba7816bf8f01cfea414140de5dae2223b00361a396177a9cb410ff61f20015ad".
Proof. by vm_compute. Qed.

Example sha256_two_blocks :
  Hashlib.sha256_hexdigest
    "aaaaaaaaaaaaaaaaaaaaaaaaaaaaaaaaaaaaaaaaaaaaaaaaaaaaaaaaaaaaaaaa"
  = "ffe054fe7ae0cb6dc65c3af9b61d5209f439851db43d0ba5997337df154668eb".
Proof. by vm_compute. Qed.
End HashlibFacts.

(** ** The collections *)

Module ChromaFacts.
Section Facts.
Context {D : Type}.
Implicit Types (c : collection D) (r : record D).

Lemma has_id_true c i : has_id c i = true ↔ i ∈ ids c.
Proof.
  unfold has_id. rewrite existsb_exists. split.
  - intros (j & Hj & ->%String.eqb_eq). by apply list_elem_of_In.
  - intros Hi. exists i. split; [by apply list_elem_of_In|apply String.eqb_refl].
Qed.

Lemma has_id_false c i : has_id c i = false ↔ i ∉ ids c.
Proof. rewrite <-has_id_true. by destruct (has_id c i). Qed.


(** Whatever the release does under a present id, [add] keeps the old
    records in place and the ids distinct. *)
Lemma add_cases p c r c' :
  add p c r = Ret c' ->
  (c' = c ++ [r] ∧ rec_id r ∉ ids c) ∨ (c' = c ∧ rec_id r ∈ ids c).
Proof.
  unfold add. destruct (has_id c (rec_id r)) eqn:Hid.
  - apply has_id_true in Hid. destruct p; [done|]. intros [= <-]. by right.
  - apply has_id_false in Hid. intros [= <-]. by left.
Qed.

Lemma add_NoDup p c r c' :
  NoDup (ids c) -> add p c r = Ret c' -> NoDup (ids c').
Proof.
  intros Hc [[-> Hr]|[-> _]]%add_cases; [|done].
  unfold ids. rewrite map_app. apply NoDup_app. split_and!; [done| |].
  - intros i Hi [->|[]%elem_of_nil]%elem_of_cons. done.
  - apply NoDup_singleton.
Qed.

Lemma elem_of_get c w r :
  r ∈ get c w ↔ matches w (rec_metadata r) = true ∧ r ∈ c.
Proof. unfold get. by rewrite list_elem_of_filter. Qed.

Lemma delete_NoDup c targets : NoDup (ids c) -> NoDup (ids (delete c targets)).
Proof.
  unfold delete, ids. induction c as [|r c IH]; simpl; [done|].
  rewrite NoDup_cons. intros [Hr Hc]. rewrite filter_cons.
  case_decide; simpl; [|by apply IH].
  apply NoDup_cons. split; [|by apply IH].
  intros (r' & Heq & [_ Hr']%list_elem_of_filter)%list_elem_of_fmap.
  apply Hr. rewrite Heq. apply list_elem_of_fmap. by exists r'.
Qed.
End Facts.

Lemma matches_chapter (c : string) (md : metadata) :
  matches [("chapter_id", MStr c)] md = true ↔ md !! "chapter_id" = Some (MStr c).
Proof.
  unfold matches. simpl. rewrite andb_true_r. apply bool_decide_eq_true.
Qed.

Lemma matches_chapter_version (c : string) (v : Z) (md : metadata) :
  matches [("chapter_id", MStr c); ("version", MInt v)] md = true
  ↔ md !! "chapter_id" = Some (MStr c) ∧ md !! "version" = Some (MInt v).
Proof.
  unfold matches. simpl.
  rewrite andb_true_r, andb_true_iff, !bool_decide_eq_true. done.
Qed.
End ChromaFacts.

(** ** The content store *)

Module StoreFacts.
Import ChromaContentManager ChromaFacts.

Lemma base_metadata_lookup content c v now :
  base_metadata content c v now !! "chapter_id" = Some (MStr c)
  ∧ base_metadata content c v now !! "version" = Some (MInt v)
  ∧ base_metadata content c v now !! "content_hash"
    = Some (MStr (Hashlib.sha256_hexdigest content)).
Proof. unfold base_metadata, _generate_content_hash. by simplify_map_eq. Qed.

(** A key the caller's metadata does not carry keeps its base value. *)
Lemma store_metadata_lookup content c v md now (k : string) :
  extra md !! k = None ->
  store_metadata content c v md now !! k = base_metadata content c v now !! k.
Proof.
  unfold store_metadata, extra. destruct md as [e|]; simpl; [|done].
  intros He. case_bool_decide; [done|].
  by rewrite lookup_union_r.
Qed.

(** A key of the caller's metadata overrides the base value. *)
Lemma store_metadata_lookup_extra content c v md now (k : string) (x : mval) :
  extra md !! k = Some x ->
  store_metadata content c v md now !! k = Some x.
Proof.
  unfold store_metadata, extra. destruct md as [e|]; simpl; [|done].
  intros He. case_bool_decide as Hempty.
  - by rewrite Hempty, lookup_empty in He.
  - by apply lookup_union_Some_l.
Qed.

Section Facts.
Variable on_existing : dup_policy.

Local Abbreviation store_content := (store_content on_existing).


Lemma store_content_inv m content c v md env id m' :
  store_content m content c v md env = Ret (id, m') ->
  id = doc_id_of c v (uuid8 env)
  ∧ ((∃ vc, add on_existing (versions_collection m)
              (mk_record (version_id_of c v)
                 (mk_version_data c v id (Hashlib.sha256_hexdigest content)
                    (now_tracked env))
                 (<["type" := MStr "version_info"]>
                    (<["chapter_id" := MStr c]> ∅))) = Ret vc
            ∧ versions_collection m' = vc)
     ∨ versions_collection m' = versions_collection m)
  ∧ add on_existing (content_collection m)
      (mk_record id content (store_metadata content c v md (now_stored env)))
    = Ret (content_collection m').
Proof.
  unfold ChromaContentManager.store_content.
  destruct (add on_existing (content_collection m) _) as [cc|] eqn:Hadd;
    simpl; [|done].
  intros [= <- <-]. split; [done|]. split.
  - unfold _update_version_tracking, _generate_content_hash. simpl.
    destruct (add on_existing (versions_collection m) _) eqn:Hv; simpl;
      [left; eauto | by right].
  - rewrite Hadd. f_equal.
    unfold _update_version_tracking. simpl.
    by destruct (add on_existing (versions_collection m) _).
Qed.


(** *** Reachable states *)

Lemma store_inv_empty : store_inv empty.
Proof. repeat split; constructor. Qed.

Lemma store_inv_step m m' :
  store_inv m -> step on_existing m m' -> store_inv m'.
Proof.
  intros (Hc & Hv & Ht) Hstep. destruct Hstep as [m ? c v ? env id m' Hs|m c v].
  - apply store_content_inv in Hs as (-> & Hvc & Hcc).
    split; [by eapply add_NoDup|].
    destruct Hvc as [(vc & Hadd & ->)| ->]; [|done].
    split; [by eapply add_NoDup|].
    apply add_cases in Hadd as [[-> _]|[-> _]]; [|done].
    apply Forall_app. split; [done|]. by repeat constructor.
  - unfold delete_content.
    destruct (ids (get (content_collection m) _)); simpl; [done|].
    split; [|done]. by apply delete_NoDup.
Qed.

Lemma store_inv_reachable m : reachable on_existing m -> store_inv m.
Proof.
  intros Hm.
  apply (rtc_ind_r (R:=step on_existing) store_inv empty); [|clear|exact Hm].
  - apply store_inv_empty.
  - intros m1 m2 _ Hstep IH. by eapply store_inv_step.
Qed.

(** C2 (amended): in every state reached by [store_content] and
    [delete_content] the document ids of the content collection are
    pairwise distinct, and the version-tracking collection holds at
    most one record for a pair (chapter_id, version).  The content
    collection itself may hold several snapshots of one pair. *)
Theorem reachable_ids_unique m :
  reachable on_existing m ->
  NoDup (ids (content_collection m))
  ∧ ∀ i j r1 r2,
      versions_collection m !! i = Some r1 ->
      versions_collection m !! j = Some r2 ->
      vd_chapter_id (rec_document r1) = vd_chapter_id (rec_document r2) ->
      vd_version (rec_document r1) = vd_version (rec_document r2) ->
      i = j.
Proof.
  intros (Hc & Hv & Ht)%store_inv_reachable. split; [done|].
  intros i j r1 r2 H1 H2 Hch Hver.
  rewrite Forall_forall in Ht.
  assert (rec_id r1 = rec_id r2) as Hid.
  { rewrite (Ht r1), (Ht r2) by (by eapply list_elem_of_lookup_2).
    by rewrite Hch, Hver. }
  eapply NoDup_lookup; [exact Hv| |]; unfold ids; rewrite list_lookup_fmap.
  - by rewrite H1.
  - rewrite H2. simpl. by rewrite Hid.
Qed.

(** Integer versions are kept by every call whose metadata leave
    ["version"] alone or set it to an [int], and by every deletion. *)
Lemma store_content_int_versions m content c v md env id m' :
  Forall (fun r => ∃ n, version_is n r) (content_collection m) ->
  extra md !! "version" = None ∨ (∃ n, extra md !! "version" = Some (MInt n)) ->
  store_content m content c v md env = Ret (id, m') ->
  Forall (fun r => ∃ n, version_is n r) (content_collection m').
Proof.
  intros Hm Hmd (-> & _ & Hadd)%store_content_inv.
  apply add_cases in Hadd as [[-> _]|[-> _]]; [|done].
  apply Forall_app. split; [done|]. repeat constructor.
  unfold version_is. simpl. destruct Hmd as [Hnone|[n Hn]].
  - exists v. rewrite store_metadata_lookup by done. apply base_metadata_lookup.
  - exists n. by apply store_metadata_lookup_extra.
Qed.

Lemma delete_content_int_versions m c version :
  Forall (fun r => ∃ n, version_is n r) (content_collection m) ->
  Forall (fun r => ∃ n, version_is n r)
    (content_collection (delete_content m c version).2).
Proof.
  intros Hm. unfold delete_content.
  destruct (ids (get (content_collection m) _)); simpl; [done|].
  rewrite Forall_forall in Hm |- *. unfold delete.
  intros r [_ Hr]%list_elem_of_filter. by apply Hm.
Qed.
End Facts.

Import Scenarios.



(** *** [retrieve_content] *)

Lemma elem_of_get_chapter m c r :
  r ∈ get (content_collection m) [("chapter_id", MStr c)]
  ↔ r ∈ content_collection m ∧ chapter_is c r.
Proof. rewrite elem_of_get, matches_chapter. unfold chapter_is. tauto. Qed.

Lemma elem_of_get_version m c v r :
  r ∈ get (content_collection m) [("chapter_id", MStr c); ("version", MInt v)]
  ↔ r ∈ content_collection m ∧ chapter_is c r ∧ version_is v r.
Proof.
  rewrite elem_of_get, matches_chapter_version.
  unfold chapter_is, version_is. tauto.
Qed.

Lemma version_is_number v r : version_is v r -> version_number r = v.
Proof. unfold version_is, version_number, version_key. by intros ->. Qed.









(** *** Deciding the hypotheses on a given store *)


Lemma no_chapter_get m c :
  get (content_collection m) [("chapter_id", MStr c)] = [] -> ¬ has_chapter m c.
Proof.
  intros Hget (r & Hr). apply elem_of_get_chapter in Hr.
  rewrite Hget in Hr. by apply elem_of_nil in Hr.
Qed.


Lemma int_versions_get m c :
  forallb (fun r => is_int (version_key r))
    (get (content_collection m) [("chapter_id", MStr c)]) = true ->
  (∀ r, r ∈ get (content_collection m) [("chapter_id", MStr c)] ->
        is_Some (rec_metadata r !! "version")) ->
  int_versions m c.
Proof.
  intros Hall Hsome r Hr Hc.
  assert (r ∈ get (content_collection m) [("chapter_id", MStr c)]) as Hin
    by (by apply elem_of_get_chapter).
  rewrite forallb_forall in Hall.
  specialize (Hall r (proj1 (list_elem_of_In _ _) Hin)).
  destruct (Hsome r Hin) as [x Hx].
  unfold version_key in Hall. rewrite Hx in Hall. simpl in Hall.
  destruct x as [|v]; [done|]. by exists v.
Qed.

Ltac decide_int_versions :=
  apply int_versions_get; [by vm_compute|];
  let r := fresh "r" in
  let Hr := fresh "Hr" in
  intros r Hr; vm_compute in Hr;
  repeat (apply elem_of_cons in Hr as [->|Hr]); [vm_compute; by eexists..|];
  by apply elem_of_nil in Hr.


Import Scenarios.

(** The calls of the scenarios return. *)
Lemma scenario_calls :
  ChromaContentManager.store_content RaiseOnExisting empty first_draft
    "chapter_1" 1 None env1 = Ret ("chapter_1_v1_3f2a9c1e", stored_once)
  ∧ ChromaContentManager.store_content RaiseOnExisting stored_once second_draft
      "chapter_1" 1 None env2 = Ret ("chapter_1_v1_b07d44a2", stored_twice)
  ∧ ChromaContentManager.store_content RaiseOnExisting stored_once first_draft
      "chapter_1" 2 None env2 = Ret ("chapter_1_v2_b07d44a2", stored_again).
Proof. by vm_compute. Qed.

Lemma stored_twice_reachable : reachable RaiseOnExisting stored_twice.
Proof.
  destruct scenario_calls as (H1 & H2 & _).
  eapply rtc_l; [by eapply step_store|].
  eapply rtc_l; [by eapply step_store|]. done.
Qed.

Lemma reachable_ids_unique_witness :
  NoDup (ids (content_collection stored_twice))
  ∧ ∀ i j r1 r2,
      versions_collection stored_twice !! i = Some r1 ->
      versions_collection stored_twice !! j = Some r2 ->
      vd_chapter_id (rec_document r1) = vd_chapter_id (rec_document r2) ->
      vd_version (rec_document r1) = vd_version (rec_document r2) ->
      i = j.
Proof.
  apply (reachable_ids_unique RaiseOnExisting stored_twice).
  apply stored_twice_reachable.
Defined.

(** C2 fails as stated: after two calls with the same [chapter_id] and
    [version] the content collection holds two snapshots, under two
    document ids, that share the pair ("chapter_1", 1). *)
Lemma same_pair_stored_twice :
  reachable RaiseOnExisting stored_twice
  ∧ ids (content_collection stored_twice)
    = ["chapter_1_v1_3f2a9c1e"; "chapter_1_v1_b07d44a2"]
  ∧ map (fun r => (rec_metadata r !! "chapter_id", rec_metadata r !! "version"))
      (content_collection stored_twice)
    = [(Some (MStr "chapter_1"), Some (MInt 1));
       (Some (MStr "chapter_1"), Some (MInt 1))]
  ∧ map rec_document (content_collection stored_twice)
    = [first_draft; second_draft].
Proof. split; [apply stored_twice_reachable|by vm_compute]. Qed.





(** *** Storing the same content twice *)


Section Twice.
Variable on_existing : dup_policy.
Local Abbreviation store_content := (store_content on_existing).

End Twice.


End StoreFacts.

(** ** The similarity search *)

Module SearchFacts.
Import ChromaContentManager.

Lemma zip3_lookup {A B C} (a : list A) (b : list B) (c : list C) (i : nat) :
  zip3 a b c !! i
  = x ← a !! i; y ← b !! i; z ← c !! i; Some (x, y, z).
Proof.
  revert b c i. induction a as [|x a IH]; intros b c i; [done|].
  destruct b as [|y b]; [simpl; by destruct ((x :: a) !! i)|].
  destruct c as [|z c].
  { simpl. destruct ((x :: a) !! i); simpl; [|done].
    by destruct ((y :: b) !! i). }
  destruct i as [|i]; simpl; [done|]. apply IH.
Qed.

Lemma ranked_lookup (k : Z) (hits : list (string * metadata * float)) (i : nat) :
  ranked k hits !! i
  = (fun hit : string * metadata * float =>
       mk_similar hit.1.1 hit.1.2 (1 - hit.2)%float (k + Z.of_nat i + 1))
    <$> hits !! i.
Proof.
  revert k i. induction hits as [|[[doc md] d] hits IH]; intros k [|i]; simpl;
    try done.
  - do 2 f_equal. lia.
  - rewrite IH. destruct (hits !! i); simpl; [|done]. do 2 f_equal. lia.
Qed.

Section Facts.
Variable query : collection string -> string -> Z -> outcome query_result.

(** C8 (amended): when the backend answers a query, the i-th result
    carries the backend's i-th document and metadata, the score
    [1 - distance] as binary64 subtraction leaves it, with no clamping
    to [0,1], and rank i+1; the results stay in the backend's order
    (nearest first) and stop with the shortest of the three lists. *)
Theorem search_similar_content_scores m q n docs mds dists dr mr sr :
  query (content_collection m) q n
    = Ret (mk_query_result (docs :: dr) (mds :: mr) (dists :: sr)) ->
  ∀ i : nat,
    search_similar_content query m q n !! i
    = doc ← docs !! i; md ← mds !! i; distance ← dists !! i;
      Some (mk_similar doc md (1 - distance)%float (Z.of_nat i + 1)).
Proof.
  intros Hq i. unfold search_similar_content. rewrite Hq. simpl.
  rewrite ranked_lookup, zip3_lookup.
  destruct (docs !! i); simpl; [|done].
  destruct (mds !! i); simpl; [|done].
  by destruct (dists !! i).
Qed.
End Facts.

Import Scenarios.

Lemma search_similar_content_scores_witness :
  search_similar_content (answering two_hits) stored_once "ancient gates" 5
    !! 1%nat
  = Some (mk_similar "far" ∅ (1 - 2)%float 2).
Proof.
  apply (search_similar_content_scores (answering two_hits) stored_once
           "ancient gates" 5 ["near"; "far"] [∅; ∅] [0.25%float; 2%float]
           [] [] [] eq_refl 1%nat).
Defined.

(** C8 fails as stated: for a hit at distance 2 the score is -1, below
    the interval [0,1]; nothing clamps it. *)
Lemma similarity_score_below_zero :
  map similarity_score
    (search_similar_content (answering two_hits) stored_once "ancient gates" 5)
  = [0.75%float; (-1)%float]
  ∧ PrimFloat.ltb (-1) 0 = true.
Proof. by vm_compute. Qed.
End SearchFacts.

(** ** The review ledger *)

Module ReviewFacts.
Import HumanLoopInterface.

#[local] Instance passes_dec rt pmin r : Decision (passes rt pmin r).
Proof. unfold passes. apply _. Defined.

(** *** [get_pending_reviews] *)

Lemma filtered_reviews_filter rt pmin (l : list ReviewRequest.t) :
  filtered_reviews rt pmin l = filter (passes rt pmin) l.
Proof.
  induction l as [|r l IH]; simpl; [done|].
  rewrite filter_cons, IH.
  destruct (decide (passes rt pmin r)) as [(Hs & Ho & Hp)|Hn].
  - rewrite (proj2 (String.eqb_eq _ _) Hs), Ho. simpl.
    by rewrite (proj2 (Z.ltb_ge _ _) Hp).
  - destruct (String.eqb_spec (ReviewRequest.status r) "pending") as [Hs|Hs];
      simpl; [|done].
    destruct (other_type rt r) eqn:Ho; [done|].
    destruct (Z.ltb_spec (ReviewRequest.priority r) pmin) as [Hp|Hp]; [done|].
    by destruct Hn.
Qed.






(** The clock order is what [submit_for_review] keeps when the clock has
    not gone back. *)
Lemma submit_for_review_clock_order st content original fb kind priority stamp now :
  in_clock_order (pending_reviews st) ->
  Forall (fun r => str_lt now (ReviewRequest.created_at r) = false)
    (pending_reviews st) ->
  in_clock_order
    (pending_reviews
       (submit_for_review st content original fb kind priority stamp now).2).
Proof.
  intros Hs Hnow. unfold in_clock_order. simpl.
  apply StronglySorted_app_2; [|done|by repeat constructor].
  intros x y Hx ->%list_elem_of_singleton. simpl.
  rewrite Forall_forall in Hnow. by apply Hnow.
Qed.

Lemma complete_first_created_at rid (l : list ReviewRequest.t) :
  ReviewRequest.created_at <$> complete_first rid l = ReviewRequest.created_at <$> l.
Proof.
  induction l as [|r l IH]; [done|]. cbn [complete_first].
  destruct (String.eqb (ReviewRequest.request_id r) rid); [done|].
  by rewrite !fmap_cons, IH.
Qed.

Lemma in_clock_order_stamps (l : list ReviewRequest.t) :
  in_clock_order l
  ↔ StronglySorted (fun a b => str_lt b a = false) (ReviewRequest.created_at <$> l).
Proof.
  unfold in_clock_order. induction l as [|r l IH]; simpl.
  - split; constructor.
  - rewrite !StronglySorted_cons, IH, Forall_fmap. done.
Qed.

(** Completing a request changes no time stamp. *)
Lemma collect_human_feedback_clock_order st rid reviewer console now res st' rest :
  in_clock_order (pending_reviews st) ->
  collect_human_feedback st rid reviewer console now = Ret (res, st', rest) ->
  in_clock_order (pending_reviews st').
Proof.
  intros Hs. unfold collect_human_feedback.
  destruct (_find_request_by_id st rid) as [r|]; [|by intros [= _ <- _]].
  destruct (display_review_interface st rid); simpl; [|by intros [= _ <- _]].
  destruct (read_action console) as [[action c1]|]; simpl; [|done].
  destruct (input c1) as [[f c2]|]; simpl; [|done].
  destruct (input c2) as [[g c3]|]; simpl; [|done].
  destruct (read_rating c3) as [[k c4]|]; simpl; [|done].
  intros [= _ <- _]. simpl.
  apply in_clock_order_stamps. rewrite complete_first_created_at.
  by apply in_clock_order_stamps.
Qed.

Lemma session_clock_order st :
  rtc session_step empty st -> in_clock_order (pending_reviews st).
Proof.
  intros Hst.
  apply (rtc_ind_r (R:=session_step)
           (fun st => in_clock_order (pending_reviews st)) empty);
    [constructor|clear|exact Hst].
  intros st1 st2 _ Hstep IH. destruct Hstep.
  - by apply submit_for_review_clock_order.
  - by eapply collect_human_feedback_clock_order.
Qed.

Import ReviewScenarios.



(** The example of the specification: priorities 2, 5, 5, 1 come back as
    the first 5, the second 5, the 2 and the 1. *)
Example get_pending_reviews_2551 :
  map (fun r => (ReviewRequest.request_id r, ReviewRequest.priority r))
    (get_pending_reviews four_pending None 1)
  = [("reviewer_20240501_100001_1", 5); ("reviewer_20240501_100002_2", 5);
     ("reviewer_20240501_100000_0", 2); ("reviewer_20240501_100003_3", 1)].
Proof. by vm_compute. Qed.

(** *** [collect_human_feedback] *)

Lemma find_request_display st rid r :
  _find_request_by_id st rid = Some r -> display_review_interface st rid = true.
Proof. unfold display_review_interface. by intros ->. Qed.

Lemma stored_feedback_app completed fb rid old :
  stored_feedback completed rid = Some old ->
  stored_feedback (completed ++ [fb]) rid = Some old.
Proof.
  unfold stored_feedback. induction completed as [|x l IH]; simpl; [done|].
  by destruct (String.eqb (HumanFeedback.request_id x) rid).
Qed.

(** On a request that is found, the call either runs out of console
    lines or appends one feedback and returns it. *)
Lemma collect_human_feedback_found st rid reviewer console now r :
  _find_request_by_id st rid = Some r ->
  match collect_human_feedback st rid reviewer console now with
  | Ret (res, st', _) =>
      ∃ fb,
        res = Some fb ∧ HumanFeedback.request_id fb = rid
        ∧ completed_reviews st' = completed_reviews st ++ [fb]
        ∧ pending_reviews st' = complete_first rid (pending_reviews st)
  | Raise e => e = EOFError
  end.
Proof.
  intros Hfind. unfold collect_human_feedback.
  rewrite Hfind, (find_request_display st rid r Hfind). simpl.
  assert (∀ c, match read_action c with
               | Ret _ => True | Raise e => e = EOFError end) as Haction.
  { induction c as [|l c IH]; simpl; [done|].
    by destruct (valid_action (lower (strip l))). }
  assert (∀ c, match read_rating c with
               | Ret _ => True | Raise e => e = EOFError end) as Hrating.
  { induction c as [|l c IH]; simpl; [done|].
    destruct (int (strip l)) as [k|]; [|done].
    by destruct ((1 <=? k) && (k <=? 10)). }
  specialize (Haction console).
  destruct (read_action console) as [[action c1]|]; simpl; [|done].
  destruct c1 as [|feedback c2]; simpl; [done|].
  destruct c2 as [|changes c3]; simpl; [done|].
  specialize (Hrating c3).
  destruct (read_rating c3) as [[rating c4]|]; simpl; [|done].
  eexists. by split_and!.
Qed.

(** C6 (amended): submitting feedback again for a request that is
    already ['completed'] does not fail.  Typed a valid action, two lines
    of text and a valid rating, [collect_human_feedback] returns a new
    feedback and appends it to [completed_reviews]; with fewer lines the
    only error is the end of the console input.  The feedback stored
    before stays in place, and stays the one [get_review_summary] shows. *)
Theorem collect_human_feedback_completed st rid reviewer now r
    (a f s k : string) (n : Z) (console : list string) :
  _find_request_by_id st rid = Some r ->
  ReviewRequest.status r = "completed" ->
  valid_action (lower (strip a)) = true ->
  int (strip k) = Ret n -> 1 <= n <= 10 ->
  collect_human_feedback st rid reviewer [a; f; s; k] now
  = Ret (Some (HumanFeedback.mk rid reviewer (lower (strip a)) (strip f)
                 (strip s) n now),
         mk_interface (complete_first rid (pending_reviews st))
           (completed_reviews st
              ++ [HumanFeedback.mk rid reviewer (lower (strip a)) (strip f)
                    (strip s) n now])
           (feedback_callbacks st),
         [])
  ∧ match collect_human_feedback st rid reviewer console now with
    | Ret (res, st', _) =>
        (∃ fb, res = Some fb
               ∧ completed_reviews st' = completed_reviews st ++ [fb])
        ∧ ∀ old, get_review_summary st rid = Some old ->
                 get_review_summary st' rid = Some old
    | Raise e => e = EOFError
    end.
Proof.
  intros Hfind _ Ha Hk Hn. split.
  - unfold collect_human_feedback.
    rewrite Hfind, (find_request_display st rid r Hfind). simpl.
    rewrite Ha. simpl. rewrite Hk.
    assert ((1 <=? n) && (n <=? 10) = true) as ->; [|done].
    apply andb_true_iff. split; apply Z.leb_le; lia.
  - pose proof (collect_human_feedback_found st rid reviewer console now r Hfind)
      as Hcall.
    destruct (collect_human_feedback st rid reviewer console now)
      as [[[res st'] rest]|e]; [|done].
    destruct Hcall as (fb & -> & _ & Hcompleted & _).
    split; [by exists fb|].
    intros old Hold. unfold get_review_summary. rewrite Hcompleted.
    by apply stored_feedback_app.
Qed.

Lemma collect_human_feedback_completed_witness :
  collect_human_feedback reviewed second_request "bob"
    ["Reject"; "too long"; "cut the prologue"; " 3 "]
    "2024-05-01T10:07:00.250000"
  = Ret (Some (HumanFeedback.mk second_request "bob"
                 (lower (strip "Reject")) (strip "too long")
                 (strip "cut the prologue") 3 "2024-05-01T10:07:00.250000"),
         mk_interface (complete_first second_request (pending_reviews reviewed))
           (completed_reviews reviewed
              ++ [HumanFeedback.mk second_request "bob"
                    (lower (strip "Reject")) (strip "too long")
                    (strip "cut the prologue") 3 "2024-05-01T10:07:00.250000"])
           (feedback_callbacks reviewed),
         [])
  ∧ match collect_human_feedback reviewed second_request "bob" ["reject"]
            "2024-05-01T10:07:00.250000" with
    | Ret (res, st', _) =>
        (∃ fb, res = Some fb
               ∧ completed_reviews st' = completed_reviews reviewed ++ [fb])
        ∧ ∀ old, get_review_summary reviewed second_request = Some old ->
                 get_review_summary st' second_request = Some old
    | Raise e => e = EOFError
    end.
Proof.
  apply (collect_human_feedback_completed reviewed second_request "bob"
           "2024-05-01T10:07:00.250000"
           (ReviewRequest.with_status
              (ReviewRequest.mk second_request "draft" "source" ∅ "reviewer" 5
                 "2024-05-01T10:00:01.120000" "pending") "completed")
           "Reject" "too long" "cut the prologue" " 3 " 3 ["reject"]);
    [by vm_compute..|lia].
Defined.

(** C6 fails as stated: the second request is ['completed'] with the
    feedback of alice, and the feedback that bob submits for it is
    accepted and stored after hers; no error is raised. *)
Lemma resubmission_accepted :
  ReviewRequest.status <$> _find_request_by_id reviewed second_request
    = Some "completed"
  ∧ completed_reviews reviewed = [alice_feedback]
  ∧ ∃ fb st',
      collect_human_feedback reviewed second_request "bob"
        ["Reject"; "too long"; "cut the prologue"; " 3 "]
        "2024-05-01T10:07:00.250000" = Ret (Some fb, st', [])
      ∧ HumanFeedback.reviewer_id fb = "bob"
      ∧ HumanFeedback.action fb = "reject"
      ∧ completed_reviews st' = [alice_feedback; fb].
Proof.
  split_and!; [by vm_compute..|]. eexists _, _. split_and!; by vm_compute.
Qed.

(** *** [wait_for_feedback] *)




End ReviewFacts.

(** ** Deleting and retrieving *)

Module DeleteFacts.
Import ChromaContentManager ChromaFacts StoreFacts ContentReports.

(** In a collection of distinct ids a record is known by its id. *)
Lemma NoDup_ids_eq {D} (c : collection D) (r r' : record D) :
  NoDup (ids c) -> r ∈ c -> r' ∈ c -> rec_id r = rec_id r' -> r = r'.
Proof.
  intros Hnd [i Hi]%list_elem_of_lookup [j Hj]%list_elem_of_lookup Hid.
  assert (i = j) as ->.
  { eapply NoDup_lookup; [exact Hnd| |]; unfold ids; rewrite list_lookup_fmap.
    - by rewrite Hi.
    - rewrite Hj. simpl. by rewrite Hid. }
  congruence.
Qed.


Lemma elem_of_get_targeted m c version r :
  r ∈ get (content_collection m) (where_clause c version)
  ↔ r ∈ content_collection m ∧ targeted c version r.
Proof.
  unfold where_clause, targeted. destruct (truthy version) as [v|].
  - rewrite elem_of_get_version. tauto.
  - rewrite elem_of_get_chapter. tauto.
Qed.

Lemma delete_content_unfold m c version :
  delete_content m c version
  = match ids (get (content_collection m) (where_clause c version)) with
    | [] => (false, m)
    | targets =>
        (true, mk_manager (delete (content_collection m) targets)
                 (versions_collection m) (metadata_collection m))
    end.
Proof. done. Qed.



(** [retrieve_content] reads the store through two queries only. *)
Lemma retrieve_content_ext m1 m2 c :
  (∀ w, get (content_collection m1) (("chapter_id", MStr c) :: w)
        = get (content_collection m2) (("chapter_id", MStr c) :: w)) ->
  ∀ version, retrieve_content m1 c version = retrieve_content m2 c version.
Proof.
  intros Hget version. unfold retrieve_content.
  destruct (truthy version); by rewrite Hget.
Qed.


Lemma get_filter_sub {D} (c : collection D) (P : record D -> Prop)
    `{!∀ r, Decision (P r)} w :
  (∀ r, r ∈ c -> matches w (rec_metadata r) = true -> P r) ->
  get (filter P c) w = get c w.
Proof.
  intros HP. unfold get. induction c as [|r c IH]; [done|].
  rewrite !filter_cons.
  assert (∀ r, r ∈ c -> matches w (rec_metadata r) = true -> P r) as HP'
    by (intros ? ?; apply HP; by right).
  destruct (decide (P r)) as [Hr|Hr].
  - rewrite filter_cons, IH by done. done.
  - rewrite IH by done. case_decide as Hm; [|done].
    destruct Hr. apply HP; [by left|done].
Qed.

(** X3: [delete_content] for one chapter changes no answer of
    [retrieve_content] for another chapter. *)
Theorem delete_content_other_chapter m c version c' :
  NoDup (ids (content_collection m)) -> c' ≠ c ->
  ∀ other,
    retrieve_content (delete_content m c version).2 c' other
    = retrieve_content m c' other.
Proof.
  intros Hnd Hne. apply retrieve_content_ext. intros w.
  rewrite delete_content_unfold.
  destruct (ids (get (content_collection m) (where_clause c version)))
    as [|t ts] eqn:Hids; [done|].
  cbn [snd content_collection]. rewrite <-Hids. unfold delete.
  apply get_filter_sub. intros r Hr Hm.
  apply not_true_iff_false. intros (i & Hi & Heq%String.eqb_eq)%existsb_exists.
  apply in_map_iff in Hi as (r' & Hid & Hr'%list_elem_of_In).
  apply elem_of_get_targeted in Hr' as [Hr' [Hc _]].
  rewrite <-(NoDup_ids_eq _ r r' Hnd Hr Hr') in Hc by congruence.
  simpl in Hm. apply andb_true_iff in Hm as [Hm _].
  apply bool_decide_eq_true in Hm. unfold chapter_is in Hc. simpl in Hm.
  congruence.
Qed.

Import Scenarios.

Lemma stored_again_ids : NoDup (ids (content_collection stored_again)).
Proof. apply (bool_decide_unpack _). by vm_compute. Qed.



Lemma delete_content_other_chapter_witness :
  retrieve_content (delete_content stored_again "chapter_2" None).2
    "chapter_1" (Some 2)
  = retrieve_content stored_again "chapter_1" (Some 2).
Proof.
  apply (delete_content_other_chapter stored_again "chapter_2" None "chapter_1");
    [apply stored_again_ids|done].
Defined.

End DeleteFacts.

(** ** Storing and retrieving *)

Module RoundTripFacts.
Import ChromaContentManager ChromaFacts StoreFacts ContentReports DeleteFacts.

Lemma get_app {D} (c1 c2 : collection D) w : get (c1 ++ c2) w = get c1 w ++ get c2 w.
Proof. unfold get. apply filter_app. Qed.

Lemma get_singleton {D} (r : record D) w :
  get [r] w = if matches w (rec_metadata r) then [r] else [].
Proof.
  unfold get. rewrite filter_cons, filter_nil.
  destruct (matches w (rec_metadata r)); by case_decide.
Qed.

Section Facts.
Variable on_existing : dup_policy.
Local Abbreviation store_content := (store_content on_existing).

(** X4: [store_content] for one chapter changes no answer of
    [retrieve_content] for another chapter (the caller's metadata not
    naming a ["chapter_id"] of their own). *)
Theorem store_content_other_chapter m content c v md env id m' c' :
  store_content m content c v md env = Ret (id, m') ->
  extra md !! "chapter_id" = None -> c' ≠ c ->
  ∀ other, retrieve_content m' c' other = retrieve_content m c' other.
Proof.
  intros (-> & _ & Hadd)%store_content_inv Hmd Hne.
  apply retrieve_content_ext. intros w.
  apply add_cases in Hadd as [[-> _]|[-> _]]; [|done].
  rewrite get_app, get_singleton. simpl.
  rewrite store_metadata_lookup by done.
  rewrite (proj1 (base_metadata_lookup _ _ _ _)).
  rewrite bool_decide_eq_false_2 by congruence. simpl. by rewrite app_nil_r.
Qed.


(** The version-tracking collection only grows: a step appends at most
    one record and leaves the others in place. *)
Lemma step_versions_prefix m m' :
  step on_existing m m' ->
  versions_collection m `prefix_of` versions_collection m'.
Proof.
  intros [m0 content c v md env id m1 Hs|m0 c v].
  - apply store_content_inv in Hs as (_ & [(vc & Hadd & ->)| ->] & _); [|done].
    apply add_cases in Hadd as [[-> _]|[-> _]]; [|done].
    by apply prefix_app_r.
  - unfold delete_content.
    by destruct (ids (get (content_collection m0) _)).
Qed.

(** X6: the version tracking is written once.  Through any sequence of
    [store_content] and [delete_content] the tracking records already
    present stay where and what they are: deleting a snapshot does not
    remove its record, and storing the pair (chapter_id, version) again
    leaves the record of the first document in place. *)
Theorem version_tracking_first_wins m m' content c v md env id m'' :
  rtc (step on_existing) m m' ->
  has_id (versions_collection m) (version_id_of c v) = true ->
  store_content m' content c v md env = Ret (id, m'') ->
  versions_collection m `prefix_of` versions_collection m'
  ∧ versions_collection m'' = versions_collection m'.
Proof.
  intros Hsteps Hid Hs.
  assert (versions_collection m `prefix_of` versions_collection m') as Hpre.
  { induction Hsteps as [|m1 m2 m3 Hstep _ IH]; [done|].
    etrans; [by apply step_versions_prefix|]. apply IH.
    - apply has_id_true. apply has_id_true in Hid.
      destruct (step_versions_prefix _ _ Hstep) as [k ->].
      unfold ids. rewrite map_app. apply elem_of_app. by left.
    - done. }
  split; [done|].
  apply store_content_inv in Hs as (_ & [(vc & Hadd & ->)| ->] & _); [|done].
  apply add_cases in Hadd as [[_ Hfresh]|[-> _]]; [|done].
  destruct Hfresh. simpl. apply has_id_true in Hid.
  destruct Hpre as [k ->]. unfold ids. rewrite map_app. apply elem_of_app. by left.
Qed.
End Facts.

Import Scenarios ReportScenarios.

Lemma store_content_other_chapter_witness :
  retrieve_content stored_again "chapter_2" None
  = retrieve_content stored_once "chapter_2" None.
Proof.
  apply (store_content_other_chapter RaiseOnExisting stored_once first_draft
           "chapter_1" 2 None env2 "chapter_1_v2_b07d44a2" stored_again
           "chapter_2"); by vm_compute.
Defined.


Lemma version_tracking_first_wins_witness :
  versions_collection stored_once `prefix_of` versions_collection deleted_all
  ∧ versions_collection stored_anew = versions_collection deleted_all.
Proof.
  apply (version_tracking_first_wins RaiseOnExisting stored_once deleted_all
           second_draft "chapter_1" 1 None env3 "chapter_1_v1_5c19e0d4"
           stored_anew).
  - apply rtc_once. apply step_delete.
  - by vm_compute.
  - by vm_compute.
Defined.

End RoundTripFacts.

(** ** The listings *)

Module ReportFacts.
Import ChromaContentManager ChromaFacts StoreFacts ContentReports.

Lemma insert_sorted_map {A B K} (f : A -> B) (key : B -> K) before x l :
  insert_sorted key before (f x) (map f l)
  = map f (insert_sorted (fun a => key (f a)) before x l).
Proof.
  induction l as [|y l IH]; simpl; [done|].
  destruct (before (key (f y)) (key (f x))); simpl; [|done]. by rewrite IH.
Qed.

(** Sorting the images is sorting by the key of the image. *)
Lemma stable_sort_map {A B K} (f : A -> B) (key : B -> K) before l :
  stable_sort key before (map f l)
  = map f (stable_sort (fun a => key (f a)) before l).
Proof.
  induction l as [|x l IH]; simpl; [done|].
  by rewrite IH, insert_sorted_map.
Qed.

Lemma take_str_length n s : (String.length (take_str n s) <= n)%nat.
Proof.
  revert s. induction n as [|n IH]; intros [|c s]; simpl; try lia.
  specialize (IH s). lia.
Qed.

(** A preview has at most 203 characters, and is the whole document up to
    200. *)
Lemma preview_of_length doc :
  (String.length (preview_of doc) <= 203)%nat
  ∧ ((String.length doc <= 200)%nat -> preview_of doc = doc).
Proof.
  unfold preview_of, len. destruct (Z.gtb_spec (Z.of_nat (String.length doc)) 200).
  - split; [|lia]. rewrite StringFacts.length_append.
    change (String.length "...") with 3%nat.
    pose proof (take_str_length 200 doc). lia.
  - split; [lia|done].
Qed.

(** X7: [get_chapter_versions] lists one entry for every stored snapshot
    of the chapter (the versions being integers), ascending by version
    number, each with a preview of at most 203 characters; it is empty
    for a chapter without snapshots. *)
Theorem get_chapter_versions_sorted m c :
  int_versions m c ->
  ∃ rs,
    rs ≡ₚ get (content_collection m) [("chapter_id", MStr c)]
    ∧ StronglySorted (fun a b => version_number a <= version_number b) rs
    ∧ get_chapter_versions m c = map entry_of rs
    ∧ Forall (fun e => (String.length (content_preview e) <= 203)%nat)
        (get_chapter_versions m c).
Proof.
  intros Hint. unfold get_chapter_versions.
  set (results := get (content_collection m) [("chapter_id", MStr c)]).
  assert (∀ r, r ∈ results ->
               rec_metadata r !! "version" = Some (MInt (version_number r)))
    as Hkey.
  { intros r [Hr Hc]%elem_of_get_chapter. destruct (Hint r Hr Hc) as [v Hv].
    rewrite (version_is_number v r Hv). exact Hv. }
  assert (sort_entries (map entry_of results)
          = Ret (map entry_of
                   (stable_sort (fun r => rec_metadata r !! "version") key_lt
                      results))) as ->.
  { unfold sort_entries.
    assert (forallb (fun e => is_int_key (ve_version e)) (map entry_of results)
            = true) as ->.
    { apply forallb_forall. intros e (r & <- & Hr%list_elem_of_In)%in_map_iff.
      simpl. by rewrite (Hkey r Hr). }
    rewrite orb_true_r. cbn [orb]. f_equal.
    exact (stable_sort_map entry_of ve_version key_lt results). }
  exists (stable_sort (fun r => rec_metadata r !! "version") key_lt results).
  split_and!; [apply SortFacts.stable_sort_perm| |done|].
  - apply SortFacts.stable_sort_sorted.
    + intros x y z ? ?. lia.
    + intros x y Hx Hy. rewrite (Hkey x Hx), (Hkey y Hy). simpl. lia.
    + intros x y Hx Hy. rewrite (Hkey x Hx), (Hkey y Hy). simpl. lia.
  - apply Forall_forall. intros e (r & <- & _)%list_elem_of_In%in_map_iff.
    simpl. apply preview_of_length.
Qed.

(** X8: one snapshot whose ["version"] is a [str] beside one with an
    [int] makes the chapter unreadable as a whole: [retrieve_content]
    without a version answers [found: False] with the text of the
    [TypeError], and [get_chapter_versions] returns the empty list. *)
Theorem mixed_versions_hide_chapter m c r1 r2 n s :
  r1 ∈ content_collection m -> chapter_is c r1 -> version_is n r1 ->
  r2 ∈ content_collection m -> chapter_is c r2 ->
  rec_metadata r2 !! "version" = Some (MStr s) ->
  retrieve_content m c None = NotFound (StrOfException TypeError)
  ∧ get_chapter_versions m c = [].
Proof.
  intros H1 Hc1 Hv1 H2 Hc2 Hv2.
  set (results := get (content_collection m) [("chapter_id", MStr c)]).
  assert (r1 ∈ results) as Hr1 by (by apply elem_of_get_chapter).
  assert (r2 ∈ results) as Hr2 by (by apply elem_of_get_chapter).
  assert (∀ {A} (f : A -> bool) (l : list A) x,
            x ∈ l -> f x = false -> forallb f l = false) as Hfalse.
  { intros A f l x Hx Hf. apply not_true_is_false. intros Hall.
    rewrite forallb_forall in Hall.
    rewrite (Hall x) in Hf; [done|by apply list_elem_of_In]. }
  split.
  - unfold retrieve_content. simpl. fold results.
    destruct results as [|a l] eqn:Hres; [by apply elem_of_nil in Hr1|].
    unfold sorted_desc.
    rewrite (Hfalse _ (fun x => is_int (version_key x)) (a :: l) r2 Hr2),
      (Hfalse _ (fun x => is_str (version_key x)) (a :: l) r1 Hr1); [done|..].
    + unfold version_key. unfold version_is in Hv1. by rewrite Hv1.
    + unfold version_key. by rewrite Hv2.
  - unfold get_chapter_versions. fold results. unfold sort_entries.
    assert (r1 ≠ r2) as Hne.
    { intros ->. unfold version_is in Hv1. congruence. }
    assert ((length (map entry_of results) <=? 1)%nat = false) as ->.
    { apply Nat.leb_gt. rewrite length_map.
      destruct results as [|a [|b l]]; simpl; [|exfalso|lia].
      - by apply elem_of_nil in Hr1.
      - apply list_elem_of_singleton in Hr1, Hr2. congruence. }
    rewrite (Hfalse _ (fun e => is_int_key (ve_version e)) _ (entry_of r2)),
      (Hfalse _ (fun e => is_str_key (ve_version e)) _ (entry_of r1)); [done|..].
    + apply list_elem_of_In, in_map. by apply list_elem_of_In.
    + simpl. unfold version_is in Hv1. by rewrite Hv1.
    + apply list_elem_of_In, in_map. by apply list_elem_of_In.
    + simpl. by rewrite Hv2.
Qed.

(** *** [get_content_stats] *)

Lemma count_metadatas_spec (rs : list (record string)) chapters versions words :
  Forall countable_words rs ->
  count_metadatas (map rec_metadata rs) chapters versions words
  = Ret (chapters ∪ list_to_set ((fun r => rec_metadata r !! "chapter_id") <$> rs),
         versions + Z.of_nat (length rs),
         words + sum_Z (map word_count_of rs)).
Proof.
  intros Hrs. revert chapters versions words.
  induction Hrs as [|r rs Hr _ IH]; intros chapters versions words.
  - simpl. by rewrite union_empty_r_L, !Z.add_0_r.
  - cbn [map count_metadatas].
    assert (default (MInt 0) (rec_metadata r !! "word_count")
            = MInt (word_count_of r)) as ->.
    { unfold countable_words in Hr. unfold word_count_of.
      by destruct (rec_metadata r !! "word_count") as [[|w]|]. }
    rewrite IH, fmap_cons, list_to_set_cons, (assoc_L (∪)).
    change (sum_Z (word_count_of r :: map word_count_of rs))
      with (word_count_of r + sum_Z (map word_count_of rs)).
    cbn [length]. f_equal. f_equal; [f_equal|]; lia.
Qed.

Lemma size_list_to_set_le {A} `{Countable A} (l : list A) :
  (size (list_to_set (C:=gset A) l) <= length l)%nat.
Proof.
  induction l as [|x l IH]; [by rewrite list_to_set_nil, size_empty|].
  rewrite list_to_set_cons, size_union_alt, size_singleton. cbn [length].
  assert (size (list_to_set (C:=gset A) l ∖ {[x]})
          <= size (list_to_set (C:=gset A) l))%nat
    by (apply subseteq_size, subseteq_difference_l; reflexivity).
  lia.
Qed.

(** X9: for a store that is not empty (every word count an [int])
    [get_content_stats] reports as many documents as versions, the number
    of stored snapshots; between one chapter and as many chapters as
    documents; and as [total_words] the sum of the word counts.  For an
    empty store it reports [total_documents] 0 alone. *)
Theorem get_content_stats_counts m :
  Forall countable_words (content_collection m) ->
  match content_collection m with
  | [] => get_content_stats m = NoDocuments
  | _ :: _ =>
      ∃ chapters,
        get_content_stats m
        = Stats (Z.of_nat (length (content_collection m))) chapters
            (Z.of_nat (length (content_collection m)))
            (sum_Z (map word_count_of (content_collection m)))
            (mk_truediv (sum_Z (map word_count_of (content_collection m)))
               (Z.of_nat (length (content_collection m))))
        ∧ 1 <= chapters <= Z.of_nat (length (content_collection m))
  end.
Proof.
  intros Hwords. unfold get_content_stats.
  destruct (content_collection m) as [|r rs]; [done|].
  pose proof (count_metadatas_spec (r :: rs) ∅ 0 0 Hwords) as Hspec.
  rewrite union_empty_l_L, !Z.add_0_l in Hspec.
  cbn [map] in Hspec |- *. rewrite Hspec. cbn [length]. rewrite length_map.
  eexists. split; [done|].
  split.
  - assert (size (list_to_set (C:=gset (option mval))
                    ((fun r => rec_metadata r !! "chapter_id") <$> r :: rs))
            ≠ 0%nat); [|lia].
    apply size_non_empty_iff. rewrite fmap_cons, list_to_set_cons. set_solver.
  - pose proof (size_list_to_set_le
                  ((fun r => rec_metadata r !! "chapter_id") <$> r :: rs)) as Hle.
    rewrite length_fmap in Hle. cbn [length] in Hle. lia.
Qed.
Import Scenarios ReportScenarios.

Lemma get_chapter_versions_sorted_witness :
  ∃ rs,
    rs ≡ₚ get (content_collection stored_again) [("chapter_id", MStr "chapter_1")]
    ∧ StronglySorted (fun a b => version_number a <= version_number b) rs
    ∧ get_chapter_versions stored_again "chapter_1" = map entry_of rs
    ∧ Forall (fun e => (String.length (content_preview e) <= 203)%nat)
        (get_chapter_versions stored_again "chapter_1").
Proof.
  apply (get_chapter_versions_sorted stored_again "chapter_1").
  decide_int_versions.
Defined.

Lemma mixed_versions_hide_chapter_witness :
  retrieve_content stored_mixed "chapter_1" None
    = NotFound (StrOfException TypeError)
  ∧ get_chapter_versions stored_mixed "chapter_1" = [].
Proof.
  apply (mixed_versions_hide_chapter stored_mixed "chapter_1"
           (mk_record "chapter_1_v1_3f2a9c1e" first_draft
              (store_metadata first_draft "chapter_1" 1 None (now_stored env1)))
           (mk_record "chapter_1_v2_b07d44a2" second_draft
              (store_metadata second_draft "chapter_1" 2 (Some draft_metadata)
                 (now_stored env2)))
           1 "draft");
    try (by vm_compute).
  - vm_compute. by left.
  - vm_compute. right. by left.
Defined.

Lemma get_content_stats_counts_witness :
  ∃ chapters,
    get_content_stats stored_again
    = Stats (Z.of_nat (length (content_collection stored_again))) chapters
        (Z.of_nat (length (content_collection stored_again)))
        (sum_Z (map word_count_of (content_collection stored_again)))
        (mk_truediv (sum_Z (map word_count_of (content_collection stored_again)))
           (Z.of_nat (length (content_collection stored_again))))
    ∧ 1 <= chapters <= Z.of_nat (length (content_collection stored_again)).
Proof.
  apply (get_content_stats_counts stored_again).
  apply (bool_decide_unpack _). by vm_compute.
Defined.

End ReportFacts.

(** ** The ledger of reviews *)

Module LedgerFacts.
Import HumanLoopInterface ReviewScenarios ReviewReports BatchScenarios.

(** *** Request ids *)

Lemma has_char_app c (x y : string) :
  has_char c (x +:+ y) = has_char c x || has_char c y.
Proof.
  induction x as [|d x IH]; simpl; [done|].
  by rewrite IH, orb_assoc.
Qed.

Lemma pretty_N_go_no_underscore (x : N) (s : string) :
  has_char "_" s = false -> has_char "_" (pretty_N_go x s) = false.
Proof.
  revert s. induction (N.lt_wf_0 x) as [x _ IH]; intros s Hs.
  destruct (decide (x = 0%N)) as [->|Hx].
  - by rewrite pretty_N_go_0.
  - rewrite pretty_N_go_step by lia. apply IH.
    + apply N.div_lt; lia.
    + simpl. rewrite Hs, orb_false_r.
      unfold pretty_N_char. by repeat case_match.
Qed.

(** The decimal digits of a natural number hold no underscore. *)
Lemma str_of_int_digits (n : nat) :
  has_char "_" (str_of_int (Z.of_nat n)) = false.
Proof.
  unfold str_of_int, pretty, pretty_Z.
  destruct (Z.of_nat n) as [|p|p] eqn:Hn; [done| |lia].
  unfold pretty, pretty_N. simpl.
  by apply pretty_N_go_no_underscore.
Qed.

Lemma last_underscore_aux (a b d1 d2 : string) :
  has_char "_" d1 = false -> has_char "_" d2 = false ->
  a +:+ String "_" d1 = b +:+ String "_" d2 -> a = b ∧ d1 = d2.
Proof.
  intros H1 H2. revert b. induction a as [|c a IH]; intros [|c' b].
  - change (String "_" d1 = String "_" d2 -> "" = "" ∧ d1 = d2).
    by intros [= ->].
  - change (String "_" d1 = String c' (b +:+ String "_" d2)
            -> "" = String c' b ∧ d1 = d2).
    intros [= <- ->]. rewrite has_char_app in H1. simpl in H1.
    by rewrite orb_true_r in H1.
  - change (String c (a +:+ String "_" d1) = String "_" d2
            -> String c a = "" ∧ d1 = d2).
    intros [= -> <-]. rewrite has_char_app in H2. simpl in H2.
    by rewrite orb_true_r in H2.
  - change (String c (a +:+ String "_" d1) = String c' (b +:+ String "_" d2)
            -> String c a = String c' b ∧ d1 = d2).
    intros [= -> Hrest]. by destruct (IH b Hrest) as [-> ->].
Qed.

(** A string is cut in one way only at its last underscore. *)
Lemma last_underscore_inj (a b d1 d2 : string) :
  has_char "_" d1 = false -> has_char "_" d2 = false ->
  a +:+ "_" +:+ d1 = b +:+ "_" +:+ d2 -> a = b ∧ d1 = d2.
Proof. apply last_underscore_aux. Qed.

Lemma request_ids_fmap st :
  request_ids st = ReviewRequest.request_id <$> pending_reviews st.
Proof. done. Qed.

Lemma complete_first_ids rid (l : list ReviewRequest.t) :
  map ReviewRequest.request_id (complete_first rid l)
  = map ReviewRequest.request_id l.
Proof.
  induction l as [|r l IH]; simpl; [done|].
  destruct (String.eqb (ReviewRequest.request_id r) rid); simpl; [done|].
  by rewrite IH.
Qed.

Lemma complete_first_lookup rid (l : list ReviewRequest.t) (i : nat) r :
  l !! i = Some r ->
  ∃ r', complete_first rid l !! i = Some r'
        ∧ (r' = r ∨ r' = ReviewRequest.with_status r "completed").
Proof.
  revert i. induction l as [|x l IH]; intros [|i]; simpl; try done.
  - intros [= ->]. destruct (String.eqb (ReviewRequest.request_id r) rid); simpl;
      eexists; split; eauto.
  - intros Hi. destruct (String.eqb (ReviewRequest.request_id x) rid); simpl.
    + exists r. by split; [|left].
    + by apply IH.
Qed.

(** What a call of [collect_human_feedback] can do. *)
Lemma read_action_spec console a rest :
  read_action console = Ret (a, rest) ->
  valid_action a = true ∧ ∃ used, console = used ++ rest ∧ (1 <= length used)%nat.
Proof.
  revert a rest. induction console as [|l c IH]; intros a rest; simpl; [done|].
  destruct (valid_action (lower (strip l))) eqn:Hv.
  - intros [= <- <-]. split; [done|]. exists [l]. split; [done|simpl; lia].
  - intros (Ha & used & -> & Hlen)%IH. split; [done|].
    exists (l :: used). split; [done|simpl; lia].
Qed.

Lemma read_rating_spec console k rest :
  read_rating console = Ret (k, rest) ->
  1 <= k <= 10 ∧ ∃ used, console = used ++ rest ∧ (1 <= length used)%nat.
Proof.
  revert k rest. induction console as [|l c IH]; intros k rest; simpl; [done|].
  assert (read_rating c = Ret (k, rest) ->
          1 <= k <= 10 ∧ ∃ used, l :: c = used ++ rest ∧ (1 <= length used)%nat)
    as Hnext.
  { intros (Hk & used & -> & Hlen)%IH. split; [done|].
    exists (l :: used). split; [done|simpl; lia]. }
  destruct (int (strip l)) as [n|]; [|done].
  destruct ((1 <=? n) && (n <=? 10)) eqn:Hn; [|done].
  intros [= <- <-]. apply andb_true_iff in Hn as [?%Z.leb_le ?%Z.leb_le].
  split; [lia|]. exists [l]. split; [done|simpl; lia].
Qed.

Lemma read_action_raises console e : read_action console = Raise e -> e = EOFError.
Proof.
  induction console as [|l c IH]; simpl; [by intros [= <-]|].
  by destruct (valid_action (lower (strip l))).
Qed.

Lemma read_rating_raises console e : read_rating console = Raise e -> e = EOFError.
Proof.
  induction console as [|l c IH]; simpl; [by intros [= <-]|].
  destruct (int (strip l)) as [n|]; [|done].
  by destruct ((1 <=? n) && (n <=? 10)).
Qed.

Lemma collect_human_feedback_cases st rid reviewer console now :
  match collect_human_feedback st rid reviewer console now with
  | Ret (None, st', rest) =>
      _find_request_by_id st rid = None ∧ st' = st ∧ rest = console
  | Ret (Some fb, st', rest) =>
      (∃ r, _find_request_by_id st rid = Some r)
      ∧ valid_feedback fb
      ∧ HumanFeedback.request_id fb = rid
      ∧ HumanFeedback.reviewer_id fb = reviewer
      ∧ HumanFeedback.timestamp fb = now
      ∧ completed_reviews st' = completed_reviews st ++ [fb]
      ∧ pending_reviews st' = complete_first rid (pending_reviews st)
      ∧ feedback_callbacks st' = feedback_callbacks st
      ∧ ∃ used, console = used ++ rest ∧ (4 <= length used)%nat
  | Raise e =>
      (∃ r, _find_request_by_id st rid = Some r) ∧ e = EOFError
  end.
Proof.
  unfold collect_human_feedback.
  destruct (_find_request_by_id st rid) as [r|] eqn:Hfind; [|done].
  rewrite (ReviewFacts.find_request_display st rid r Hfind). simpl.
  destruct (read_action console) as [[action c1]|e] eqn:Haction; simpl.
  2:{ split; [by exists r|]. by apply read_action_raises in Haction. }
  apply read_action_spec in Haction as (Ha & u1 & -> & Hu1).
  destruct c1 as [|feedback c2]; simpl; [split; [by exists r|done]|].
  destruct c2 as [|changes c3]; simpl; [split; [by exists r|done]|].
  destruct (read_rating c3) as [[rating c4]|e] eqn:Hrating; simpl.
  2:{ split; [by exists r|]. by apply read_rating_raises in Hrating. }
  apply read_rating_spec in Hrating as (Hk & u2 & -> & Hu2).
  split_and!; try done; [by exists r|].
  exists (u1 ++ feedback :: changes :: u2). split.
  - by rewrite <- !app_assoc.
  - rewrite length_app. simpl. lia.
Qed.

(** *** Request ids are unique *)

Lemma indexed_ids_empty : indexed_ids empty.
Proof. by intros i r. Qed.

Lemma indexed_ids_submit st content original fb kind priority stamp now :
  indexed_ids st ->
  indexed_ids
    (submit_for_review st content original fb kind priority stamp now).2.
Proof.
  intros Hst i r. simpl. intros Hi.
  apply lookup_app_Some in Hi as [Hi|[Hlen Hi]]; [by apply Hst|].
  apply list_lookup_singleton_Some in Hi as [Hi <-]. simpl.
  exists (kind +:+ "_" +:+ stamp).
  replace i with (length (pending_reviews st)) by lia.
  clear. induction kind as [|c k IH]; [done|].
  change (String c (k +:+ "_" +:+ stamp +:+ "_"
                      +:+ str_of_int (Z.of_nat (length (pending_reviews st))))
          = String c ((k +:+ "_" +:+ stamp) +:+ "_"
                      +:+ str_of_int (Z.of_nat (length (pending_reviews st))))).
  by rewrite IH.
Qed.

Lemma indexed_ids_complete st rid completed callbacks :
  indexed_ids st ->
  indexed_ids
    (mk_interface (complete_first rid (pending_reviews st)) completed callbacks).
Proof.
  intros Hst i r'. simpl. intros Hi.
  assert (map ReviewRequest.request_id (complete_first rid (pending_reviews st)) !! i
          = Some (ReviewRequest.request_id r')) as Hid.
  { change (map ReviewRequest.request_id ?l) with (ReviewRequest.request_id <$> l).
    by rewrite list_lookup_fmap, Hi. }
  rewrite complete_first_ids in Hid.
  change (map ReviewRequest.request_id ?l) with (ReviewRequest.request_id <$> l)
    in Hid.
  rewrite list_lookup_fmap in Hid.
  destruct (pending_reviews st !! i) as [r|] eqn:Hr; [|done].
  simpl in Hid. injection Hid as <-. by apply (Hst i).
Qed.

Lemma indexed_ids_step st st' :
  review_step st st' -> indexed_ids st -> indexed_ids st'.
Proof.
  intros [s content original fb kind priority stamp now
         |s rid reviewer console now res s' rest Hcall] Hst.
  - by apply indexed_ids_submit.
  - pose proof (collect_human_feedback_cases s rid reviewer console now) as Hc.
    rewrite Hcall in Hc. destruct res as [fb|].
    + destruct Hc as (_ & _ & _ & _ & _ & Hcompleted & Hpending & Hcb & _).
      destruct s' as [p c cb]. simpl in *. subst p.
      by apply indexed_ids_complete.
    + by destruct Hc as (_ & -> & _).
Qed.

Lemma indexed_ids_session st : rtc review_step empty st -> indexed_ids st.
Proof.
  intros Hst.
  apply (rtc_ind_r (R:=review_step) indexed_ids empty); [|clear|exact Hst].
  - apply indexed_ids_empty.
  - intros st1 st2 _ Hstep IH. by eapply indexed_ids_step.
Qed.

Lemma indexed_ids_inj st (i j : nat) r r' :
  indexed_ids st ->
  pending_reviews st !! i = Some r -> pending_reviews st !! j = Some r' ->
  ReviewRequest.request_id r = ReviewRequest.request_id r' -> i = j.
Proof.
  intros Hst Hi Hj Heq.
  destruct (Hst i r Hi) as [a Ha]. destruct (Hst j r' Hj) as [b Hb].
  rewrite Ha, Hb in Heq.
  apply last_underscore_inj in Heq as [_ Heq]; try apply str_of_int_digits.
  unfold str_of_int in Heq. apply (inj pretty) in Heq. lia.
Qed.

Lemma indexed_ids_NoDup st : indexed_ids st -> NoDup (request_ids st).
Proof.
  intros Hst. rewrite request_ids_fmap. apply NoDup_alt. intros i j x.
  rewrite !list_lookup_fmap.
  destruct (pending_reviews st !! i) as [r|] eqn:Hi; [|done].
  destruct (pending_reviews st !! j) as [r'|] eqn:Hj; [|done].
  simpl. intros [= <-] [= Heq]. by apply (indexed_ids_inj st i j r r').
Qed.

(** The id of a new request is the id of no request submitted before. *)
Lemma submit_for_review_fresh st content original fb kind priority stamp now :
  indexed_ids st ->
  (submit_for_review st content original fb kind priority stamp now).1
  ∉ request_ids st.
Proof.
  intros Hst Hin.
  pose proof (indexed_ids_submit st content original fb kind priority stamp now Hst)
    as Hst'.
  rewrite request_ids_fmap in Hin.
  apply list_elem_of_fmap in Hin as (r & Hid & Hr).
  apply list_elem_of_lookup in Hr as [i Hi].
  pose proof (lookup_lt_Some _ _ _ Hi) as Hlt.
  set (st' := (submit_for_review st content original fb kind priority stamp now).2)
    in *.
  assert (pending_reviews st' !! i = Some r) as Hi'.
  { simpl. by apply lookup_app_l_Some. }
  assert (∃ r', pending_reviews st' !! length (pending_reviews st) = Some r'
                ∧ ReviewRequest.request_id r'
                  = (submit_for_review st content original fb kind priority
                       stamp now).1) as (r' & Hlast & Hid').
  { exists (ReviewRequest.mk
              (submit_for_review st content original fb kind priority stamp now).1
              content original fb kind priority now "pending").
    split; [|reflexivity]. simpl.
    rewrite lookup_app_r by lia. by rewrite Nat.sub_diag. }
  assert (i = length (pending_reviews st)); [|lia].
  apply (indexed_ids_inj st' i (length (pending_reviews st)) r r' Hst' Hi' Hlast).
  by rewrite Hid'.
Qed.

Lemma find_request_app_fresh (l : list ReviewRequest.t) r :
  ReviewRequest.request_id r ∉ map ReviewRequest.request_id l ->
  find (fun x => String.eqb (ReviewRequest.request_id x) (ReviewRequest.request_id r))
    (l ++ [r]) = Some r.
Proof.
  induction l as [|x l IH]; simpl.
  - by rewrite String.eqb_refl.
  - intros Hnot. destruct (String.eqb_spec (ReviewRequest.request_id x)
                             (ReviewRequest.request_id r)) as [Heq|_].
    + destruct Hnot. rewrite Heq. by left.
    + apply IH. intros Hin. apply Hnot. by right.
Qed.

Lemma four_pending_session : rtc review_step empty four_pending.
Proof.
  unfold four_pending, submit.
  eapply rtc_r; [eapply rtc_r; [eapply rtc_r; [eapply rtc_once|]|]|];
    apply review_submit.
Qed.

(** X10: in a session that starts with no request, whatever the clock
    reads, no two requests carry the same id, and right after
    [submit_for_review] the returned id finds the request just
    submitted, still ['pending'] and with the fields given. *)
Theorem request_ids_unique st content original fb kind priority stamp now :
  rtc review_step empty st ->
  NoDup (request_ids st)
  ∧ _find_request_by_id
      (submit_for_review st content original fb kind priority stamp now).2
      (submit_for_review st content original fb kind priority stamp now).1
    = Some (ReviewRequest.mk
              (submit_for_review st content original fb kind priority stamp now).1
              content original fb kind priority now "pending").
Proof.
  intros Hst%indexed_ids_session. split; [by apply indexed_ids_NoDup|].
  pose proof (submit_for_review_fresh st content original fb kind priority stamp
                now Hst) as Hfresh.
  unfold _find_request_by_id. simpl in *.
  by apply (find_request_app_fresh (pending_reviews st)
              (ReviewRequest.mk _ content original fb kind priority now "pending")).
Qed.

Lemma request_ids_unique_witness :
  NoDup (request_ids four_pending)
  ∧ _find_request_by_id
      (submit_for_review four_pending "draft" "source" ∅ "editor" 4
         "20240501_100003" "2024-05-01T10:00:03.900000").2
      "editor_20240501_100003_4"
    = Some (ReviewRequest.mk "editor_20240501_100003_4" "draft" "source" ∅
              "editor" 4 "2024-05-01T10:00:03.900000" "pending").
Proof.
  apply (request_ids_unique four_pending "draft" "source" ∅ "editor" 4
           "20240501_100003" "2024-05-01T10:00:03.900000").
  apply four_pending_session.
Defined.

(** *** What a review changes *)

Lemma elem_of_ids (l : list ReviewRequest.t) r :
  r ∈ l -> ReviewRequest.request_id r ∈ map ReviewRequest.request_id l.
Proof.
  intros Hr. change (map ReviewRequest.request_id l)
    with (ReviewRequest.request_id <$> l).
  by apply list_elem_of_fmap_2.
Qed.

Lemma ids_elem_of (l : list ReviewRequest.t) rid :
  rid ∈ map ReviewRequest.request_id l ->
  ∃ r, r ∈ l ∧ ReviewRequest.request_id r = rid.
Proof.
  change (map ReviewRequest.request_id l) with (ReviewRequest.request_id <$> l).
  intros (r & -> & Hr)%list_elem_of_fmap. by exists r.
Qed.

Lemma elem_of_complete_first rid (l : list ReviewRequest.t) r :
  NoDup (map ReviewRequest.request_id l) ->
  r ∈ complete_first rid l
  <-> (r ∈ l ∧ ReviewRequest.request_id r ≠ rid)
      ∨ (∃ r0, r0 ∈ l ∧ ReviewRequest.request_id r0 = rid
               ∧ r = ReviewRequest.with_status r0 "completed").
Proof.
  induction l as [|x l IH]; simpl.
  - intros _. split; [by intros ?%elem_of_nil|].
    intros [[?%elem_of_nil _]|(r0 & ?%elem_of_nil & _)]; done.
  - intros [Hx Hl]%NoDup_cons. specialize (IH Hl).
    destruct (String.eqb_spec (ReviewRequest.request_id x) rid) as [Heq|Hne].
    + rewrite elem_of_cons. split.
      * intros [->|Hr]; [right; exists x; split_and!; [by left|done|done]|].
        left. split; [by right|]. intros Hrid. apply Hx. rewrite Heq, <- Hrid.
        by apply elem_of_ids.
      * intros [[[->|Hr]%elem_of_cons Hrid]|(r0 & [->|Hr0]%elem_of_cons & Hrid & ->)];
          [done|by right|by left|].
        destruct Hx. rewrite Heq, <- Hrid. by apply elem_of_ids.
    + rewrite elem_of_cons, IH. split.
      * intros [->|[[Hr Hrid]|(r0 & Hr0 & Hrid & ->)]].
        -- left. split; [by left|done].
        -- left. split; [by right|done].
        -- right. exists r0. split_and!; [by right|done|done].
      * intros [[[->|Hr]%elem_of_cons Hrid]|(r0 & [->|Hr0]%elem_of_cons & Hrid & ->)].
        -- by left.
        -- right. left. by split.
        -- done.
        -- right. right. by exists r0.
Qed.

Lemma find_complete_first rid (l : list ReviewRequest.t) r :
  find (fun x => String.eqb (ReviewRequest.request_id x) rid) l = Some r ->
  find (fun x => String.eqb (ReviewRequest.request_id x) rid) (complete_first rid l)
  = Some (ReviewRequest.with_status r "completed").
Proof.
  induction l as [|x l IH]; simpl; [done|].
  destruct (String.eqb (ReviewRequest.request_id x) rid) eqn:Hx; simpl.
  - intros [= ->]. by rewrite Hx.
  - by rewrite Hx.
Qed.

Lemma stored_feedback_app_None completed fb rid :
  stored_feedback completed rid = None ->
  stored_feedback (completed ++ [fb]) rid
  = if String.eqb (HumanFeedback.request_id fb) rid then Some fb else None.
Proof.
  unfold stored_feedback. induction completed as [|x l IH]; simpl; [done|].
  by destruct (String.eqb (HumanFeedback.request_id x) rid).
Qed.

Lemma stored_feedback_None completed rid :
  stored_feedback completed rid = None
  <-> ∀ fb, fb ∈ completed -> HumanFeedback.request_id fb ≠ rid.
Proof.
  unfold stored_feedback. induction completed as [|x l IH]; simpl.
  - split; [by intros _ fb ?%elem_of_nil|done].
  - destruct (String.eqb_spec (HumanFeedback.request_id x) rid) as [Heq|Hne].
    + split; [done|]. intros Hall. destruct (Hall x); [by left|done].
    + rewrite IH. split.
      * intros Hall fb [->|Hfb]%elem_of_cons; [done|by apply Hall].
      * intros Hall fb Hfb. apply Hall. by right.
Qed.

(** X11: a feedback that [collect_human_feedback] returns carries one of
    the three actions and a rating from 1 to 10, the id, the reviewer
    and the time of the call; at least four console lines were read for
    it, and the request found under the id is ['completed'] afterwards. *)
Theorem collect_human_feedback_validates st rid reviewer console now fb st' rest :
  collect_human_feedback st rid reviewer console now = Ret (Some fb, st', rest) ->
  valid_action (HumanFeedback.action fb) = true
  ∧ 1 <= HumanFeedback.rating fb <= 10
  ∧ HumanFeedback.request_id fb = rid
  ∧ HumanFeedback.reviewer_id fb = reviewer
  ∧ HumanFeedback.timestamp fb = now
  ∧ (∃ used, console = used ++ rest ∧ (4 <= length used)%nat)
  ∧ ∃ r, _find_request_by_id st rid = Some r
         ∧ _find_request_by_id st' rid
           = Some (ReviewRequest.with_status r "completed").
Proof.
  intros Hcall.
  pose proof (collect_human_feedback_cases st rid reviewer console now) as Hc.
  rewrite Hcall in Hc.
  destruct Hc as ([r Hr] & [Ha Hk] & Hid & Hrev & Hnow & _ & Hpending & _ & Hused).
  split_and!; try done; try lia. exists r. split; [done|].
  unfold _find_request_by_id in *. rewrite Hpending.
  by apply find_complete_first.
Qed.

Lemma collect_human_feedback_validates_witness :
  valid_action (HumanFeedback.action alice_feedback) = true
  ∧ 1 <= HumanFeedback.rating alice_feedback <= 10
  ∧ HumanFeedback.request_id alice_feedback = second_request
  ∧ HumanFeedback.reviewer_id alice_feedback = "alice"
  ∧ HumanFeedback.timestamp alice_feedback = "2024-05-01T10:00:09.500000"
  ∧ (∃ used, ["no"; "approve"; "reads well"; ""; "ten"; "8"; "q"] = used ++ ["q"]
             ∧ (4 <= length used)%nat)
  ∧ ∃ r, _find_request_by_id four_pending second_request = Some r
         ∧ _find_request_by_id reviewed second_request
           = Some (ReviewRequest.with_status r "completed").
Proof.
  apply (collect_human_feedback_validates four_pending second_request "alice"
           ["no"; "approve"; "reads well"; ""; "ten"; "8"; "q"]
           "2024-05-01T10:00:09.500000" alice_feedback reviewed ["q"]).
  vm_compute. reflexivity.
Defined.

(** *** Requests and feedback agree *)

Lemma ledger_inv_empty : ledger_inv empty.
Proof.
  split_and!; [apply indexed_ids_empty| |constructor].
  split; [by intros r ?%elem_of_nil|by intros fb ?%elem_of_nil].
Qed.

Lemma ledger_inv_submit st content original fb kind priority stamp now :
  ledger_inv st ->
  ledger_inv (submit_for_review st content original fb kind priority stamp now).2.
Proof.
  intros (Hids & [Hreq Hfb] & Hvalid).
  pose proof (submit_for_review_fresh st content original fb kind priority stamp
                now Hids) as Hfresh.
  split_and!; [by apply indexed_ids_submit| |done].
  split; simpl.
  - intros r [Hr|Hr%list_elem_of_singleton]%elem_of_app; [by apply Hreq|].
    right. subst r. simpl. split; [done|].
    apply stored_feedback_None. intros f Hf Heq.
    apply Hfresh. simpl. rewrite <- Heq. by apply Hfb.
  - intros f Hf. unfold request_ids. simpl. rewrite map_app.
    apply elem_of_app. left. by apply Hfb.
Qed.

Lemma ledger_inv_collect st rid reviewer console now res st' rest :
  collect_human_feedback st rid reviewer console now = Ret (res, st', rest) ->
  ledger_inv st -> ledger_inv st'.
Proof.
  intros Hcall Hinv.
  assert (review_step st st') as Hstep by (by econstructor).
  pose proof (collect_human_feedback_cases st rid reviewer console now) as Hc.
  rewrite Hcall in Hc. destruct res as [fb|]; [|by destruct Hc as (_ & -> & _)].
  destruct Hc as ([r0 Hr0] & Hfbvalid & Hid & _ & _ & Hcompleted & Hpending & _ & _).
  destruct Hinv as (Hids & [Hreq Hfb] & Hvalid).
  pose proof (indexed_ids_NoDup st Hids) as Hnodup.
  split_and!; [by apply (indexed_ids_step st st')| |].
  2:{ rewrite Hcompleted. apply Forall_app. split; [done|by constructor]. }
  split.
  - intros r Hr. rewrite Hpending in Hr.
    apply (elem_of_complete_first rid _ r Hnodup) in Hr
      as [[Hr Hne]|(r1 & Hr1 & Hrid & ->)]; rewrite Hcompleted.
    + destruct (Hreq r Hr) as [[Hs [old Hold]]|[Hs Hnone]].
      * left. split; [done|]. exists old. by apply ReviewFacts.stored_feedback_app.
      * right. split; [done|]. rewrite stored_feedback_app_None by done.
        destruct (String.eqb_spec (HumanFeedback.request_id fb)
                    (ReviewRequest.request_id r)); [congruence|done].
    + left. split; [done|]. simpl. rewrite Hrid.
      destruct (stored_feedback (completed_reviews st) rid) as [old|] eqn:Hold.
      * exists old. by apply ReviewFacts.stored_feedback_app.
      * rewrite stored_feedback_app_None by done.
        rewrite Hid, String.eqb_refl. by exists fb.
  - intros f Hf. unfold request_ids. rewrite Hpending, complete_first_ids.
    rewrite Hcompleted in Hf.
    apply elem_of_app in Hf as [Hf|Hf%list_elem_of_singleton]; [by apply Hfb|].
    subst f. rewrite Hid. unfold _find_request_by_id in Hr0.
    apply find_some in Hr0 as [Hin Heq%String.eqb_eq]. rewrite <- Heq.
    apply elem_of_ids. by apply list_elem_of_In.
Qed.

Lemma ledger_inv_session st : rtc review_step empty st -> ledger_inv st.
Proof.
  intros Hst.
  apply (rtc_ind_r (R:=review_step) ledger_inv empty); [|clear|exact Hst].
  - apply ledger_inv_empty.
  - intros st1 st2 _ Hstep IH. destruct Hstep.
    + by apply ledger_inv_submit.
    + by eapply ledger_inv_collect.
Qed.

Lemma reviewed_session : rtc review_step empty reviewed.
Proof.
  eapply rtc_r; [apply four_pending_session|].
  eapply (review_collect four_pending second_request "alice"
            ["approve"; "reads well"; ""; "8"] "2024-05-01T10:00:09.500000"
            (Some alice_feedback) reviewed []).
  vm_compute. reflexivity.
Qed.

(** X12: in a session that starts with no request, every request is
    either ['completed'] with a feedback stored under its id or
    ['pending'] with none; every stored feedback answers a request of
    the session and carries one of the three actions and a rating from
    1 to 10. *)
Theorem session_settled st :
  rtc review_step empty st ->
  (∀ r, r ∈ pending_reviews st ->
     (ReviewRequest.status r = "completed"
      ∧ ∃ fb, get_review_summary st (ReviewRequest.request_id r) = Some fb)
     ∨ (ReviewRequest.status r = "pending"
        ∧ get_review_summary st (ReviewRequest.request_id r) = None))
  ∧ ∀ fb, fb ∈ completed_reviews st ->
      (∃ r, r ∈ pending_reviews st
            ∧ ReviewRequest.request_id r = HumanFeedback.request_id fb
            ∧ ReviewRequest.status r = "completed")
      ∧ valid_action (HumanFeedback.action fb) = true
      ∧ 1 <= HumanFeedback.rating fb <= 10.
Proof.
  intros (Hids & [Hreq Hfb] & Hvalid)%ledger_inv_session. split.
  - intros r Hr. destruct (Hreq r Hr) as [[Hs [fb Hsome]]|[Hs Hnone]].
    + left. split; [done|]. by exists fb.
    + by right.
  - intros fb Hin.
    rewrite Forall_forall in Hvalid. destruct (Hvalid fb Hin) as [Ha Hk].
    split; [|done].
    destruct (ids_elem_of _ _ (Hfb fb Hin)) as (r & Hr & Hid).
    exists r. split_and!; [done|done|].
    destruct (Hreq r Hr) as [[Hs _]|[_ Hnone]]; [done|].
    rewrite stored_feedback_None in Hnone. by destruct (Hnone fb Hin).
Qed.

Lemma session_settled_witness :
  (∀ r, r ∈ pending_reviews reviewed ->
     (ReviewRequest.status r = "completed"
      ∧ ∃ fb, get_review_summary reviewed (ReviewRequest.request_id r) = Some fb)
     ∨ (ReviewRequest.status r = "pending"
        ∧ get_review_summary reviewed (ReviewRequest.request_id r) = None))
  ∧ ∀ fb, fb ∈ completed_reviews reviewed ->
      (∃ r, r ∈ pending_reviews reviewed
            ∧ ReviewRequest.request_id r = HumanFeedback.request_id fb
            ∧ ReviewRequest.status r = "completed")
      ∧ valid_action (HumanFeedback.action fb) = true
      ∧ 1 <= HumanFeedback.rating fb <= 10.
Proof. apply (session_settled reviewed). apply reviewed_session. Defined.

(** *** Nothing is taken back *)

Lemma with_status_completed r :
  ReviewRequest.status r = "completed" ->
  ReviewRequest.with_status r "completed" = r.
Proof. destruct r. simpl. by intros ->. Qed.

Lemma review_step_grows st st' :
  review_step st st' ->
  completed_reviews st `prefix_of` completed_reviews st'
  ∧ (length (pending_reviews st) <= length (pending_reviews st'))%nat
  ∧ (∀ (i : nat) r, pending_reviews st !! i = Some r ->
       ∃ r', pending_reviews st' !! i = Some r'
             ∧ (r' = r ∨ r' = ReviewRequest.with_status r "completed"))
  ∧ feedback_callbacks st' = feedback_callbacks st.
Proof.
  intros [s content original fb kind priority stamp now
         |s rid reviewer console now res s' rest Hcall]; simpl.
  - split_and!; [done|rewrite length_app; lia| |done].
    intros i r Hi. exists r. split; [|by left]. by apply lookup_app_l_Some.
  - pose proof (collect_human_feedback_cases s rid reviewer console now) as Hc.
    rewrite Hcall in Hc. destruct res as [fb|].
    + destruct Hc as (_ & _ & _ & _ & _ & -> & -> & -> & _).
      split_and!; [by apply prefix_app_r| |apply complete_first_lookup|done].
      pose proof (f_equal (@length string)
                    (complete_first_ids rid (pending_reviews s))) as Hlen.
      rewrite !length_map in Hlen. lia.
    + destruct Hc as (_ & -> & _). split_and!; try done.
      intros i r Hi. exists r. by split; [|left].
Qed.

(** X13: nothing a session has recorded is taken back by later calls of
    [submit_for_review] and [collect_human_feedback].  The feedback
    stored stays, in order, at the head of [completed_reviews], so
    [get_review_summary] keeps its answer; every request stays at its
    position with all its fields, but for a status that has become
    ['completed'], and a completed request stays completed; the
    callbacks are untouched. *)
Theorem session_append_only st st' :
  rtc review_step st st' ->
  completed_reviews st `prefix_of` completed_reviews st'
  ∧ (∀ rid old, get_review_summary st rid = Some old ->
       get_review_summary st' rid = Some old)
  ∧ (∀ (i : nat) r, pending_reviews st !! i = Some r ->
       ∃ r', pending_reviews st' !! i = Some r'
             ∧ (r' = r ∨ r' = ReviewRequest.with_status r "completed")
             ∧ (ReviewRequest.status r = "completed" -> r' = r))
  ∧ feedback_callbacks st' = feedback_callbacks st.
Proof.
  intros Hrtc.
  assert (completed_reviews st `prefix_of` completed_reviews st'
          ∧ (∀ (i : nat) r, pending_reviews st !! i = Some r ->
               ∃ r', pending_reviews st' !! i = Some r'
                     ∧ (r' = r ∨ r' = ReviewRequest.with_status r "completed"))
          ∧ feedback_callbacks st' = feedback_callbacks st) as (Hpre & Hreq & Hcb).
  { induction Hrtc as [|s1 s2 s3 Hstep _ (IHpre & IHreq & IHcb)]; [|].
    - split_and!; try done. intros i r Hi. exists r. by split; [|left].
    - apply review_step_grows in Hstep as (Hpre & _ & Hreq & Hcb).
      split_and!; [by etrans| |congruence].
      intros i r Hi. destruct (Hreq i r Hi) as (r1 & Hi1 & Hr1).
      destruct (IHreq i r1 Hi1) as (r2 & Hi2 & Hr2).
      exists r2. split; [done|].
      destruct Hr1 as [->| ->]; [done|]. right.
      destruct Hr2 as [->| ->]; [done|]. by destruct r. }
  split_and!; [done| | |done].
  - intros rid old. unfold get_review_summary.
    destruct Hpre as [new ->]. clear. unfold stored_feedback.
    induction (completed_reviews st) as [|x l IH]; simpl; [done|].
    by destruct (String.eqb (HumanFeedback.request_id x) rid).
  - intros i r Hi. destruct (Hreq i r Hi) as (r' & Hi' & Hr').
    exists r'. split_and!; [done|done|].
    intros Hs. destruct Hr' as [->| ->]; [done|]. by apply with_status_completed.
Qed.

Lemma session_append_only_witness :
  completed_reviews four_pending `prefix_of` completed_reviews reviewed
  ∧ (∀ rid old, get_review_summary four_pending rid = Some old ->
       get_review_summary reviewed rid = Some old)
  ∧ (∀ (i : nat) r, pending_reviews four_pending !! i = Some r ->
       ∃ r', pending_reviews reviewed !! i = Some r'
             ∧ (r' = r ∨ r' = ReviewRequest.with_status r "completed")
             ∧ (ReviewRequest.status r = "completed" -> r' = r))
  ∧ feedback_callbacks reviewed = feedback_callbacks four_pending.
Proof.
  apply (session_append_only four_pending reviewed).
  apply rtc_once.
  apply (review_collect four_pending second_request "alice"
           ["approve"; "reads well"; ""; "8"] "2024-05-01T10:00:09.500000"
           (Some alice_feedback) reviewed []).
  vm_compute. reflexivity.
Defined.

(** *** The list of pending reviews *)

Lemma elem_of_get_pending_reviews st rt pmin r :
  r ∈ get_pending_reviews st rt pmin
  <-> r ∈ pending_reviews st ∧ passes rt pmin r.
Proof.
  unfold get_pending_reviews.
  rewrite (SortFacts.stable_sort_elem sort_key key_lt).
  rewrite ReviewFacts.filtered_reviews_filter, list_elem_of_filter.
  tauto.
Qed.

(** X14: in a session that starts with no request, a feedback collected
    for a request takes that request, and no other, off the list that
    [get_pending_reviews] returns, under every filter. *)
Theorem collect_human_feedback_pending st rid reviewer console now fb st' rest :
  rtc review_step empty st ->
  collect_human_feedback st rid reviewer console now = Ret (Some fb, st', rest) ->
  ∀ rt pmin r,
    r ∈ get_pending_reviews st' rt pmin
    <-> r ∈ get_pending_reviews st rt pmin ∧ ReviewRequest.request_id r ≠ rid.
Proof.
  intros Hst%indexed_ids_session%indexed_ids_NoDup Hcall rt pmin r.
  pose proof (collect_human_feedback_cases st rid reviewer console now) as Hc.
  rewrite Hcall in Hc. destruct Hc as (_ & _ & _ & _ & _ & _ & Hpending & _).
  rewrite !elem_of_get_pending_reviews, Hpending.
  rewrite (elem_of_complete_first rid _ r Hst). split.
  - intros [[[Hr Hne]|(r0 & _ & _ & ->)] Hpass]; [done|].
    by destruct Hpass as [Hs _].
  - intros [[Hr Hpass] Hne]. split; [|done]. by left.
Qed.

Lemma collect_human_feedback_pending_witness :
  ∃ r, (r ∈ get_pending_reviews reviewed None 1
        <-> r ∈ get_pending_reviews four_pending None 1
            ∧ ReviewRequest.request_id r ≠ second_request)
       ∧ r ∈ get_pending_reviews four_pending None 1
       ∧ ReviewRequest.request_id r = second_request.
Proof.
  exists (ReviewRequest.mk second_request "draft" "source" ∅ "reviewer" 5
            "2024-05-01T10:00:01.120000" "pending").
  split; [|split; [|reflexivity]].
  - apply (collect_human_feedback_pending four_pending second_request "alice"
             ["approve"; "reads well"; ""; "8"] "2024-05-01T10:00:09.500000"
             alice_feedback reviewed []).
    + apply four_pending_session.
    + vm_compute. reflexivity.
  - vm_compute. apply list_elem_of_In. simpl. tauto.
Defined.

(** *** [generate_review_report] *)

Lemma occurrences_cons k x (keys : list string) :
  occurrences k (x :: keys)
  = (if decide (x = k) then 1 else 0) + occurrences k keys.
Proof.
  unfold occurrences. rewrite filter_cons.
  destruct (decide (x = k)); simpl length; lia.
Qed.

Lemma occurrences_nonneg k keys : 0 <= occurrences k keys.
Proof. unfold occurrences. lia. Qed.

Lemma occurrences_app k (l1 l2 : list string) :
  occurrences k (l1 ++ l2) = occurrences k l1 + occurrences k l2.
Proof. unfold occurrences. rewrite filter_app, length_app. lia. Qed.

Lemma tally_lookup (keys : list string) (init : gmap string Z) k :
  tally init keys !! k
  = if occurrences k keys =? 0 then init !! k
    else Some (default 0 (init !! k) + occurrences k keys).
Proof.
  revert init. induction keys as [|x keys IH]; intros init; [done|].
  change (tally init (x :: keys))
    with (tally (<[x := default 0 (init !! x) + 1]> init) keys).
  rewrite IH, occurrences_cons.
  pose proof (occurrences_nonneg k keys) as Hn.
  destruct (decide (x = k)) as [->|Hne].
  - rewrite lookup_insert. rewrite decide_True by done. simpl.
    destruct (Z.eqb_spec (occurrences k keys) 0) as [->|_];
      destruct (Z.eqb_spec (1 + occurrences k keys) 0); try lia;
      simpl; f_equal; lia.
  - rewrite lookup_insert_ne by done.
    by replace (0 + occurrences k keys) with (occurrences k keys) by lia.
Qed.

Lemma valid_action_cases a :
  valid_action a = true <-> a = "approve" ∨ a = "revise" ∨ a = "reject".
Proof.
  unfold valid_action. rewrite !orb_true_iff, !String.eqb_eq. tauto.
Qed.

Lemma occurrences_actions (completed : list HumanFeedback.t) :
  Forall valid_feedback completed ->
  occurrences "approve" (map HumanFeedback.action completed)
  + occurrences "revise" (map HumanFeedback.action completed)
  + occurrences "reject" (map HumanFeedback.action completed)
  = Z.of_nat (length completed)
  ∧ ∀ a, valid_action a = false ->
         occurrences a (map HumanFeedback.action completed) = 0.
Proof.
  induction 1 as [|fb l [Ha _] _ [IHsum IHother]]; [done|].
  simpl map. split.
  - rewrite !occurrences_cons.
    apply valid_action_cases in Ha as [-> | [-> | ->]];
      repeat case_decide; try discriminate; try congruence; simpl length; lia.
  - intros a Hinvalid. rewrite occurrences_cons, (IHother a Hinvalid).
    rewrite decide_False; [done|]. intros <-. congruence.
Qed.

Lemma ratings_bounds (completed : list HumanFeedback.t) :
  Forall valid_feedback completed ->
  Z.of_nat (length completed)
  <= foldr Z.add 0 (map HumanFeedback.rating completed)
  <= 10 * Z.of_nat (length completed).
Proof.
  induction 1 as [|fb l [_ Hk] _ IH]; simpl; [lia|]. lia.
Qed.

Lemma status_split (l : list ReviewRequest.t) :
  Forall (fun r => ReviewRequest.status r = "completed"
                   ∨ ReviewRequest.status r = "pending") l ->
  length l = (length (filter (has_status "pending") l)
              + length (filter (has_status "completed") l))%nat.
Proof.
  induction 1 as [|r l Hr _ IH]; [done|].
  rewrite !filter_cons.
  destruct (decide (has_status "pending" r)) as [Hp|Hp];
    destruct (decide (has_status "completed" r)) as [Hc|Hc];
    unfold has_status in Hp, Hc; simpl; [congruence|lia|lia|].
  destruct Hr; congruence.
Qed.

(** There are at most as many completed requests as stored feedback. *)
Lemma completed_requests_bound st :
  ledger_inv st ->
  (length (filter (has_status "completed") (pending_reviews st))
   <= length (completed_reviews st))%nat.
Proof.
  intros (Hids%indexed_ids_NoDup & [Hreq _] & _).
  rewrite request_ids_fmap in Hids.
  rewrite <- (length_fmap ReviewRequest.request_id),
    <- (length_fmap HumanFeedback.request_id (completed_reviews st)).
  apply submseteq_length, NoDup_submseteq.
  - apply (sublist_NoDup _ _ Hids). apply fmap_sublist, sublist_filter.
  - intros rid (r & -> & [Hs Hr]%list_elem_of_filter)%list_elem_of_fmap.
    destruct (Hreq r Hr) as [[_ [fb Hfb]]|[Hp _]].
    + unfold stored_feedback in Hfb.
      apply find_some in Hfb as [Hin Heq%String.eqb_eq].
      rewrite <- Heq. apply list_elem_of_fmap_2. by apply list_elem_of_In.
    + unfold has_status in Hs. congruence.
Qed.

(** X15: the report of a session that starts with no request.  Without
    feedback there is only the message.  Otherwise the action breakdown
    has the three keys approve, revise and reject and its counts add up
    to the number of completed reviews; the average is taken of ratings
    whose sum lies between that number and ten times it; a review type
    is counted once for each of its requests and once more for each
    completed one; and the requests not counted as pending are at most
    as many as the completed reviews. *)
Theorem generate_review_report_counts st :
  rtc review_step empty st ->
  match generate_review_report st with
  | None => completed_reviews st = []
  | Some rep =>
      let total := Z.of_nat (length (completed_reviews st)) in
      0 < total
      ∧ total_completed_reviews rep = total
      ∧ (∃ sum, average_rating rep = Round (Quotient sum total) 2
                ∧ total <= sum <= 10 * total)
      ∧ (∃ approve revise reject,
           action_breakdown rep
           = <["approve" := approve]>
               (<["revise" := revise]> (<["reject" := reject]> ∅))
           ∧ 0 <= approve ∧ 0 <= revise ∧ 0 <= reject
           ∧ approve + revise + reject = total
           ∧ approval_rate rep = Round (Times100 (Quotient approve total)) 1)
      ∧ (∀ t,
           review_type_breakdown rep !! t
           = let n :=
               occurrences t (map ReviewRequest.review_type (pending_reviews st))
               + occurrences t
                   (map ReviewRequest.review_type
                      (filter (has_status "completed") (pending_reviews st))) in
             if n =? 0 then None else Some n)
      ∧ 0 <= Z.of_nat (length (pending_reviews st)) - pending_count rep <= total
  end.
Proof.
  intros Hinv%ledger_inv_session.
  pose proof (completed_requests_bound st Hinv) as Hbound.
  destruct Hinv as (_ & [Hreq _] & Hvalid).
  unfold generate_review_report.
  destruct (Z.eqb_spec (Z.of_nat (length (completed_reviews st))) 0) as [Hz|Hnz].
  { destruct (completed_reviews st); [done|simpl in Hz; lia]. }
  cbn zeta. simpl. set (total := Z.of_nat (length (completed_reviews st))) in *.
  destruct (occurrences_actions _ Hvalid) as [Hsum Hother].
  assert (∀ a, tally (<["approve" := 0]> (<["revise" := 0]> (<["reject" := 0]> ∅)))
                 (map HumanFeedback.action (completed_reviews st)) !! a
               = if valid_action a
                 then Some (occurrences a
                              (map HumanFeedback.action (completed_reviews st)))
                 else None) as Hlookup.
  { intros a. rewrite tally_lookup.
    destruct (valid_action a) eqn:Ha.
    - assert ((<["approve" := 0]> (<["revise" := 0]> (<["reject" := 0]> ∅))
                 : gmap string Z) !! a = Some 0) as ->.
      { apply valid_action_cases in Ha as [-> | [-> | ->]]; by simplify_map_eq. }
      simpl.
      destruct (Z.eqb_spec
                  (occurrences a (map HumanFeedback.action (completed_reviews st)))
                  0) as [Heq|_]; [by rewrite Heq|done].
    - rewrite (Hother a Ha). simpl.
      assert (a ≠ "approve" ∧ a ≠ "revise" ∧ a ≠ "reject") as (? & ? & ?).
      { split_and!; intros ->; done. }
      by rewrite !lookup_insert_ne, lookup_empty by done. }
  assert (length (pending_reviews st)
          = (length (filter (has_status "pending") (pending_reviews st))
             + length (filter (has_status "completed") (pending_reviews st)))%nat)
    as Hsplit.
  { apply status_split, Forall_forall.
    intros r Hr. destruct (Hreq r Hr) as [[? _]|[? _]]; [by left|by right]. }
  split_and!; [lia|done| | | |lia|lia].
  - eexists. split; [done|]. by apply ratings_bounds.
  - exists (occurrences "approve" (map HumanFeedback.action (completed_reviews st))),
      (occurrences "revise" (map HumanFeedback.action (completed_reviews st))),
      (occurrences "reject" (map HumanFeedback.action (completed_reviews st))).
    split_and!; try apply occurrences_nonneg; [|done|by rewrite Hlookup].
    apply map_eq. intros a. rewrite Hlookup.
    destruct (decide (a = "approve")) as [->|?]; [by rewrite lookup_insert|].
    rewrite lookup_insert_ne by done.
    destruct (decide (a = "revise")) as [->|?]; [by rewrite lookup_insert|].
    rewrite lookup_insert_ne by done.
    destruct (decide (a = "reject")) as [->|?]; [by rewrite lookup_insert|].
    rewrite lookup_insert_ne, lookup_empty by done.
    destruct (valid_action a) eqn:Ha; [|done].
    apply valid_action_cases in Ha as [?|[?|?]]; done.
  - intros t. rewrite tally_lookup, map_app, occurrences_app, lookup_empty.
    simpl. by destruct (_ =? 0).
Qed.

Lemma generate_review_report_counts_witness :
  match generate_review_report reviewed with
  | None => completed_reviews reviewed = []
  | Some rep =>
      let total := Z.of_nat (length (completed_reviews reviewed)) in
      0 < total
      ∧ total_completed_reviews rep = total
      ∧ (∃ sum, average_rating rep = Round (Quotient sum total) 2
                ∧ total <= sum <= 10 * total)
      ∧ (∃ approve revise reject,
           action_breakdown rep
           = <["approve" := approve]>
               (<["revise" := revise]> (<["reject" := reject]> ∅))
           ∧ 0 <= approve ∧ 0 <= revise ∧ 0 <= reject
           ∧ approve + revise + reject = total
           ∧ approval_rate rep = Round (Times100 (Quotient approve total)) 1)
      ∧ (∀ t,
           review_type_breakdown rep !! t
           = let n :=
               occurrences t
                 (map ReviewRequest.review_type (pending_reviews reviewed))
               + occurrences t
                   (map ReviewRequest.review_type
                      (filter (has_status "completed") (pending_reviews reviewed))) in
             if n =? 0 then None else Some n)
      ∧ 0 <= Z.of_nat (length (pending_reviews reviewed)) - pending_count rep
        <= total
  end.
Proof. apply (generate_review_report_counts reviewed). apply reviewed_session. Defined.

(** *** [batch_review_interface] *)

Lemma batch_bounded_stop st pending console :
  batch_bounded st pending console (None, st, console).
Proof.
  exists []. simpl. rewrite app_nil_r.
  split_and!; [done|apply sublist_nil_l|constructor|done|done|by exists []|by left].
Qed.

Lemma batch_bounded_eof st pending console :
  batch_bounded st pending console (Some EOFError, st, []).
Proof.
  exists []. simpl. rewrite app_nil_r.
  split_and!; [done|apply sublist_nil_l|constructor|done|done| |by right].
  exists console. by rewrite app_nil_r.
Qed.

(** A turn that stores nothing and reads [used]. *)
Lemma batch_bounded_skip st request pending used console res :
  batch_bounded st pending console res ->
  batch_bounded st (request :: pending) (used ++ console) res.
Proof.
  intros (new & Hc & Hsub & Hv & Hids & Hcb & [u ->] & He).
  exists new. split_and!; try done.
  - simpl. by apply sublist_cons.
  - exists (used ++ u). by rewrite app_assoc.
Qed.

(** A turn that stores the feedback [fb] for its request. *)
Lemma batch_bounded_review st st1 request pending used console fb res :
  completed_reviews st1 = completed_reviews st ++ [fb] ->
  pending_reviews st1
  = complete_first (ReviewRequest.request_id request) (pending_reviews st) ->
  feedback_callbacks st1 = feedback_callbacks st ->
  HumanFeedback.request_id fb = ReviewRequest.request_id request ->
  valid_feedback fb ->
  batch_bounded st1 pending console res ->
  batch_bounded st (request :: pending) (used ++ console) res.
Proof.
  intros Hc1 Hp1 Hcb1 Hid Hfb (new & Hc & Hsub & Hv & Hids & Hcb & [u ->] & He).
  exists (fb :: new). split_and!; try done.
  - by rewrite Hc, Hc1, <- app_assoc.
  - simpl. rewrite Hid. by apply sublist_skip.
  - by constructor.
  - rewrite Hids. unfold request_ids. by rewrite Hp1, complete_first_ids.
  - congruence.
  - exists (used ++ u). by rewrite app_assoc.
Qed.

Lemma batch_loop_bounded pending st console now_at i :
  batch_bounded st pending console (batch_loop st pending console now_at i).
Proof.
  revert st console i.
  induction pending as [|request rest IH]; intros st console i; simpl.
  { apply batch_bounded_stop. }
  destruct console as [|line console]; simpl; [apply batch_bounded_eof|].
  destruct (String.eqb (lower (strip line)) "q").
  { apply (batch_bounded_skip st request rest [line] console), batch_bounded_stop. }
  destruct (String.eqb (lower (strip line)) "s").
  { apply (batch_bounded_skip st request rest [line] console), IH. }
  destruct (String.eqb (lower (strip line)) "r").
  2:{ apply (batch_bounded_skip st request rest [line] console), IH. }
  destruct console as [|name console]; simpl.
  { apply (batch_bounded_skip st request rest [line] []), batch_bounded_eof. }
  destruct (String.eqb (strip name) "").
  { apply (batch_bounded_skip st request rest [line; name] console), IH. }
  pose proof (collect_human_feedback_cases st (ReviewRequest.request_id request)
                (strip name) console (now_at i)) as Hc.
  destruct (collect_human_feedback st (ReviewRequest.request_id request)
              (strip name) console (now_at i)) as [[[[fb|] st1] c1]|e].
  - destruct Hc as (_ & Hfb & Hid & _ & _ & Hc1 & Hp1 & Hcb1 & used & -> & _).
    apply (batch_bounded_review st st1 request rest
             ([line; name] ++ used) c1 fb); try done; apply IH.
  - destruct Hc as (_ & -> & ->).
    apply (batch_bounded_skip st request rest [line; name] console), IH.
  - destruct Hc as [_ ->].
    apply (batch_bounded_eof st (request :: rest) (line :: name :: console)).
Qed.

(** X16: a batch session stores feedback only for requests of the list
    that [get_pending_reviews] returned at its start, at most one for
    each and in the order of that list, every one with a valid action
    and rating.  It appends them to [completed_reviews], keeps every
    request and callback in place, reads the console from the front,
    and ends normally or with [EOFError] once the console is
    exhausted. *)
Theorem batch_review_interface_bounded st review_type console now_at :
  ∃ new,
    completed_reviews (batch_review_interface st review_type console now_at).1.2
    = completed_reviews st ++ new
    ∧ map HumanFeedback.request_id new
        `sublist_of` map ReviewRequest.request_id
                       (get_pending_reviews st review_type 1)
    ∧ Forall (fun fb => valid_action (HumanFeedback.action fb) = true
                        ∧ 1 <= HumanFeedback.rating fb <= 10) new
    ∧ request_ids (batch_review_interface st review_type console now_at).1.2
      = request_ids st
    ∧ feedback_callbacks (batch_review_interface st review_type console now_at).1.2
      = feedback_callbacks st
    ∧ (∃ used,
         console
         = used ++ (batch_review_interface st review_type console now_at).2)
    ∧ ((batch_review_interface st review_type console now_at).1.1 = None
       ∨ ((batch_review_interface st review_type console now_at).1.1
          = Some EOFError
          ∧ (batch_review_interface st review_type console now_at).2 = [])).
Proof.
  unfold batch_review_interface.
  destruct (get_pending_reviews st review_type 1) as [|request rest] eqn:Hpending.
  - apply (batch_bounded_stop st [] console).
  - apply (batch_loop_bounded (request :: rest) st console now_at 0%nat).
Qed.

(** The reviewer of the scenario skips the request shown first, reviews
    the next one and quits. *)
Example batch_review_interface_skip_review_quit :
  batch_review_interface four_pending None typed clock
  = (None,
     mk_interface
       (complete_first "reviewer_20240501_100002_2" (pending_reviews four_pending))
       [HumanFeedback.mk "reviewer_20240501_100002_2" "carol" "revise"
          "tighten the opening" "less exposition" 6 "2024-05-01T11:00:01"]
       ∅,
     []).
Proof. vm_compute. reflexivity. Qed.

(** *** [wait_for_feedback] with a long timeout *)

Lemma elapsed_seconds_bound start now : 0 <= elapsed_seconds start now <= 86399.
Proof.
  unfold elapsed_seconds.
  pose proof (Z.mod_pos_bound ((now - start) `div` 1000000) 86400). lia.
Qed.

(** X17: with a timeout of 86399 seconds or more, [wait_for_feedback]
    never gives the timeout signal, however long it waits: the seconds
    field it compares with the timeout stays below a day.  It returns
    the feedback at the first check that finds one, and is still
    sleeping otherwise. *)
Theorem wait_for_feedback_long_timeout st rid timeout start now later :
  86399 <= timeout ->
  match wait_for_feedback st rid timeout start now later with
  | Feedback fb =>
      ∃ before turn after,
        mk_poll (completed_reviews st) now :: later = before ++ turn :: after
        ∧ stored_feedback (completed_then turn) rid = Some fb
        ∧ Forall (fun t => stored_feedback (completed_then t) rid = None) before
  | TimedOut => False
  | Sleeping =>
      Forall (fun t => stored_feedback (completed_then t) rid = None)
        (mk_poll (completed_reviews st) now :: later)
  end.
Proof.
  intros Htimeout. unfold wait_for_feedback.
  generalize (mk_poll (completed_reviews st) now :: later). intros turns.
  induction turns as [|turn rest IH]; simpl; [constructor|].
  destruct (stored_feedback (completed_then turn) rid) as [fb|] eqn:Hfb.
  - exists [], turn, rest. split_and!; [done|done|constructor].
  - pose proof (elapsed_seconds_bound start (clock_then turn)) as Hbound.
    destruct (Z.gtb_spec (elapsed_seconds start (clock_then turn)) timeout);
      [lia|].
    destruct (wait_loop rid timeout start rest) as [fb| |]; [|done|].
    + destruct IH as (before & t & after & -> & Hsome & Hnone).
      exists (turn :: before), t, after. split_and!; [done|done|by constructor].
    + by constructor.
Qed.

Lemma wait_for_feedback_long_timeout_witness :
  86399 <= 86400
  ∧ match wait_for_feedback four_pending second_request 86400 t_call t_first
            [mk_poll [] (t_call + 90000 * 1000000);
             mk_poll [alice_feedback] (t_call + 180000 * 1000000)] with
    | Feedback fb =>
        ∃ before turn after,
          mk_poll (completed_reviews four_pending) t_first
            :: [mk_poll [] (t_call + 90000 * 1000000);
                mk_poll [alice_feedback] (t_call + 180000 * 1000000)]
          = before ++ turn :: after
          ∧ stored_feedback (completed_then turn) second_request = Some fb
          ∧ Forall (fun t => stored_feedback (completed_then t) second_request
                             = None) before
    | TimedOut => False
    | Sleeping =>
        Forall (fun t => stored_feedback (completed_then t) second_request = None)
          (mk_poll (completed_reviews four_pending) t_first
             :: [mk_poll [] (t_call + 90000 * 1000000);
                 mk_poll [alice_feedback] (t_call + 180000 * 1000000)])
    end.
Proof.
  split; [lia|].
  apply (wait_for_feedback_long_timeout four_pending second_request 86400 t_call
           t_first). lia.
Defined.

End LedgerFacts.

(** ** The text helpers of the scraper *)

Module ScrapeFacts.
Import WikisourceScaper ScrapeScenarios.

(** *** [_sanitize_filename] *)

Lemma all_chars_weaken (p q : ascii -> bool) s :
  (∀ c, p c = true -> q c = true) ->
  all_chars p s = true -> all_chars q s = true.
Proof.
  intros Hpq. induction s as [|c s IH]; simpl; [done|].
  intros [Hc Hs]%andb_true_iff. by rewrite (Hpq c Hc), IH.
Qed.

Lemma take_str_all_chars p n s :
  all_chars p s = true -> all_chars p (ContentReports.take_str n s) = true.
Proof.
  revert s. induction n as [|n IH]; intros [|c s]; simpl; try done.
  intros [Hc Hs]%andb_true_iff. by rewrite Hc, IH.
Qed.

Lemma take_str_short n s :
  (String.length s <= n)%nat -> ContentReports.take_str n s = s.
Proof.
  revert s. induction n as [|n IH]; intros [|c s]; simpl; try done; [lia|].
  intros Hlen. rewrite IH; [done|lia].
Qed.

Lemma take_str_bound n s :
  (String.length (ContentReports.take_str n s) <= n)%nat
  ∧ (String.length (ContentReports.take_str n s) <= String.length s)%nat.
Proof.
  revert s. induction n as [|n IH]; intros [|c s]; simpl; try lia.
  destruct (IH s). lia.
Qed.

Lemma replace_invalid_valid s :
  all_chars (fun c => negb (invalid_char c)) (replace_invalid s) = true.
Proof.
  induction s as [|c s IH]; simpl; [done|].
  rewrite IH, andb_true_r. by destruct (invalid_char c) eqn:Hc; [|rewrite Hc].
Qed.

Lemma replace_invalid_length s :
  String.length (replace_invalid s) = String.length s.
Proof. induction s as [|c s IH]; simpl; [done|]. by rewrite IH. Qed.

Lemma replace_invalid_id s :
  all_chars (fun c => negb (invalid_char c)) s = true -> replace_invalid s = s.
Proof.
  induction s as [|c s IH]; simpl; [done|].
  intros [Hc Hs]%andb_true_iff. apply negb_true_iff in Hc. by rewrite Hc, IH.
Qed.

Lemma replace_spaces_safe b s :
  all_chars (fun c => negb (invalid_char c)) s = true ->
  all_chars safe_char (replace_spaces b s) = true.
Proof.
  revert b. induction s as [|c s IH]; intros b; simpl; [done|].
  intros [Hc Hs]%andb_true_iff.
  destruct (isspace c) eqn:Hsp.
  - destruct b; simpl; by rewrite IH.
  - simpl. unfold safe_char at 1. by rewrite Hc, Hsp, IH.
Qed.

Lemma replace_spaces_length b s :
  (String.length (replace_spaces b s) <= String.length s)%nat.
Proof.
  revert b. induction s as [|c s IH]; intros b; simpl; [done|].
  destruct (isspace c); [destruct b|]; simpl;
    [pose proof (IH true)|pose proof (IH true)|pose proof (IH false)]; lia.
Qed.

Lemma replace_spaces_id b s :
  all_chars (fun c => negb (isspace c)) s = true -> replace_spaces b s = s.
Proof.
  revert b. induction s as [|c s IH]; intros b; simpl; [done|].
  intros [Hc Hs]%andb_true_iff. apply negb_true_iff in Hc. by rewrite Hc, IH.
Qed.

Lemma sanitize_safe_id s :
  all_chars safe_char s = true -> (String.length s <= 100)%nat ->
  _sanitize_filename s = s.
Proof.
  intros Hs Hlen. unfold _sanitize_filename.
  rewrite replace_invalid_id, replace_spaces_id, take_str_short; try done.
  - apply (all_chars_weaken safe_char); [|done].
    unfold safe_char. by intros c [_ ?]%andb_true_iff.
  - apply (all_chars_weaken safe_char); [|done].
    unfold safe_char. by intros c [? _]%andb_true_iff.
Qed.

(** X18: the name that [_sanitize_filename] returns holds none of the
    characters < > : / \ | ? * and double quote and no whitespace, is at
    most 100 characters long and never longer than the name given.
    Sanitizing it again changes nothing, and a name that is already of
    this kind comes back as it is. *)
Theorem sanitize_filename_safe (filename : string) :
  all_chars safe_char (_sanitize_filename filename) = true
  ∧ (String.length (_sanitize_filename filename) <= 100)%nat
  ∧ (String.length (_sanitize_filename filename) <= String.length filename)%nat
  ∧ _sanitize_filename (_sanitize_filename filename) = _sanitize_filename filename
  ∧ (all_chars safe_char filename = true ->
     (String.length filename <= 100)%nat ->
     _sanitize_filename filename = filename).
Proof.
  assert (all_chars safe_char (_sanitize_filename filename) = true) as Hsafe.
  { apply take_str_all_chars, replace_spaces_safe, replace_invalid_valid. }
  pose proof (take_str_bound 100
                (replace_spaces false (replace_invalid filename))) as [H100 Hle].
  pose proof (replace_spaces_length false (replace_invalid filename)) as Hsp.
  rewrite replace_invalid_length in Hsp.
  split_and!; [done|done|unfold _sanitize_filename; lia| |apply sanitize_safe_id].
  by apply sanitize_safe_id.
Qed.

(** The title of the scenario: the colon, the quotes, the question mark
    and the slash become underscores, and so does each run of blanks. *)
Example sanitize_filename_title :
  _sanitize_filename chapter_title = "Book_1__What_is__Home____draft".
Proof. vm_compute. reflexivity. Qed.

(** *** [_clean_content] *)

Lemma append_empty_r (s : string) : s +:+ "" = s.
Proof.
  induction s as [|c s IH]; [done|].
  change (String c s +:+ "") with (String c (s +:+ "")). by rewrite IH.
Qed.

Lemma append_assoc (a b c : string) : (a +:+ b) +:+ c = a +:+ (b +:+ c).
Proof.
  induction a as [|x a IH]; [done|].
  change (String x ((a +:+ b) +:+ c) = String x (a +:+ (b +:+ c))).
  by rewrite IH.
Qed.

Lemma lstrip_head (c : ascii) (r : string) :
  isspace c = false -> lstrip (String c r) = String c r.
Proof. simpl. by intros ->. Qed.

(** What [lstrip] returns is empty or starts with a character that is no
    whitespace. *)
Lemma lstrip_cases s :
  lstrip s = "" ∨ ∃ c r, lstrip s = String c r ∧ isspace c = false.
Proof.
  induction s as [|c s IH]; simpl; [by left|].
  destruct (isspace c) eqn:Hc; [done|]. right. by exists c, s.
Qed.

Lemma rstrip_idemp s : rstrip (rstrip s) = rstrip s.
Proof.
  induction s as [|c s IH]; simpl; [done|].
  destruct (rstrip s) as [|d r] eqn:Hr.
  - destruct (isspace c) eqn:Hc; simpl; [done|]. by rewrite Hc.
  - simpl in *. by rewrite IH.
Qed.

Lemma rstrip_head (c : ascii) (r : string) :
  isspace c = false -> ∃ r', rstrip (String c r) = String c r'.
Proof.
  intros Hc. simpl. destruct (rstrip r) as [|d r'].
  - rewrite Hc. by eexists.
  - by eexists.
Qed.

Lemma strip_stripped s : lstrip (strip s) = strip s ∧ rstrip (strip s) = strip s.
Proof.
  unfold strip. split; [|apply rstrip_idemp].
  destruct (lstrip_cases s) as [->|(c & r & -> & Hc)]; [done|].
  destruct (rstrip_head c r Hc) as [r' ->]. by apply lstrip_head.
Qed.

Lemma strip_idemp s : strip (strip s) = strip s.
Proof.
  destruct (strip_stripped s) as [Hl Hr]. unfold strip at 1. by rewrite Hl.
Qed.

Lemma lstrip_all_chars p s :
  all_chars p s = true -> all_chars p (lstrip s) = true.
Proof.
  induction s as [|c s IH]; simpl; [done|].
  intros [Hc Hs]%andb_true_iff.
  destruct (isspace c); [by apply IH|]. simpl. by rewrite Hc, Hs.
Qed.

Lemma rstrip_all_chars p s :
  all_chars p s = true -> all_chars p (rstrip s) = true.
Proof.
  induction s as [|c s IH]; simpl; [done|].
  intros [Hc Hs]%andb_true_iff. specialize (IH Hs).
  destruct (rstrip s) as [|d r].
  - destruct (isspace c); simpl; [done|]. by rewrite Hc.
  - simpl in *. by rewrite Hc, IH.
Qed.

Lemma split_on_not_nil sep s : split_on sep s ≠ [].
Proof.
  induction s as [|c s IH]; simpl; [done|].
  destruct (Ascii.eqb c sep); [done|]. by destruct (split_on sep s).
Qed.

Lemma split_on_lines s :
  Forall (fun line => all_chars not_newline line = true) (split_on newline s).
Proof.
  induction s as [|c s IH]; simpl; [by repeat constructor|].
  destruct (Ascii.eqb c newline) eqn:Hc; [by constructor|].
  destruct (split_on newline s) as [|w ws].
  { constructor; [|constructor]. simpl. unfold not_newline. by rewrite Hc. }
  apply Forall_cons in IH as [Hw Hws]. constructor; [|done].
  simpl. unfold not_newline at 1. by rewrite Hc, Hw.
Qed.

Lemma split_on_line (line rest : string) :
  all_chars not_newline line = true ->
  split_on newline (line +:+ String newline rest)
  = line :: split_on newline rest.
Proof.
  induction line as [|c line IH]; [done|].
  change (String c line +:+ String newline rest)
    with (String c (line +:+ String newline rest)).
  simpl. intros [Hc Hline]%andb_true_iff.
  apply negb_true_iff in Hc. rewrite Hc. by rewrite (IH Hline).
Qed.

Lemma split_on_last (line : string) :
  all_chars not_newline line = true -> split_on newline line = [line].
Proof.
  induction line as [|c line IH]; [done|]. simpl.
  intros [Hc Hline]%andb_true_iff.
  apply negb_true_iff in Hc. rewrite Hc. by rewrite (IH Hline).
Qed.

Lemma cleaned_lines_kept lines :
  Forall (fun line => all_chars not_newline line = true) lines ->
  Forall kept_line (cleaned_lines lines).
Proof.
  induction 1 as [|line rest Hline _ IH]; simpl; [constructor|].
  destruct (keeps (strip line)) eqn:Hkeeps; [|done].
  constructor; [|done]. split_and!; [apply strip_idemp|done|].
  by apply rstrip_all_chars, lstrip_all_chars.
Qed.

(** A kept line starts and ends with a character that is no whitespace. *)
Lemma kept_line_head line :
  kept_line line ->
  ∃ c r, line = String c r ∧ isspace c = false ∧ not_newline c = true.
Proof.
  intros (Hstrip & Hkeeps & Hnl).
  destruct line as [|c r]; [done|]. exists c, r. split; [done|].
  simpl in Hnl. apply andb_true_iff in Hnl as [Hc _]. split; [|done].
  destruct (strip_stripped (String c r)) as [Hl _]. rewrite Hstrip in Hl.
  simpl in Hl. destruct (isspace c) eqn:Hsp; [|done].
  exfalso. assert (String.length (lstrip r) <= String.length r)%nat as Hlen.
  { clear. induction r as [|d r IH]; simpl; [done|].
    destruct (isspace d); simpl; lia. }
  rewrite Hl in Hlen. simpl in Hlen. lia.
Qed.

Lemma rstrip_append (a b : string) :
  b ≠ "" -> rstrip b = b -> rstrip (a +:+ b) = a +:+ b.
Proof.
  intros Hb Hr. induction a as [|c a IH]; [done|].
  change (String c a +:+ b) with (String c (a +:+ b)). simpl. rewrite IH.
  destruct (a +:+ b) eqn:Hab; [|done].
  destruct a; [|done]. by destruct b.
Qed.

Lemma collapse_newlines_line (line rest : string) :
  all_chars not_newline line = true ->
  collapse_newlines 0 (line +:+ rest) = line +:+ collapse_newlines 0 rest.
Proof.
  induction line as [|c line IH]; [done|].
  change (String c line +:+ rest) with (String c (line +:+ rest)).
  simpl. intros [Hc Hline]%andb_true_iff.
  apply negb_true_iff in Hc. rewrite Hc. cbn. by rewrite (IH Hline).
Qed.

Lemma join_cons (line next : string) (rest : list string) :
  join blank_line (line :: next :: rest)
  = line +:+ String newline (String newline (join blank_line (next :: rest))).
Proof. done. Qed.

Lemma join_kept_head lines :
  Forall kept_line lines -> lines ≠ [] ->
  ∃ c r, join blank_line lines = String c r
         ∧ isspace c = false ∧ not_newline c = true.
Proof.
  intros Hlines Hne. destruct lines as [|line rest]; [done|].
  apply Forall_cons in Hlines as [Hline _].
  destruct (kept_line_head line Hline) as (c & r & -> & Hc & Hnl).
  destruct rest as [|next rest].
  - by exists c, r.
  - rewrite join_cons. by eexists c, _.
Qed.

Lemma collapse_newlines_char run (c : ascii) (r : string) :
  Ascii.eqb c newline = false ->
  collapse_newlines run (String c r)
  = newlines (Nat.min run 2) +:+ String c (collapse_newlines 0 r).
Proof. simpl. by intros ->. Qed.

Lemma collapse_newlines_join lines :
  Forall kept_line lines ->
  collapse_newlines 0 (join blank_line lines) = join blank_line lines.
Proof.
  induction 1 as [|line rest Hline Hrest IH]; [done|].
  destruct rest as [|next rest].
  - simpl. destruct Hline as (_ & _ & Hnl).
    rewrite <- (append_empty_r line) at 1.
    rewrite (collapse_newlines_line line "" Hnl). apply append_empty_r.
  - rewrite join_cons.
    destruct Hline as (_ & _ & Hnl). rewrite (collapse_newlines_line _ _ Hnl).
    f_equal.
    destruct (join_kept_head (next :: rest) Hrest) as (c & r & Hjoin & _ & Hc);
      [done|].
    rewrite Hjoin in *. unfold not_newline in Hc. apply negb_true_iff in Hc.
    rewrite (collapse_newlines_char 0 c r Hc) in IH.
    change (String c (collapse_newlines 0 r) = String c r) in IH.
    change (collapse_newlines 2 (String c r)
            = String newline (String newline (String c r))).
    rewrite (collapse_newlines_char 2 c r Hc).
    change (String newline (String newline (String c (collapse_newlines 0 r)))
            = String newline (String newline (String c r))).
    by rewrite IH.
Qed.

Lemma strip_join lines :
  Forall kept_line lines -> strip (join blank_line lines) = join blank_line lines.
Proof.
  intros Hlines. destruct lines as [|line rest]; [done|].
  destruct (join_kept_head (line :: rest) Hlines) as (c & r & Hjoin & Hc & _);
    [done|].
  unfold strip. rewrite Hjoin, (lstrip_head c r Hc), <- Hjoin. clear c r Hjoin Hc.
  induction Hlines as [|l ls Hl Hls IH]; [done|].
  assert (rstrip l = l ∧ l ≠ "") as [Hr Hne].
  { destruct (kept_line_head l Hl) as (c & r & -> & _). split; [|done].
    destruct Hl as (Hstrip & _). rewrite <- Hstrip at 1.
    destruct (strip_stripped (String c r)) as [_ Hrr]. by rewrite Hrr. }
  destruct ls as [|next more]; [done|].
  rewrite join_cons.
  change (l +:+ String newline (String newline (join blank_line (next :: more))))
    with (l +:+ (blank_line +:+ join blank_line (next :: more))).
  rewrite <- append_assoc. apply rstrip_append; [|done].
  destruct (join_kept_head (next :: more) Hls) as (c & r & -> & _); done.
Qed.

Lemma clean_content_join content :
  _clean_content content
  = join blank_line (cleaned_lines (split_on newline content)).
Proof.
  unfold _clean_content.
  destruct (String.eqb_spec content "") as [->|_]; [done|].
  pose proof (cleaned_lines_kept _ (split_on_lines content)) as Hkept.
  by rewrite collapse_newlines_join, strip_join.
Qed.

Lemma cleaned_lines_join lines :
  Forall kept_line lines ->
  cleaned_lines (split_on newline (join blank_line lines)) = lines.
Proof.
  induction 1 as [|line rest Hline Hrest IH]; [done|].
  pose proof Hline as (Hstrip & Hkeeps & Hnl).
  destruct rest as [|next rest].
  - simpl. rewrite (split_on_last line Hnl). simpl. by rewrite Hstrip, Hkeeps.
  - rewrite join_cons, (split_on_line line _ Hnl).
    change (split_on newline (String newline ?s)) with ("" :: split_on newline s).
    cbn [cleaned_lines]. rewrite Hstrip, Hkeeps.
    change (keeps (strip "")) with false. cbv iota. by rewrite IH.
Qed.

(** X19: [_clean_content] returns the lines it keeps, each stripped,
    longer than two characters and not starting with a bracket, with
    exactly one blank line between two of them: the later [re.sub] and
    [strip] find nothing to change.  Cleaning a cleaned text again
    returns it as it is. *)
Theorem clean_content_lines (content : string) :
  _clean_content content
  = join blank_line (cleaned_lines (split_on newline content))
  ∧ Forall (fun line => strip line = line ∧ 2 < len line
                        ∧ (∀ r, line ≠ String "[" r)
                        ∧ all_chars not_newline line = true)
      (cleaned_lines (split_on newline content))
  ∧ _clean_content (_clean_content content) = _clean_content content.
Proof.
  pose proof (cleaned_lines_kept _ (split_on_lines content)) as Hkept.
  split_and!.
  - apply clean_content_join.
  - eapply Forall_impl; [exact Hkept|].
    intros line (Hstrip & Hkeeps & Hnl). unfold keeps in Hkeeps.
    apply andb_true_iff in Hkeeps as [[_ Hbracket]%andb_true_iff Hlen].
    split_and!; [done|by apply Z.gtb_lt in Hlen| |done].
    intros r ->. done.
  - rewrite (clean_content_join (_clean_content content)).
    rewrite (clean_content_join content).
    by rewrite (cleaned_lines_join _ Hkept).
Qed.

(** The page of the scenario: the edit link, the blank lines and the
    page number go, the two paragraphs stay. *)
Example clean_content_page :
  _clean_content page_text
  = "The sun rose over the lagoon." +:+ nl +:+ nl +:+ "Dick sat up.".
Proof. vm_compute. reflexivity. Qed.

End ScrapeFacts.

(** ** The writer agent *)

Module WriterFacts.
Import AIWriterAgent WriterScenarios.

(** *** [_generate_with_retry] *)

Lemma total_app (l k : list Z) : total (l ++ k) = total l + total k.
Proof. unfold total. induction l as [|x l IH]; simpl; [done|]. lia. Qed.

Lemma retry_bounded_stop generate prompt max_retries attempt eff :
  retry_bounded generate prompt max_retries attempt 0 eff (Ret None, eff).
Proof.
  split; [|split; [simpl; lia|simpl; split; [lia|by left]]].
  exists []. rewrite app_nil_r. split_and!; [done|done|].
  change (total []) with 0. apply Z.pow_le_mono_r; lia.
Qed.

(** A turn whose answer is no exception and does not end the loop. *)
Lemma retry_bounded_quiet generate prompt max_retries attempt todo eff out :
  Z.of_nat (attempt + S todo) = max_retries ->
  (∀ e, generate (calls eff) prompt ≠ Raise e) ->
  retry_bounded generate prompt max_retries (S attempt) todo
    (mk_effects (S (calls eff)) (slept eff)) out ->
  retry_bounded generate prompt max_retries attempt (S todo) eff out.
Proof.
  intros Hturns Hquiet ((new & Hs & Hpos & Hsum) & Hc & Hres). simpl in *.
  split; [|split; [lia|]].
  - exists new. split_and!; [done|done|].
    rewrite Z.max_r by lia.
    assert (2 ^ Z.of_nat attempt <= 2 ^ Z.of_nat (S attempt))
      by (apply Z.pow_le_mono_r; lia).
    destruct todo as [|todo].
    + rewrite Z.max_l in Hsum by lia.
      replace (max_retries - 1) with (Z.of_nat attempt) by lia. lia.
    + rewrite Z.max_r in Hsum by lia. lia.
  - destruct (out.1) as [[r|]|e].
    + done.
    + destruct Hres as [Hcalls Hwhy]. split; [lia|]. right.
      destruct Hwhy as [->|Hwhy]; [|done].
      exists (calls eff). split; [lia|done].
    + destruct Hres as (_ & Hcalls & Hwhy). split_and!; [lia|lia|done].
Qed.

(** A turn that raises and is followed by a sleep. *)
Lemma retry_bounded_slept generate prompt max_retries attempt todo eff out :
  Z.of_nat (attempt + S todo) = max_retries ->
  Z.of_nat attempt < max_retries - 1 ->
  retry_bounded generate prompt max_retries (S attempt) todo
    (mk_effects (S (calls eff)) (slept eff ++ [2 ^ Z.of_nat attempt])) out ->
  retry_bounded generate prompt max_retries attempt (S todo) eff out.
Proof.
  intros Hturns Hmore ((new & Hs & Hpos & Hsum) & Hc & Hres). simpl in *.
  assert (0 < 2 ^ Z.of_nat attempt) by (apply Z.pow_pos_nonneg; lia).
  split; [|split; [lia|]].
  - exists (2 ^ Z.of_nat attempt :: new). rewrite Hs, <- app_assoc.
    change (total (?x :: ?l)) with (x + total l).
    split_and!; [done|lia|].
    rewrite Z.max_r in * by lia.
    replace (Z.of_nat (S attempt)) with (Z.of_nat attempt + 1) in Hsum by lia.
    rewrite Z.pow_add_r in Hsum by lia. lia.
  - destruct (out.1) as [[r|]|e].
    + done.
    + destruct Hres as [Hcalls Hwhy]. split; [lia|]. right.
      destruct Hwhy as [->|Hwhy]; [lia|done].
    + destruct Hres as (_ & Hcalls & Hwhy). split_and!; [lia|lia|done].
Qed.

Lemma retry_loop_bounded generate prompt max_retries todo :
  ∀ attempt eff,
    ((0 < todo)%nat -> Z.of_nat (attempt + todo) = max_retries) ->
    retry_bounded generate prompt max_retries attempt todo eff
      (retry_loop generate prompt max_retries attempt todo eff).
Proof.
  induction todo as [|todo IH]; intros attempt eff Hturns.
  { apply retry_bounded_stop. }
  specialize (Hturns ltac:(lia)).
  assert (∀ eff1,
            retry_bounded generate prompt max_retries (S attempt) todo eff1
              (retry_loop generate prompt max_retries (S attempt) todo eff1))
    as Hnext.
  { intros eff1. apply IH. lia. }
  assert (0 < 2 ^ Z.of_nat attempt) by (apply Z.pow_pos_nonneg; lia).
  simpl.
  destruct (generate (calls eff) prompt) as [[r|]|e] eqn:Hanswer.
  - destruct (String.eqb_spec (text r) "") as [Hempty|Hfull]; simpl.
    + apply retry_bounded_quiet; [done|by rewrite Hanswer|apply Hnext].
    + split; [|split; [simpl; lia|]]; simpl.
      * exists []. rewrite app_nil_r. change (total []) with 0.
        split_and!; [done|done|]. apply Z.pow_le_mono_r; lia.
      * split; [done|]. by exists (calls eff).
  - apply retry_bounded_quiet; [done|by rewrite Hanswer|apply Hnext].
  - destruct (Z.ltb_spec (Z.of_nat attempt) (max_retries - 1)) as [Hmore|Hlast].
    + apply retry_bounded_slept; [done|done|apply Hnext].
    + split; [|split; [simpl; lia|]]; simpl.
      * exists []. rewrite app_nil_r. change (total []) with 0.
        split_and!; [done|done|]. apply Z.pow_le_mono_r; lia.
      * split_and!; [lia|lia|]. by exists (calls eff).
Qed.

(** X20: [_generate_with_retry] calls the model at most [max_retries]
    times and sleeps, between two calls, less than
    [2 ** (max_retries - 1)] seconds in all.  A response it returns has
    a text that is not empty and is the answer of its last call; it
    raises only the exception of the last of [max_retries] calls; it
    returns [None] only after [max_retries] calls of which the last
    raised nothing, or when [max_retries] is not positive. *)
Theorem generate_with_retry_bounded generate prompt max_retries eff :
  match _generate_with_retry generate prompt max_retries eff with
  | (res, eff') =>
      (∃ new,
         slept eff' = slept eff ++ new
         ∧ 0 <= total new < 2 ^ Z.max 0 (max_retries - 1))
      ∧ (calls eff <= calls eff' <= calls eff + Z.to_nat max_retries)%nat
      ∧ match res with
        | Ret (Some r) =>
            text r ≠ ""
            ∧ ∃ k, calls eff' = S k ∧ generate k prompt = Ret (Some r)
        | Ret None =>
            calls eff' = (calls eff + Z.to_nat max_retries)%nat
            ∧ (max_retries <= 0
               ∨ ∃ k, calls eff' = S k ∧ ∀ e, generate k prompt ≠ Raise e)
        | Raise e =>
            1 <= max_retries
            ∧ calls eff' = (calls eff + Z.to_nat max_retries)%nat
            ∧ ∃ k, calls eff' = S k ∧ generate k prompt = Raise e
        end
  end.
Proof.
  unfold _generate_with_retry.
  pose proof (retry_loop_bounded generate prompt max_retries
                (Z.to_nat max_retries) 0 eff ltac:(lia)) as Hb.
  destruct (retry_loop generate prompt max_retries 0 (Z.to_nat max_retries) eff)
    as [res eff'].
  destruct Hb as ((new & Hs & Hpos & Hsum) & Hc & Hres). simpl in *.
  split; [|split; [lia|]].
  - exists new. split; [done|]. change (2 ^ 0) with 1 in Hsum. lia.
  - destruct res as [[r|]|e].
    + done.
    + destruct Hres as [Hcalls Hwhy]. split; [done|].
      destruct Hwhy as [Hzero|Hwhy]; [left; lia|by right].
    + destruct Hres as (Hturn & Hcalls & k & Hk & Hraise).
      split_and!; [lia|done|].
      by exists k.
Qed.

(** A model that fails twice makes the default three retries sleep one
    and then two seconds before the third call answers. *)
Example generate_with_retry_flaky :
  _generate_with_retry flaky "prompt" 3 rested
  = (Ret (Some (mk_response "  Long shadows fell as the sun rose.  ")),
     mk_effects 3 [1; 2]).
Proof. vm_compute. reflexivity. Qed.

(** *** [transform_content] and [batch_transform] *)

Lemma transform_content_recorded generate a task now eff :
  match transform_content generate a task now eff with
  | (res, a', eff') =>
      result_task_id res = WritingTask.task_id task
      ∧ writing_history a'
        = writing_history a ++ (if is_transformed res then [res] else [])
      ∧ model_name a' = model_name a
      ∧ (calls eff <= calls eff' <= calls eff + 3)%nat
      ∧ (∃ new, slept eff' = slept eff ++ new ∧ 0 <= total new <= 3)
      ∧ match res with
        | Transformed _ _ content _ words _ _ _ _ _ _ _ =>
            strip content = content
            ∧ words = Z.of_nat (length (split content))
        | Failed _ _ _ => True
        end
  end.
Proof.
  unfold transform_content, _generate_with_retry.
  pose proof (retry_loop_bounded generate (_build_writing_prompt task) 3
                (Z.to_nat 3) 0 eff ltac:(lia)) as Hb.
  destruct (retry_loop generate (_build_writing_prompt task) 3 0 (Z.to_nat 3) eff)
    as [res eff'].
  destruct Hb as ((new & Hs & Hpos & Hsum) & Hc & _). simpl in Hs, Hc.
  assert (∃ new, slept eff' = slept eff ++ new ∧ 0 <= total new <= 3) as Hslept.
  { exists new. split; [done|].
    change (2 ^ Z.max (Z.of_nat 0) (3 - 1)) with 4 in Hsum.
    change (2 ^ Z.of_nat 0) with 1 in Hsum. lia. }
  change (Z.to_nat 3) with 3%nat in Hc.
  destruct res as [[r|]|e]; simpl.
  - split_and!; try done; try lia. apply ScrapeFacts.strip_idemp.
  - rewrite app_nil_r. split_and!; try done; lia.
  - rewrite app_nil_r. split_and!; try done; lia.
Qed.

Lemma batch_process_recorded generate tasks now_at :
  ∀ a i eff,
    batch_recorded a tasks eff (batch_process generate a tasks now_at i eff).
Proof.
  induction tasks as [|task rest IH]; intros a i eff.
  { simpl. unfold batch_recorded. simpl. rewrite app_nil_r.
    split_and!; try done; try lia. exists []. by rewrite app_nil_r. }
  simpl.
  pose proof (transform_content_recorded generate a task (now_at i) eff) as Hone.
  destruct (transform_content generate a task (now_at i) eff) as [[res a1] eff1].
  destruct Hone as (Hid & Hhist & Hname & Hcalls & (new1 & Hs1 & Hsum1) & Hres).
  set (eff2 := match rest with
               | [] => eff1
               | _ :: _ => mk_effects (calls eff1) (slept eff1 ++ [1])
               end).
  assert (calls eff2 = calls eff1
          ∧ ∃ pause, slept eff2 = slept eff1 ++ pause ∧ 0 <= total pause <= 1)
    as (Hcalls2 & pause & Hs2 & Hsum2).
  { subst eff2. destruct rest; simpl.
    - split; [done|]. exists []. by rewrite app_nil_r.
    - split; [done|]. by exists [1]. }
  specialize (IH a1 (S i) eff2).
  destruct (batch_process generate a1 rest now_at (S i) eff2)
    as [[results a'] eff'].
  destruct IH as (Hids & Hhist' & Hname' & Hcalls' & (new & Hs & Hsum) & Hall).
  simpl in *. unfold batch_recorded. simpl.
  split_and!.
  - by rewrite Hid, Hids.
  - rewrite Hhist', Hhist, filter_cons.
    destruct (is_transformed res) eqn:Hres'.
    + rewrite decide_True by done. by rewrite <- app_assoc.
    + rewrite decide_False by done. by rewrite app_nil_r.
  - congruence.
  - lia.
  - lia.
  - exists (new1 ++ pause ++ new).
    rewrite Hs, Hs2, Hs1, <- !app_assoc. split; [done|].
    rewrite !total_app. lia.
  - by constructor.
Qed.

(** X21: [batch_transform] returns one result for each task, in the
    order of the tasks and under their task ids, whether the model
    answers or fails.  It appends to [writing_history] exactly the
    results that carry a transformed text, in that order; it calls the
    model at most three times a task and sleeps at most four seconds a
    task; and a transformed text is stripped and counted in words as
    [split] cuts it. *)
Theorem batch_transform_recorded generate a tasks now_at eff :
  match batch_transform generate a tasks now_at eff with
  | (results, a', eff') =>
      map result_task_id results = map WritingTask.task_id tasks
      ∧ writing_history a'
        = writing_history a ++ filter (fun r => is_transformed r = true) results
      ∧ model_name a' = model_name a
      ∧ (calls eff <= calls eff' <= calls eff + 3 * length tasks)%nat
      ∧ (∃ new, slept eff' = slept eff ++ new
                ∧ 0 <= total new <= 4 * Z.of_nat (length tasks))
      ∧ Forall (fun r =>
                  match r with
                  | Transformed _ _ content _ words _ _ _ _ _ _ _ =>
                      strip content = content
                      ∧ words = Z.of_nat (length (split content))
                  | Failed _ _ _ => True
                  end) results
  end.
Proof.
  unfold batch_transform.
  pose proof (batch_process_recorded generate tasks now_at a 0%nat eff) as Hb.
  by destruct (batch_process generate a tasks now_at 0 eff) as [[results a'] eff'].
Qed.

(** With a model that is down, the task of the scenario fails after
    three calls and sleeps of one and two seconds, and the history
    stays empty. *)
Example transform_content_down :
  transform_content down writer margaret "2024-05-01T10:00:07" rested
  = (Failed "task_20240501_100000" (StrOfException BackendError)
       "2024-05-01T10:00:07",
     writer, mk_effects 3 [1; 2]).
Proof. vm_compute. reflexivity. Qed.

(** *** [create_writing_variations] *)

Lemma init_unexpected_keyword kwargs stamp k v :
  (k, v) ∈ kwargs -> k ∉ WritingTask.parameters ->
  WritingTask.init kwargs stamp = Raise TypeError.
Proof.
  intros Hin Hk. unfold WritingTask.init.
  destruct (forallb (fun kv => bool_decide (kv.1 ∈ WritingTask.parameters)) kwargs)
    eqn:Hall; [|done].
  rewrite forallb_forall in Hall.
  specialize (Hall (k, v) (proj1 (list_elem_of_In _ _) Hin)).
  simpl in Hall. by apply bool_decide_eq_true in Hall.
Qed.

Lemma style_no_parameter : "style" ∉ WritingTask.parameters.
Proof.
  unfold WritingTask.parameters. intros Hin.
  repeat (apply elem_of_cons in Hin as [Hin|Hin]; [discriminate|]).
  by apply elem_of_nil in Hin.
Qed.

(** X22: [create_writing_variations] raises [TypeError] whenever
    [count] is 1 or more: every entry of [variation_configs] passes the
    keyword [style], which is no field of [WritingTask], so the first
    task is never built and the model is never called.  With a [count]
    below 1 it returns the empty list and changes nothing. *)
Theorem create_writing_variations_raises generate a source_content title count
    stamp_at now_at eff :
  create_writing_variations generate a source_content title count stamp_at
    now_at eff
  = if 1 <=? count then Raise TypeError else Ret ([], a, eff).
Proof.
  unfold create_writing_variations.
  destruct (Z.leb_spec 1 count) as [Hcount|Hcount].
  - assert (∃ n, Z.to_nat (Z.min count (Z.of_nat (length variation_configs)))
                 = S n) as [n ->].
    { exists (Nat.pred (Z.to_nat (Z.min count
                                     (Z.of_nat (length variation_configs))))).
      simpl length. lia. }
    unfold variation_configs. cbn [take variation_tasks].
    rewrite (init_unexpected_keyword _ _ "style" (WritingTask.StrArg "literary"));
      [done| |apply style_no_parameter].
    do 2 apply list_elem_of_further. apply list_elem_of_here.
  - replace (Z.to_nat (Z.min count (Z.of_nat (length variation_configs))))
      with 0%nat by lia.
    done.
Qed.

(** Given [target_style] as the keyword, the task is built. *)
Example init_target_style :
  WritingTask.init
    [("source_content", WritingTask.StrArg "The morning sun.");
     ("title", WritingTask.StrArg "Morning - Variation 1");
     ("target_style", WritingTask.StrArg "modern");
     ("creativity_level", WritingTask.FloatArg 0.5%float);
     ("target_length", WritingTask.StrArg "shorter")]
    "20240501_100000"
  = Ret (WritingTask.mk "The morning sun." "Morning - Variation 1" "modern"
           "shorter" true 0.5%float "task_20240501_100000").
Proof. vm_compute. reflexivity. Qed.

End WriterFacts.
